(** * Dynamic inventory: a shallow embedding of
      [ansible/inventory/dynamic_inventory.py]

    The script builds an Ansible inventory document from two sources: the
    outputs of the infrastructure-as-code tool ([TerraformInventory]) and
    the cloud provider's instance listing ([EC2Inventory]).  The document is
    a Python dictionary that the generators mutate in place, so the
    embedding threads it through a state-and-exception monad: a raised
    exception keeps every mutation made before it, as in Python.

    Typing of the inputs.  The instance records of the cloud API and the
    JSON documents printed by the tool are taken at their documented shape:
    a field is a string or absent, a tag has a [Key] and a [Value], a JSON
    document is an object whose members are [null] or objects of strings. *)

From Stdlib Require Import Ascii String ZArith.
From stdpp Require Import base option list strings gmap fin_maps.

Open Scope string_scope.
Open Scope list_scope.

(** ** Python values found in the document *)

Inductive pyval :=
| PNone
| PBool (b : bool)
| PStr (s : string)
| PDict (d : gmap string string).

(** [x] for an [Optional[str]] stored in a dictionary. *)
Definition of_opt (o : option string) : pyval :=
  match o with Some s => PStr s | None => PNone end.

(** [str(x)] inside an f-string, for an [Optional[str]]. *)
Definition py_str (o : option string) : string :=
  match o with Some s => s | None => "None" end.

(** Truth value of an [Optional[str]]: [None] and [''] are false. *)
Definition truthy (o : option string) : bool :=
  match o with
  | Some s => negb (String.eqb s "")
  | None => false
  end.

(** [s.replace(old, new)] for one-character [old] and [new]. *)
Fixpoint str_replace (old new : ascii) (s : string) : string :=
  match s with
  | EmptyString => EmptyString
  | String c r =>
      String (if Ascii.eqb c old then new else c) (str_replace old new r)
  end.

(** ** The inventory document

    A top-level key holds either the reserved [_meta] record, with its
    [hostvars] dictionary, or a group record, whose [hosts] and [vars] keys
    may each be missing. *)

Inductive entry :=
| Meta (hostvars : gmap string (gmap string pyval))
| Group (hosts : option (list string)) (vars : option (gmap string pyval)).

(** [{'_meta': {'hostvars': {}}}], the document of a fresh generator. *)
Definition init_inventory : gmap string entry :=
  {[ "_meta" := Meta ∅ ]}.

(** ** Cloud API records *)

Record tag := { Key : string; Value : string }.

Record placement := { AvailabilityZone : option string }.

(** [Tags] absent reads as the empty list ([instance.get('Tags', [])]). *)
Record instance := {
  Tags : list tag;
  KeyName : option string;
  PublicIpAddress : option string;
  PrivateIpAddress : option string;
  InstanceId : option string;
  InstanceType : option string;
  Placement : option placement
}.

Record reservation := { Instances : list instance }.

(** ** The tool's JSON output *)

(** An object member: JSON [null] ([None]) or an object of string fields,
    each of which may itself be [null]. *)
Abbreviation json_obj := (gmap string (option string)).
Abbreviation json_doc := (gmap string (option json_obj)).

Inductive proc_outcome :=
| SpawnFailed
| Completed (returncode : Z) (stdout : string).

(** ** The process and its surroundings *)

Inductive exn :=
| KeyError (k : string)
| AttributeError
| OSError
| CalledProcessError
| JSONDecodeError
| ClientError.

(** External calls, recorded in the order they are made. *)
Inductive event :=
| SubprocessRun (dir : string) (command : list string)
| DescribeInstances (region : string) (states : list string).

(** What the script reads from outside: the file system, the tool and the
    cloud API.  [describe_instances] returns [None] when the call raises. *)
Record world := {
  project_root : string;
  path_exists : string → bool;
  getcwd_ok : string → bool;
  chdir_ok : string → bool;
  subprocess_run : string → list string → proc_outcome;
  json_loads : string → option json_doc;
  describe_instances : string → list string → option (list reservation)
}.

(** The mutable part: [self.inventory], the working directory of the
    process and the calls made so far. *)
Record pstate := {
  inventory : gmap string entry;
  cwd : string;
  trace : list event
}.

Definition set_inventory (i : gmap string entry) (s : pstate) : pstate :=
  {| inventory := i; cwd := cwd s; trace := trace s |}.

Definition set_cwd (d : string) (s : pstate) : pstate :=
  {| inventory := inventory s; cwd := d; trace := trace s |}.

Definition record (e : event) (s : pstate) : pstate :=
  {| inventory := inventory s; cwd := cwd s; trace := trace s ++ [e] |}.

Definition init_state (d : string) : pstate :=
  {| inventory := init_inventory; cwd := d; trace := [] |}.

(** ** State and exceptions *)

Inductive result (A : Type) :=
| Ok (a : A)
| Raise (e : exn).
Arguments Ok {A} a.
Arguments Raise {A} e.

Definition M (A : Type) : Type := pstate → result A * pstate.

Definition ret {A} (a : A) : M A := fun s => (Ok a, s).

Definition raise {A} (e : exn) : M A := fun s => (Raise e, s).

Definition bind {A B} (m : M A) (k : A → M B) : M B :=
  fun s =>
    match m s with
    | (Ok a, s') => k a s'
    | (Raise e, s') => (Raise e, s')
    end.

(** [try: m  except Exception: h] *)
Definition try_except {A} (m : M A) (h : exn → M A) : M A :=
  fun s =>
    match m s with
    | (Ok a, s') => (Ok a, s')
    | (Raise e, s') => h e s'
    end.

Declare Scope py_scope.
Delimit Scope py_scope with py.
Notation "'let*' x := m 'in' k" := (bind m (fun x => k))
  (at level 10, x name, m at level 100, k at level 200, only parsing) : py_scope.
Notation "m >> k" := (bind m (fun _ => k))
  (at level 100, k at level 200, right associativity, only parsing) : py_scope.
Open Scope py_scope.

Definition get_inventory : M (gmap string entry) :=
  fun s => (Ok (inventory s), s).

Definition put_inventory (i : gmap string entry) : M unit :=
  fun s => (Ok tt, set_inventory i s).

(** [for x in l: body x] *)
Fixpoint for_each {A} (l : list A) (body : A → M unit) : M unit :=
  match l with
  | [] => ret tt
  | x :: r => body x >> for_each r body
  end.

(** ** Dictionary accesses on the document *)

(** [k in self.inventory] *)
Definition has_key (k : string) : M bool :=
  let* inv := get_inventory in
  ret match inv !! k with Some _ => true | None => false end.

(** [if k not in self.inventory: self.inventory[k] = e] *)
Definition ensure_group (k : string) (e : entry) : M unit :=
  let* present := has_key k in
  if present then ret tt
  else let* inv := get_inventory in put_inventory (<[k := e]> inv).

(** [self.inventory[g]['hosts']] *)
Definition lookup_hosts (g : string) : M (list string) :=
  let* inv := get_inventory in
  match inv !! g with
  | None => raise (KeyError g)
  | Some (Meta _) => raise (KeyError "hosts")
  | Some (Group None _) => raise (KeyError "hosts")
  | Some (Group (Some l) _) => ret l
  end.

(** [self.inventory[g]['hosts'].append(h)] *)
Definition append_host (g h : string) : M unit :=
  let* inv := get_inventory in
  match inv !! g with
  | None => raise (KeyError g)
  | Some (Meta _) => raise (KeyError "hosts")
  | Some (Group None _) => raise (KeyError "hosts")
  | Some (Group (Some l) v) =>
      put_inventory (<[g := Group (Some (l ++ [h])) v]> inv)
  end.

(** [self.inventory['_meta']['hostvars'][h] = hv] *)
Definition set_hostvars (h : string) (hv : gmap string pyval) : M unit :=
  let* inv := get_inventory in
  match inv !! "_meta" with
  | None => raise (KeyError "_meta")
  | Some (Group _ _) => raise (KeyError "hostvars")
  | Some (Meta m) => put_inventory (<["_meta" := Meta (<[h := hv]> m)]> inv)
  end.

(** [self.inventory['_meta']['hostvars'].get(hostname, {})] *)
Definition hostvars_get (hostname : string) : M (gmap string pyval) :=
  let* inv := get_inventory in
  match inv !! "_meta" with
  | None => raise (KeyError "_meta")
  | Some (Group _ _) => raise (KeyError "hostvars")
  | Some (Meta m) => ret (default ∅ (m !! hostname))
  end.

(** [self.inventory['_meta']['hostvars']] of a document, for statements. *)
Definition hostvars_of (inv : gmap string entry) : gmap string (gmap string pyval) :=
  match inv !! "_meta" with
  | Some (Meta m) => m
  | _ => ∅
  end.

(** The host list of a group of a document; empty where there is none. *)
Definition hosts_of (inv : gmap string entry) (g : string) : list string :=
  match inv !! g with
  | Some (Group (Some l) _) => l
  | _ => []
  end.

(** The cloud API calls of a trace: region and state filter of each. *)
Definition api_calls (t : list event) : list (string * list string) :=
  omap (fun e => match e with
                 | DescribeInstances r st => Some (r, st)
                 | SubprocessRun _ _ => None
                 end) t.

(** ** The outside calls *)

(** [boto3.client('ec2', region_name=region).describe_instances(...)] for
    the instances of the project in one of the given states. *)
Definition ec2_describe (W : world) (region : string) (states : list string)
    : M (list reservation) :=
  fun s =>
    let s' := record (DescribeInstances region states) s in
    match describe_instances W region states with
    | Some rs => (Ok rs, s')
    | None => (Raise ClientError, s')
    end.

(** The two nested loops over [response['Reservations']]. *)
Definition all_instances (rs : list reservation) : list instance :=
  List.concat (Instances <$> rs).

Definition os_getcwd (W : world) : M string :=
  fun s => if getcwd_ok W (cwd s) then (Ok (cwd s), s) else (Raise OSError, s).

Definition os_chdir (W : world) (d : string) : M unit :=
  fun s => if chdir_ok W d then (Ok tt, set_cwd d s) else (Raise OSError, s).

(** [subprocess.run(command, capture_output=True, text=True, check=True)],
    giving [result.stdout]. *)
Definition run (W : world) (command : list string) : M string :=
  fun s =>
    let s' := record (SubprocessRun (cwd s) command) s in
    match subprocess_run W (cwd s) command with
    | SpawnFailed => (Raise OSError, s')
    | Completed rc out =>
        if (rc =? 0)%Z then (Ok out, s') else (Raise CalledProcessError, s')
    end.

Definition loads (W : world) (text : string) : M json_doc :=
  match json_loads W text with
  | Some d => ret d
  | None => raise JSONDecodeError
  end.

(** [os.path.join] of [posixpath]. *)
Definition starts_with_sep (s : string) : bool :=
  match s with
  | String c _ => Ascii.eqb c "/"
  | EmptyString => false
  end.

Fixpoint ends_with_sep (s : string) : bool :=
  match s with
  | EmptyString => false
  | String c EmptyString => Ascii.eqb c "/"
  | String _ r => ends_with_sep r
  end.

Definition join_step (path b : string) : string :=
  if starts_with_sep b then b
  else if String.eqb path "" || ends_with_sep path then path +:+ b
  else path +:+ "/" +:+ b.

Definition os_path_join (a : string) (p : list string) : string :=
  foldl join_step a p.

(** [os.path.dirname] of [posixpath]:
    [i = p.rfind('/') + 1; head = p[:i]], and [head.rstrip('/')] unless
    [head] is empty or slashes only. *)
Fixpoint up_to_last_sep (p : string) : string :=
  match p with
  | EmptyString => EmptyString
  | String c r =>
      let head := up_to_last_sep r in
      if Ascii.eqb c "/" || negb (String.eqb head "") then String c head
      else EmptyString
  end.

Fixpoint all_sep (p : string) : bool :=
  match p with
  | EmptyString => true
  | String c r => Ascii.eqb c "/" && all_sep r
  end.

Fixpoint rstrip_sep (p : string) : string :=
  match p with
  | EmptyString => EmptyString
  | String c r =>
      let t := rstrip_sep r in
      if Ascii.eqb c "/" && String.eqb t "" then EmptyString else String c t
  end.

Definition os_path_dirname (p : string) : string :=
  let head := up_to_last_sep p in
  if negb (String.eqb head "") && negb (all_sep head) then rstrip_sep head
  else head.

(** ** [class EC2Inventory] *)

Module EC2Inventory.

(** [_add_to_group]: creates the group on first use and appends the
    hostname unless the list has it already. *)
Definition _add_to_group (group_name hostname : string) : M unit :=
  ensure_group group_name (Group (Some []) None) >>
  let* l := lookup_hosts group_name in
  if bool_decide (hostname ∈ l) then ret tt
  else append_host group_name hostname.

(** [{tag['Key']: tag['Value'] for tag in instance.get('Tags', [])}]:
    a later tag overrides an earlier one with the same key. *)
Definition tags_dict (i : instance) : gmap string string :=
  foldl (fun m t => <[Key t := Value t]> m) ∅ (Tags i).

Definition hostname_of (environment : string) (tags : gmap string string) : string :=
  environment +:+ "-" +:+ default "unknown" (tags !! "Name").

Definition host_vars_of (i : instance) (environment public_ip : string)
    (tags : gmap string string) : gmap string pyval :=
  list_to_map
    [ ("ansible_host", PStr public_ip);
      ("ansible_user", PStr "ubuntu");
      ("ansible_ssh_private_key_file",
         PStr ("~/.ssh/" +:+ default "iac-demo-key" (KeyName i) +:+ ".pem"));
      ("private_ip", of_opt (PrivateIpAddress i));
      ("instance_id", of_opt (InstanceId i));
      ("instance_type", of_opt (InstanceType i));
      ("availability_zone",
         of_opt (default (Build_placement None) (Placement i)).(AvailabilityZone));
      ("environment", PStr environment);
      ("tags", PDict tags);
      ("ansible_ssh_common_args", PStr "-o StrictHostKeyChecking=no") ].

(** [f"type_{instance_type.replace('.', '_')}"] with
    [instance_type = instance.get('InstanceType', 'unknown')]. *)
Definition type_group (i : instance) : string :=
  "type_" +:+ str_replace "." "_" (default "unknown" (InstanceType i)).

(** The body of the [try] of [_process_instance]. *)
Definition _process_instance_body (i : instance) : M unit :=
  let tags := tags_dict i in
  let environment := tags !! "Environment" in
  if negb (truthy environment) then ret tt
  else
    let environment := default "" environment in
    let hostname := hostname_of environment tags in
    let public_ip := PublicIpAddress i in
    if negb (truthy public_ip) then ret tt
    else
      set_hostvars hostname
        (host_vars_of i environment (default "" public_ip) tags) >>
      _add_to_group "all" hostname >>
      _add_to_group "web_servers" hostname >>
      _add_to_group environment hostname >>
      _add_to_group (type_group i) hostname.

(** [_process_instance]: any exception is logged and swallowed. *)
Definition _process_instance (i : instance) : M unit :=
  try_except (_process_instance_body i) (fun _ => ret tt).

(** [generate_inventory]: one API call for the running instances of the
    project, then every instance of every reservation in turn. *)
Definition generate_inventory (W : world) (region : string) : M (gmap string entry) :=
  try_except
    (let* response := ec2_describe W region ["running"] in
     for_each (all_instances response) _process_instance >>
     get_inventory)
    (fun _ => get_inventory).

End EC2Inventory.

(** ** [class TerraformInventory] *)

Module TerraformInventory.

Definition terraform_environments : list string := ["dev"; "staging"; "prod"].

Section Generator.
Variable W : world.

(** [_find_project_root]: the directories above the script are tried in
    turn until one has a [terraform] child or [/] is reached.  [file] is
    [__file__] and [abs_file] is [os.path.abspath(__file__)]; the [while]
    loop runs for at most [fuel] rounds, and the result is [None] when
    they do not suffice.  [__init__] stores the result as
    [self.project_root], the [project_root] of the surroundings. *)
Fixpoint find_root_loop (fallback : string) (fuel : nat) (current_dir : string)
    : option string :=
  match fuel with
  | O => None
  | S fuel' =>
      if String.eqb current_dir "/" then Some fallback
      else if path_exists W (os_path_join current_dir ["terraform"])
      then Some current_dir
      else find_root_loop fallback fuel' (os_path_dirname current_dir)
  end.

Definition _find_project_root (file abs_file : string) (fuel : nat)
    : option string :=
  find_root_loop (os_path_join (os_path_dirname file) [".."; ".."]) fuel
    (os_path_dirname abs_file).

(** [_run_terraform_command]: runs the tool in the directory of the
    environment and parses what it prints.  [old_cwd] is bound only once
    [os.getcwd()] has returned; the [finally] clause changes back to it and
    swallows whatever that raises. *)
Definition _run_terraform_command (env : string) (command : list string)
    : M (option json_doc) :=
  let terraform_dir :=
    os_path_join (project_root W) ["terraform"; "environments"; env] in
  if negb (path_exists W terraform_dir) then ret None
  else fun s =>
    (* try *)
    let '(r, old_cwd, s1) :=
      match os_getcwd W s with
      | (Raise e, s') => (Raise e, None, s')
      | (Ok old, s') =>
          let '(r, s'') :=
            (os_chdir W terraform_dir >>
             let* stdout := run W command in
             os_chdir W old >>
             if negb (String.eqb stdout "")
             then let* d := loads W stdout in ret (Some d)
             else ret (Some ∅)) s' in
          (r, Some old, s'')
      end in
    (* except CalledProcessError / JSONDecodeError / Exception *)
    let r' := match r with Ok v => Ok v | Raise _ => Ok None end in
    (* finally *)
    let s2 :=
      match old_cwd with
      | None => s1
      | Some old => snd (try_except (os_chdir W old) (fun _ => ret tt) s1)
      end in
    (r', s2).

Definition _get_terraform_outputs (env : string) : M (option json_doc) :=
  _run_terraform_command env ["terraform"; "output"; "-json"].

(** [result is not None and result.get('values') is not None] *)
Definition _check_terraform_state (env : string) : M bool :=
  let* result := _run_terraform_command env ["terraform"; "show"; "-json"] in
  ret match result with
      | Some d => match d !! "values" with Some (Some _) => true | _ => false end
      | None => false
      end.

(** [_get_ec2_instances_from_aws]: running and pending instances of the
    project; an error of the call gives the empty list. *)
Definition _get_ec2_instances_from_aws (region : string) : M (list instance) :=
  try_except
    (let* response := ec2_describe W region ["running"; "pending"] in
     ret (all_instances response))
    (fun _ => ret []).

(** [outputs.get(k, {}).get('value')]; a [null] member has no [get]. *)
Definition output_value (outputs : json_doc) (k : string) : result (option string) :=
  match outputs !! k with
  | None => Ok None
  | Some None => Raise AttributeError
  | Some (Some o) => Ok (mjoin (o !! "value"))
  end.

Definition ssh_args : string :=
  "-o StrictHostKeyChecking=no -o UserKnownHostsFile=/dev/null".

Definition _extract_host_info_from_terraform (env : string) (outputs : json_doc)
    : option (gmap string pyval) :=
  match output_value outputs "public_ip", output_value outputs "private_ip",
        output_value outputs "instance_id", output_value outputs "key_name" with
  | Ok public_ip, Ok private_ip, Ok instance_id, Ok key_name =>
      if negb (truthy public_ip) then None
      else Some (list_to_map
        [ ("ansible_host", of_opt public_ip);
          ("ansible_user", PStr "ubuntu");
          ("ansible_ssh_private_key_file",
             PStr ("~/.ssh/" +:+ py_str key_name +:+ ".pem"));
          ("environment", PStr env);
          ("private_ip", of_opt private_ip);
          ("instance_id", of_opt instance_id);
          ("key_name", of_opt key_name);
          ("ansible_ssh_common_args", PStr ssh_args) ])
  | _, _, _, _ => None
  end.

(** The tag loop of [_extract_host_info_from_ec2] stops at the first
    [Environment] tag. *)
Definition env_tag (i : instance) : option string :=
  Value <$> List.find (fun t => String.eqb (Key t) "Environment") (Tags i).

Definition _extract_host_info_from_ec2 (i : instance) : option (gmap string pyval) :=
  let key_name := default "iac-demo-key" (KeyName i) in
  let env := env_tag i in
  if negb (truthy env) then None
  else
    let public_ip := PublicIpAddress i in
    if negb (truthy public_ip) then None
    else Some (list_to_map
      [ ("ansible_host", of_opt public_ip);
        ("ansible_user", PStr "ubuntu");
        ("ansible_ssh_private_key_file", PStr ("~/.ssh/" +:+ key_name +:+ ".pem"));
        ("environment", of_opt env);
        ("private_ip", of_opt (PrivateIpAddress i));
        ("instance_id", of_opt (InstanceId i));
        ("key_name", PStr key_name);
        ("ansible_ssh_common_args", PStr ssh_args);
        ("source", PStr "aws-api") ]).

Definition all_vars : gmap string pyval :=
  list_to_map
    [ ("ansible_python_interpreter", PStr "/usr/bin/python3");
      ("ansible_ssh_common_args", PStr ssh_args);
      ("ansible_host_key_checking", PBool false) ].

(** [_add_host_to_inventory] *)
Definition _add_host_to_inventory (env : string) (host_info : gmap string pyval)
    : M unit :=
  let hostname := env +:+ "-web-server" in
  set_hostvars hostname host_info >>
  ensure_group "web_servers" (Group (Some []) (Some ∅)) >>
  append_host "web_servers" hostname >>
  ensure_group env (Group (Some []) (Some {["environment" := PStr env]})) >>
  append_host env hostname >>
  ensure_group "all" (Group None (Some all_vars)).

(** Truth value of an [Optional[Dict]]: [None] and [{}] are false. *)
Definition truthy_dict {V} (o : option (gmap string V)) : bool :=
  match o with
  | Some d => bool_decide (d ≠ ∅)
  | None => false
  end.

(** One round of the loop over the environments; gives the new value of
    [hosts_found]. *)
Definition env_step (env : string) (hosts_found : nat) : M nat :=
  let* has_state := _check_terraform_state env in
  if has_state then
    let* outputs := _get_terraform_outputs env in
    if truthy_dict outputs then
      let host_info := _extract_host_info_from_terraform env (default ∅ outputs) in
      if truthy_dict host_info then
        _add_host_to_inventory env (default ∅ host_info) >>
        ret (S hosts_found)
      else ret hosts_found
    else ret hosts_found
  else ret hosts_found.

Fixpoint env_loop (environments : list string) (hosts_found : nat) : M nat :=
  match environments with
  | [] => ret hosts_found
  | env :: rest =>
      let* n := env_step env hosts_found in env_loop rest n
  end.

(** One round of the loop over the instances of the fallback. *)
Definition fallback_step (specific_env : option string) (i : instance) : M unit :=
  let host_info := _extract_host_info_from_ec2 i in
  if truthy_dict host_info then
    match default ∅ host_info !! "environment" with
    | Some (PStr env) =>
        if negb (truthy specific_env) || bool_decide (Some env = specific_env)
        then _add_host_to_inventory env (default ∅ host_info)
        else ret tt
    | _ => raise (KeyError "environment")
    end
  else ret tt.

Definition default_region : string := "ap-southeast-1".

(** [generate_inventory] *)
Definition generate_inventory (specific_env : option string) : M (gmap string entry) :=
  let environments :=
    if truthy specific_env then [default "" specific_env]
    else terraform_environments in
  let* hosts_found := env_loop environments 0 in
  (if Nat.eqb hosts_found 0 then
     let* ec2_instances := _get_ec2_instances_from_aws default_region in
     for_each ec2_instances (fallback_step specific_env)
   else ret tt) >>
  get_inventory.

(** [get_host_vars] *)
Definition get_host_vars (hostname : string) : M (gmap string pyval) :=
  hostvars_get hostname.

End Generator.
End TerraformInventory.

(** ** The command line *)

Module CLI.

Inductive source_kind := terraform | ec2.

Record args := {
  list_flag : bool;
  host : option string;
  env : option string;
  source : source_kind;
  region : string;
  verbose : bool
}.

(** What [main] prints on standard output. *)
Inductive printed :=
| PrintInventory (inv : gmap string entry)
| PrintHostVars (hv : gmap string pyval)
| PrintHelp.

Record outcome := { stdout : printed + exn; exit_code : Z }.

Definition finish {A} (show : A → printed) (r : result A * pstate) : outcome * pstate :=
  match r with
  | (Ok a, s) => ({| stdout := inl (show a); exit_code := 0 |}, s)
  | (Raise e, s) => ({| stdout := inr e; exit_code := 1 |}, s)
  end.

(** [main], started in directory [d] with a fresh generator object.  An
    exception of the generator is logged and ends the run with status 1. *)
Definition main (W : world) (a : args) (d : string) : outcome * pstate :=
  if list_flag a then
    finish PrintInventory
      (match source a with
       | terraform => TerraformInventory.generate_inventory W (env a)
       | ec2 => EC2Inventory.generate_inventory W (region a)
       end (init_state d))
  else if truthy (host a) then
    finish PrintHostVars
      (match source a with
       | terraform =>
           TerraformInventory.generate_inventory W None >>
           TerraformInventory.get_host_vars (default "" (host a))
       | ec2 =>
           EC2Inventory.generate_inventory W (region a) >>
           hostvars_get (default "" (host a))
       end (init_state d))
  else ({| stdout := inl PrintHelp; exit_code := 1 |}, init_state d).

(** The arguments with another value of [--region]. *)
Definition with_region (r : string) (a : args) : args :=
  {| list_flag := list_flag a; host := host a; env := env a;
     source := source a; region := r; verbose := verbose a |}.

End CLI.

(** * Sample surroundings *)

Module Samples.

Definition web (environment : string) (ip : option string) (ty : option string) : instance :=
  {| Tags := [ {| Key := "Environment"; Value := environment |} ];
     KeyName := None; PublicIpAddress := ip; PrivateIpAddress := None;
     InstanceId := None; InstanceType := ty; Placement := None |}.

(** No state directory anywhere; the API lists the given instances. *)
Definition api_only (l : list instance) : world :=
  {| project_root := "/srv/iac";
     path_exists := fun _ => false;
     getcwd_ok := fun _ => true;
     chdir_ok := fun _ => true;
     subprocess_run := fun _ _ => SpawnFailed;
     json_loads := fun _ => None;
     describe_instances := fun _ _ => Some [ {| Instances := l |} ] |}.

(** The state directory of [dev] under the project root of the samples. *)
Definition dev_dir : string := "/srv/iac/terraform/environments/dev".

Definition show_doc : json_doc := {[ "values" := Some ∅ ]}.

Definition output_doc (ip : string) : json_doc :=
  {[ "public_ip" := Some {[ "value" := Some ip ]};
     "key_name" := Some {[ "value" := Some "iac-demo-key" ]} ]}.

(** Only [dev] has a state directory; the tool answers there, and its
    outputs give the public address [1.2.3.4]. *)
Definition dev_state : world :=
  {| project_root := "/srv/iac";
     path_exists := fun d => String.eqb d dev_dir;
     getcwd_ok := fun _ => true;
     chdir_ok := fun _ => true;
     subprocess_run := fun d c =>
       if String.eqb d dev_dir then
         Completed 0 (if bool_decide (c = ["terraform"; "show"; "-json"])
                      then "show" else "output")
       else SpawnFailed;
     json_loads := fun t =>
       if String.eqb t "show" then Some show_doc
       else if String.eqb t "output" then Some (output_doc "1.2.3.4")
       else None;
     describe_instances := fun _ _ => Some [] |}.

(** The tool exits with status 1 wherever it is run. *)
Definition failing_tool : world :=
  {| project_root := "/srv/iac";
     path_exists := fun _ => true;
     getcwd_ok := fun _ => true;
     chdir_ok := fun _ => true;
     subprocess_run := fun _ _ => Completed 1 "";
     json_loads := fun _ => None;
     describe_instances := fun _ _ => None |}.


End Samples.

(** * Notions used in the statements *)

(** A group whose host list exists and holds [h]. *)
Definition member (g h : string) (inv : gmap string entry) : Prop :=
  ∃ l v, inv !! g = Some (Group (Some l) v) ∧ h ∈ l.

(** A key on which [['hosts']] raises: the reserved record or a group
    without a host list. *)
Definition no_hosts (g : string) (inv : gmap string entry) : Prop :=
  match inv !! g with
  | Some (Meta _) | Some (Group None _) => True
  | _ => False
  end.

(** [preserves P m]: if [P] holds before [m], it holds after it, whether
    [m] returns or raises. *)
Definition preserves {A} (P : pstate → Prop) (m : M A) : Prop :=
  ∀ s r s', P s → m s = (r, s') → P s'.

(** The group insertions of one instance, as a loop. *)
Definition add_to_groups (gs : list string) (h : string) : M unit :=
  for_each gs (fun g => EC2Inventory._add_to_group g h).

(** The environment and the public address of an instance that passes the
    two checks of [_process_instance]. *)
Definition accepted (i : instance) : option (string * string) :=
  match EC2Inventory.tags_dict i !! "Environment", PublicIpAddress i with
  | Some environment, Some public_ip =>
      if String.eqb environment "" || String.eqb public_ip "" then None
      else Some (environment, public_ip)
  | _, _ => None
  end.

(** The hostname and the groups [_process_instance] uses for an instance
    of the given environment. *)
Definition instance_hostname (i : instance) (environment : string) : string :=
  EC2Inventory.hostname_of environment (EC2Inventory.tags_dict i).

Definition instance_groups (i : instance) (environment : string) : list string :=
  ["all"; "web_servers"; environment; EC2Inventory.type_group i].

(** The reserved record is in place and every other key is a group with a
    host list: the documents [EC2Inventory] builds. *)
Definition regular (inv : gmap string entry) : Prop :=
  (∃ m, inv !! "_meta" = Some (Meta m)) ∧
  ∀ g, g ≠ "_meta" → ¬ no_hosts g inv.

(** The document has a record for [h]. *)
Definition known_host (h : string) (inv : gmap string entry) : Prop :=
  is_Some (hostvars_of inv !! h).

(** The state directory of an environment. *)
Definition terraform_dir (W : world) (env : string) : string :=
  os_path_join (project_root W) ["terraform"; "environments"; env].

(** [grows h hi s s']: from [s] to [s'] the directory and the trace are
    kept, [hostvars] is unchanged or has gained the record [hi] under [h],
    no host list has gained anything but [h], and the reserved record is
    still in place. *)
Definition grows (h : string) (hi : gmap string pyval) (s s' : pstate) : Prop :=
  cwd s' = cwd s ∧ trace s' = trace s ∧
  (hostvars_of (inventory s') = hostvars_of (inventory s) ∨
   hostvars_of (inventory s') = <[h := hi]> (hostvars_of (inventory s))) ∧
  (∀ g x, x ∈ hosts_of (inventory s') g → x ∈ hosts_of (inventory s) g ∨ x = h) ∧
  ((∃ m, inventory s !! "_meta" = Some (Meta m)) →
   ∃ m, inventory s' !! "_meta" = Some (Meta m)).

(** [steps R m]: every run of [m] relates the state before to the state
    after, whether it returns or raises. *)
Definition steps {A} (R : pstate → pstate → Prop) (m : M A) : Prop :=
  ∀ s r s', m s = (r, s') → R s s'.

(** A record with a non-empty [ansible_host]. *)
Definition has_address (hv : gmap string pyval) : Prop :=
  ∃ p, hv !! "ansible_host" = Some (PStr p) ∧ p ≠ "".

(** Every record of the document has an address. *)
Definition all_addressed (inv : gmap string entry) : Prop :=
  ∀ h hv, hostvars_of inv !! h = Some hv → has_address hv.

(** The environments [generate_inventory] goes through. *)
Definition working_set (specific_env : option string) : list string :=
  if truthy specific_env then [default "" specific_env]
  else TerraformInventory.terraform_environments.

(** The instances the fallback goes through: those of the reply, or none
    when the call raises. *)
Definition fallback_instances (W : world) : list instance :=
  match describe_instances W TerraformInventory.default_region ["running"; "pending"] with
  | Some rs => all_instances rs
  | None => []
  end.

(** The reserved record is in place. *)
Definition meta_ok (inv : gmap string entry) : Prop :=
  ∃ m, inv !! "_meta" = Some (Meta m).


(** No host list holds a hostname twice. *)
Definition nodup_groups (inv : gmap string entry) : Prop :=
  ∀ g, NoDup (hosts_of inv g).

(** An absolute path with one leading slash, and one with two. *)
Definition rooted (p : string) : Prop :=
  ∃ q, p = String "/" q ∧ starts_with_sep q = false.

Definition double_rooted (p : string) : Prop :=
  ∃ q, p = String "/" (String "/" q) ∧ starts_with_sep q = false.

(** Only [/srv/iac] has a [terraform] child. *)
Definition project_tree : world :=
  {| project_root := "/srv/iac";
     path_exists := fun p => String.eqb p "/srv/iac/terraform";
     getcwd_ok := fun _ => true;
     chdir_ok := fun _ => true;
     subprocess_run := fun _ _ => SpawnFailed;
     json_loads := fun _ => None;
     describe_instances := fun _ _ => None |}.

(** What [_run_terraform_command] gives when the process is in directory
    [d]: the value returned, the directory the process is left in, and the
    events of the call. *)
Definition tool_outcome (W : world) (env : string) (command : list string)
    (d : string) : option json_doc * string * list event :=
  let rs := TerraformInventory._run_terraform_command W env command (init_state d) in
  (match fst rs with Ok v => v | Raise _ => None end, cwd (snd rs), trace (snd rs)).

(** The tags of [l] written into [m] one after the other. *)
Definition tags_map (l : list tag) (m : gmap string string) : gmap string string :=
  foldl (fun m t => <[Key t := Value t]> m) m l.

(** Hostname and record [_process_instance] stores for an instance, if it
    takes it. *)
Definition record_of (i : instance) : option (string * gmap string pyval) :=
  match accepted i with
  | Some (e, ip) =>
      Some (instance_hostname i e,
            EC2Inventory.host_vars_of i e ip (EC2Inventory.tags_dict i))
  | None => None
  end.

(** [hostvars] after the instances of [l], each record stored under its
    hostname in turn. *)
Definition store_records (l : list instance)
    (m : gmap string (gmap string pyval)) : gmap string (gmap string pyval) :=
  foldl (fun m i => match record_of i with
                    | Some (h, hv) => <[h := hv]> m
                    | None => m
                    end) m l.

(** The instances [EC2Inventory.generate_inventory] goes through. *)
Definition listed_instances (W : world) (region : string) : list instance :=
  match describe_instances W region ["running"] with
  | Some rs => all_instances rs
  | None => []
  end.

(** The reserved record is in place and every key but [_meta] and [all]
    is a group with a host list. *)
Definition listable (inv : gmap string entry) : Prop :=
  meta_ok inv ∧ ∀ g, g ≠ "_meta" → g ≠ "all" → ¬ no_hosts g inv.

(** Every record of the document satisfies [P]. *)
Definition all_records (P : gmap string pyval → Prop) (inv : gmap string entry) : Prop :=
  ∀ h hv, hostvars_of inv !! h = Some hv → P hv.

(** Records and the [web_servers] list name the same hosts, and every
    listed host has a record. *)
Definition consistent (inv : gmap string entry) : Prop :=
  listable inv ∧
  (∀ h, known_host h inv ↔ h ∈ hosts_of inv "web_servers") ∧
  (∀ g h, h ∈ hosts_of inv g → known_host h inv).

(** No host leaves the [web_servers] list. *)
Definition keeps_web_servers (s s' : pstate) : Prop :=
  ∀ x, x ∈ hosts_of (inventory s) "web_servers" →
       x ∈ hosts_of (inventory s') "web_servers".

(** The record the state of an environment yields when the process is in
    directory [d]: what one round of the loop of [generate_inventory]
    inserts. *)
Definition state_record (W : world) (d env : string) : option (gmap string pyval) :=
  match TerraformInventory._check_terraform_state W env (init_state d) with
  | (Ok true, s1) =>
      match TerraformInventory._get_terraform_outputs W env s1 with
      | (Ok outputs, _) =>
          if TerraformInventory.truthy_dict outputs then
            let host_info :=
              TerraformInventory._extract_host_info_from_terraform env
                (default ∅ outputs) in
            if TerraformInventory.truthy_dict host_info then host_info else None
          else None
      | (Raise _, _) => None
      end
  | _ => None
  end.

(** The hostname [_add_host_to_inventory] gives the host of an
    environment. *)
Definition web_server (env : string) : string := env +:+ "-web-server".

(** The hostnames of the environments of [envs] that yield a record. *)
Definition state_hosts (W : world) (d : string) (envs : list string) : list string :=
  omap (fun env => (fun _ => web_server env) <$> state_record W d env) envs.

(** The [all] group is absent or holds the global variables only. *)
Definition all_vars_only (inv : gmap string entry) : Prop :=
  inv !! "all" = None ∨
  inv !! "all" = Some (Group None (Some TerraformInventory.all_vars)).

(** * Properties *)

(** ** Running a computation *)

Ltac run_monad :=
  unfold ensure_group, bind, ret, raise, try_except, get_inventory,
    put_inventory, has_key;
  simpl.

Section AddToGroup.
Import EC2Inventory.

Lemma add_to_group_cases g h s :
  match inventory s !! g with
  | None =>
      _add_to_group g h s =
        (Ok tt, set_inventory (<[g := Group (Some [h]) None]> (inventory s)) s)
  | Some (Group (Some l) v) =>
      _add_to_group g h s =
        (Ok tt, if bool_decide (h ∈ l) then s
                else set_inventory (<[g := Group (Some (l ++ [h])) v]> (inventory s)) s)
  | Some _ => ∃ e, _add_to_group g h s = (Raise e, s)
  end.
Proof.
  unfold _add_to_group, lookup_hosts, append_host. run_monad.
  destruct (inventory s !! g) as [[m|[l|] v]|] eqn:E; simpl; rewrite ?E; eauto.
  - case_bool_decide; simpl; [done|]. by rewrite E.
  - rewrite !lookup_insert_eq. simpl. rewrite lookup_insert_eq.
    unfold set_inventory. simpl. by rewrite insert_insert_eq.
Qed.

End AddToGroup.

(** ** Invariants of computations *)

Section Preserves.
Context {A B : Type} (P : pstate → Prop).

Lemma preserves_ret (a : A) : preserves P (ret a).
Proof. intros s r s' HP [= _ <-]. done. Qed.

Lemma preserves_raise e : preserves P (raise (A:=A) e).
Proof. intros s r s' HP [= _ <-]. done. Qed.

Lemma preserves_get : preserves P get_inventory.
Proof. intros s r s' HP [= _ <-]. done. Qed.

Lemma preserves_bind (m : M A) (k : A → M B) :
  preserves P m → (∀ a, preserves P (k a)) → preserves P (bind m k).
Proof.
  intros Hm Hk s r s' HP. unfold bind.
  destruct (m s) as [[a|e] s1] eqn:E.
  - intros Hr. eapply Hk; [|exact Hr]. eapply Hm; eauto.
  - intros [= _ <-]. eapply Hm; eauto.
Qed.

Lemma preserves_try (m : M A) (h : exn → M A) :
  preserves P m → (∀ e, preserves P (h e)) → preserves P (try_except m h).
Proof.
  intros Hm Hh s r s' HP. unfold try_except.
  destruct (m s) as [[a|e] s1] eqn:E.
  - intros [= _ <-]. eapply Hm; eauto.
  - intros Hr. eapply Hh; [|exact Hr]. eapply Hm; eauto.
Qed.

Lemma preserves_if (b : bool) (m1 m2 : M A) :
  preserves P m1 → preserves P m2 → preserves P (if b then m1 else m2).
Proof. by destruct b. Qed.

End Preserves.

Lemma preserves_for_each {A} (P : pstate → Prop) (l : list A) (body : A → M unit) :
  (∀ x, x ∈ l → preserves P (body x)) → preserves P (for_each l body).
Proof.
  induction l as [|x l IH]; intros Hb; simpl.
  - apply preserves_ret.
  - apply preserves_bind.
    + apply Hb. left.
    + intros _. apply IH. intros y Hy. apply Hb. by right.
Qed.

(** An invariant of the document alone is kept by a computation that only
    stores documents satisfying it. *)
Lemma preserves_put (I : gmap string entry → Prop) inv :
  I inv → preserves (fun s => I (inventory s)) (put_inventory inv).
Proof. intros HI s r s' _ [= _ <-]. done. Qed.

(** [for_each] of computations that swallow their exceptions returns. *)
Lemma for_each_returns {A} (l : list A) (body : A → M unit) s :
  (∀ x s, fst (body x s) = Ok tt) → fst (for_each l body s) = Ok tt.
Proof.
  intros Hb. revert s. induction l as [|x l IH]; intros s; simpl; [done|].
  unfold bind. specialize (Hb x s). destruct (body x s) as [[[]|e] s1]; [|done].
  apply IH.
Qed.

(** ** Group insertion of the API-backed generator *)

Section EC2Facts.
Import EC2Inventory.

Lemma add_to_group_noop g h s :
  member g h (inventory s) → _add_to_group g h s = (Ok tt, s).
Proof.
  intros (l & v & E & Hin). pose proof (add_to_group_cases g h s) as H.
  rewrite E in H. rewrite H. by rewrite bool_decide_true.
Qed.

Lemma add_to_group_result g h s r s' :
  _add_to_group g h s = (r, s') →
  cwd s' = cwd s ∧ trace s' = trace s ∧
  (∀ g', g' ≠ g → inventory s' !! g' = inventory s !! g') ∧
  match r with
  | Ok _ => member g h (inventory s')
  | Raise _ => s' = s ∧ no_hosts g (inventory s)
  end.
Proof.
  pose proof (add_to_group_cases g h s) as H. unfold no_hosts.
  destruct (inventory s !! g) as [[m|[l|] v]|] eqn:E.
  - destruct H as [e ->]. intros [= <- <-]. done.
  - rewrite H. intros [= <- <-]. case_bool_decide as Hin.
    + repeat split; try done. by exists l, v.
    + simpl. repeat split; try done.
      * intros g' Hg. by rewrite lookup_insert_ne.
      * exists (l ++ [h]), v. rewrite lookup_insert_eq. split; [done|].
        apply elem_of_app. right. by left.
  - destruct H as [e ->]. intros [= <- <-]. done.
  - rewrite H. intros [= <- <-]. simpl. repeat split; try done.
    + intros g' Hg. by rewrite lookup_insert_ne.
    + exists [h], None. rewrite lookup_insert_eq. split; [done|]. by left.
Qed.

Lemma add_to_group_mono g h g' h' :
  preserves (fun s => member g' h' (inventory s)) (_add_to_group g h).
Proof.
  intros s r s' (l & v & E & Hin) Hrun.
  pose proof (add_to_group_cases g h s) as H.
  destruct (decide (g' = g)) as [->|Hne].
  - rewrite E in H. rewrite H in Hrun. injection Hrun as <- <-.
    case_bool_decide; [by exists l, v|]. simpl.
    exists (l ++ [h]), v. rewrite lookup_insert_eq. split; [done|].
    apply elem_of_app. by left.
  - apply add_to_group_result in Hrun as (_ & _ & Hframe & _).
    exists l, v. by rewrite Hframe.
Qed.

Lemma add_to_group_meta g h m :
  preserves (fun s => inventory s !! "_meta" = Some (Meta m)) (_add_to_group g h).
Proof.
  intros s r s' E Hrun.
  pose proof (add_to_group_cases g h s) as H.
  destruct (decide (g = "_meta")) as [->|Hne].
  - rewrite E in H. destruct H as [e H]. rewrite H in Hrun. by injection Hrun as <- <-.
  - apply add_to_group_result in Hrun as (_ & _ & Hframe & _).
    by rewrite Hframe.
Qed.

Lemma add_to_groups_mono gs h g' h' :
  preserves (fun s => member g' h' (inventory s)) (add_to_groups gs h).
Proof. apply preserves_for_each. intros g _. apply add_to_group_mono. Qed.

Lemma add_to_groups_meta gs h m :
  preserves (fun s => inventory s !! "_meta" = Some (Meta m)) (add_to_groups gs h).
Proof. apply preserves_for_each. intros g _. apply add_to_group_meta. Qed.

(** Running the insertions again from the state they ended in changes
    nothing and ends the same way. *)
Lemma add_to_groups_again gs h s r s' :
  add_to_groups gs h s = (r, s') → add_to_groups gs h s' = (r, s').
Proof.
  revert s. induction gs as [|g gs IH]; intros s; unfold add_to_groups; simpl.
  - by intros [= <- <-].
  - unfold bind. destruct (_add_to_group g h s) as [[[]|e] s1] eqn:E.
    + intros Hrest.
      assert (member g h (inventory s')) as Hm.
      { eapply (add_to_groups_mono gs h g h s1); [|exact Hrest].
        by apply add_to_group_result in E as (_ & _ & _ & ?). }
      rewrite (add_to_group_noop _ _ _ Hm). by apply (IH s1).
    + intros [= <- <-].
      pose proof (add_to_group_result _ _ _ _ _ E) as (_ & _ & _ & -> & _).
      by rewrite E.
Qed.

End EC2Facts.

(** ** One instance of the API-backed generator *)

Section ProcessInstance.
Import EC2Inventory.

Lemma process_instance_body_skip i s :
  accepted i = None → _process_instance_body i s = (Ok tt, s).
Proof.
  unfold accepted, _process_instance_body, truthy.
  destruct (tags_dict i !! "Environment") as [environment|]; simpl; [|done].
  destruct (String.eqb environment ""); simpl; [done|].
  destruct (PublicIpAddress i) as [ip|]; simpl; [|done].
  by destruct (String.eqb ip "").
Qed.

Lemma process_instance_body_accepted i environment public_ip s :
  accepted i = Some (environment, public_ip) →
  _process_instance_body i s =
    (set_hostvars (instance_hostname i environment)
       (host_vars_of i environment public_ip (tags_dict i)) >>
     add_to_groups (instance_groups i environment) (instance_hostname i environment)) s.
Proof.
  unfold accepted, _process_instance_body, truthy.
  destruct (tags_dict i !! "Environment") as [e|]; simpl; [|done].
  destruct (PublicIpAddress i) as [ip|]; simpl; [|by destruct (String.eqb e "")].
  destruct (String.eqb e ""); simpl; [done|].
  destruct (String.eqb ip ""); simpl; [done|]. intros [= <- <-].
  unfold add_to_groups, instance_groups, instance_hostname. simpl.
  unfold bind, ret.
  destruct (set_hostvars _ _ s) as [[[]|?] s0]; [|done].
  destruct (_add_to_group "all" _ s0) as [[[]|?] s1]; [|done].
  destruct (_add_to_group "web_servers" _ s1) as [[[]|?] s2]; [|done].
  destruct (_add_to_group e _ s2) as [[[]|?] s3]; [|done].
  by destruct (_add_to_group (type_group i) _ s3) as [[[]|?] s4].
Qed.

Lemma set_hostvars_cases h hv s :
  match inventory s !! "_meta" with
  | Some (Meta m) =>
      set_hostvars h hv s =
        (Ok tt, set_inventory (<["_meta" := Meta (<[h := hv]> m)]> (inventory s)) s)
  | _ => ∃ e, set_hostvars h hv s = (Raise e, s)
  end.
Proof.
  unfold set_hostvars. run_monad.
  destruct (inventory s !! "_meta") as [[m|l v]|]; eauto.
Qed.

Lemma set_inventory_same s : set_inventory (inventory s) s = s.
Proof. by destruct s. Qed.

Lemma set_hostvars_noop h hv m s :
  inventory s !! "_meta" = Some (Meta m) → m !! h = Some hv →
  set_hostvars h hv s = (Ok tt, s).
Proof.
  intros E Hm. pose proof (set_hostvars_cases h hv s) as H. rewrite E in H.
  rewrite H. rewrite (insert_id m) by done. rewrite insert_id by done.
  by rewrite set_inventory_same.
Qed.

Lemma process_instance_returns i s : fst (_process_instance i s) = Ok tt.
Proof.
  unfold _process_instance, try_except.
  by destruct (_process_instance_body i s) as [[[]|e] s'].
Qed.

Lemma process_instance_again i s :
  _process_instance i (snd (_process_instance i s)) = _process_instance i s.
Proof.
  destruct (accepted i) as [[environment ip]|] eqn:Hacc.
  2: { unfold _process_instance, try_except.
       rewrite !process_instance_body_skip by done. simpl.
       by rewrite ?process_instance_body_skip. }
  unfold _process_instance, try_except.
  rewrite (process_instance_body_accepted _ _ _ s Hacc).
  set (h := instance_hostname i environment).
  set (hv := host_vars_of i environment ip (tags_dict i)).
  unfold bind, ret.
  pose proof (set_hostvars_cases h hv s) as Hset.
  destruct (inventory s !! "_meta") as [[m|? ?]|] eqn:E.
  - rewrite Hset.
    set (s0 := set_inventory _ s).
    destruct (add_to_groups _ h s0) as [r s'] eqn:Hadd.
    assert (inventory s' !! "_meta" = Some (Meta (<[h := hv]> m))) as Hmeta.
    { eapply (add_to_groups_meta _ _ _ s0); [|exact Hadd].
      subst s0. simpl. by rewrite lookup_insert_eq. }
    assert (_process_instance_body i s' = (r, s')) as Hbody.
    { rewrite (process_instance_body_accepted _ _ _ s' Hacc). unfold bind.
      fold h hv. rewrite (set_hostvars_noop h hv _ s' Hmeta)
        by apply lookup_insert_eq.
      by apply add_to_groups_again in Hadd. }
    destruct r as [[]|e]; simpl; by rewrite Hbody.
  - destruct Hset as [e ->]. simpl.
    rewrite (process_instance_body_accepted _ _ _ s Hacc). unfold bind.
    fold h hv. pose proof (set_hostvars_cases h hv s) as Hset.
    rewrite E in Hset. by destruct Hset as [e' ->].
  - destruct Hset as [e ->]. simpl.
    rewrite (process_instance_body_accepted _ _ _ s Hacc). unfold bind.
    fold h hv. pose proof (set_hostvars_cases h hv s) as Hset.
    rewrite E in Hset. by destruct Hset as [e' ->].
Qed.

End ProcessInstance.

(** ** Documents built by the API-backed generator *)

Section Regular.
Import EC2Inventory.

Lemma regular_init : regular init_inventory.
Proof.
  split; [by eexists|]. intros g Hg. unfold no_hosts, init_inventory.
  rewrite lookup_singleton_ne by done. tauto.
Qed.

Lemma set_hostvars_result h hv s r s' :
  set_hostvars h hv s = (r, s') →
  cwd s' = cwd s ∧ trace s' = trace s ∧
  (∀ g, g ≠ "_meta" → inventory s' !! g = inventory s !! g) ∧
  match r with
  | Ok _ => ∃ m, inventory s !! "_meta" = Some (Meta m) ∧
                 inventory s' !! "_meta" = Some (Meta (<[h := hv]> m))
  | Raise _ => s' = s ∧ ∀ m, inventory s !! "_meta" ≠ Some (Meta m)
  end.
Proof.
  pose proof (set_hostvars_cases h hv s) as H.
  destruct (inventory s !! "_meta") as [[m|? ?]|] eqn:E.
  - rewrite H. intros [= <- <-]. simpl. repeat split; try done.
    + intros g Hg. by rewrite lookup_insert_ne.
    + exists m. by rewrite lookup_insert_eq.
  - destruct H as [e ->]. intros [= <- <-]. done.
  - destruct H as [e ->]. intros [= <- <-]. done.
Qed.

Lemma set_hostvars_regular h hv :
  preserves (fun s => regular (inventory s)) (set_hostvars h hv).
Proof.
  intros s r s' Hall Hrun. pose proof Hall as [[m Hm] Hreg].
  apply set_hostvars_result in Hrun as (_ & _ & Hframe & Hr).
  destruct r as [[]|e].
  - destruct Hr as (m' & _ & Hm'). split; [eauto|].
    intros g Hg. unfold no_hosts. rewrite Hframe by done. by apply Hreg.
  - by destruct Hr as [-> _].
Qed.

Lemma add_to_group_regular g h :
  preserves (fun s => regular (inventory s)) (_add_to_group g h).
Proof.
  intros s r s' Hall Hrun. pose proof Hall as [[m Hm] Hreg]. split.
  - exists m. by eapply (add_to_group_meta g h m s).
  - intros g' Hg'. unfold no_hosts.
    pose proof (add_to_group_result _ _ _ _ _ Hrun) as (_ & _ & Hframe & Hr).
    destruct (decide (g' = g)) as [->|Hne].
    + destruct r as [[]|e].
      * destruct Hr as (l & v & -> & _). tauto.
      * destruct Hr as [-> _]. by apply Hreg.
    + rewrite Hframe by done. by apply Hreg.
Qed.

Lemma add_to_group_regular_ok g h s :
  regular (inventory s) → g ≠ "_meta" → fst (_add_to_group g h s) = Ok tt.
Proof.
  intros [_ Hreg] Hg. destruct (_add_to_group g h s) as [[[]|e] s'] eqn:E; [done|].
  apply add_to_group_result in E as (_ & _ & _ & _ & Hno). by apply Hreg in Hno.
Qed.

Lemma set_hostvars_known h hv h' :
  preserves (fun s => known_host h' (inventory s)) (set_hostvars h hv).
Proof.
  intros s r s' Hk Hrun. unfold known_host, hostvars_of in *.
  apply set_hostvars_result in Hrun as (_ & _ & _ & Hr).
  destruct r as [[]|e].
  - destruct Hr as (m & Hm & ->). rewrite Hm in Hk.
    rewrite lookup_insert. case_decide; [by eexists|done].
  - by destruct Hr as [-> _].
Qed.

Lemma add_to_group_known g h h' :
  preserves (fun s => known_host h' (inventory s)) (_add_to_group g h).
Proof.
  intros s r s' Hk Hrun. unfold known_host, hostvars_of in *.
  destruct (inventory s !! "_meta") as [[m|? ?]|] eqn:E;
    try (by destruct Hk as [? Hk]; rewrite lookup_empty in Hk).
  by rewrite (add_to_group_meta g h m s r s' E Hrun).
Qed.

Lemma add_to_groups_ok gs h s s' :
  add_to_groups gs h s = (Ok tt, s') → ∀ g, g ∈ gs → member g h (inventory s').
Proof.
  revert s. induction gs as [|g0 gs IH]; intros s Hrun g Hg.
  - by apply elem_of_nil in Hg.
  - unfold add_to_groups in Hrun. simpl in Hrun. unfold bind in Hrun.
    destruct (_add_to_group g0 h s) as [[[]|e] s1] eqn:E; [|done].
    apply elem_of_cons in Hg as [->|Hg].
    + eapply (add_to_groups_mono gs h g0 h s1); [|exact Hrun].
      by apply add_to_group_result in E as (_ & _ & _ & ?).
    + by apply (IH s1).
Qed.

Lemma type_group_not_meta i : type_group i ≠ "_meta".
Proof. unfold type_group. simpl. discriminate. Qed.

Lemma process_instance_regular i :
  preserves (fun s => regular (inventory s)) (_process_instance i).
Proof.
  apply preserves_try; [|intros; apply preserves_ret].
  unfold _process_instance_body.
  repeat first
    [ apply set_hostvars_regular | apply add_to_group_regular
    | apply preserves_if | apply preserves_ret | apply preserves_bind; [|intros _] ].
Qed.

Lemma process_instance_known i h :
  preserves (fun s => known_host h (inventory s)) (_process_instance i).
Proof.
  apply preserves_try; [|intros; apply preserves_ret].
  unfold _process_instance_body.
  repeat first
    [ apply set_hostvars_known | apply add_to_group_known
    | apply preserves_if | apply preserves_ret | apply preserves_bind; [|intros _] ].
Qed.

Lemma process_instance_mono i g h :
  preserves (fun s => member g h (inventory s)) (_process_instance i).
Proof.
  apply preserves_try; [|intros; apply preserves_ret].
  unfold _process_instance_body.
  repeat first
    [ apply add_to_group_mono
    | apply preserves_if | apply preserves_ret | apply preserves_bind; [|intros _] ].
  intros s r s' (l & v & E & Hin) Hrun.
  apply set_hostvars_result in Hrun as (_ & _ & Hframe & Hr).
  exists l, v. split; [|done].
  destruct (decide (g = "_meta")) as [->|Hne]; [|by rewrite Hframe].
  destruct r as [[]|e]; [|by destruct Hr as [-> _]].
  destruct Hr as (m & Hm & _). congruence.
Qed.

End Regular.

Section Inserts.
Import EC2Inventory.

Lemma add_to_group_step g h s :
  regular (inventory s) → g ≠ "_meta" →
  ∃ s', _add_to_group g h s = (Ok tt, s') ∧ regular (inventory s') ∧
        member g h (inventory s') ∧
        (∀ g' h', member g' h' (inventory s) → member g' h' (inventory s')) ∧
        (∀ h', known_host h' (inventory s) → known_host h' (inventory s')).
Proof.
  intros Hreg Hg. pose proof (add_to_group_regular_ok g h s Hreg Hg) as Hok.
  destruct (_add_to_group g h s) as [r s'] eqn:E. simpl in Hok. subst r.
  exists s'. split; [done|]. split; [by eapply add_to_group_regular|].
  split; [by apply add_to_group_result in E as (_ & _ & _ & ?)|]. split.
  - intros g' h' Hm. by eapply add_to_group_mono.
  - intros h' Hk. by eapply add_to_group_known.
Qed.

Lemma process_instance_inserts i e ip s :
  regular (inventory s) → accepted i = Some (e, ip) →
  let h := instance_hostname i e in
  let inv' := inventory (snd (_process_instance i s)) in
  known_host h inv' ∧ member "all" h inv' ∧ member "web_servers" h inv' ∧
  (e ≠ "_meta" → member e h inv' ∧ member (type_group i) h inv').
Proof.
  intros Hreg Hacc h. unfold _process_instance, try_except.
  rewrite (process_instance_body_accepted _ _ _ s Hacc). fold h.
  set (hv := host_vars_of i e ip (tags_dict i)).
  unfold bind, add_to_groups, instance_groups. simpl. unfold bind, ret.
  pose proof (set_hostvars_cases h hv s) as Hset.
  pose proof Hreg as [[m Hm] _]. rewrite Hm in Hset. rewrite Hset.
  set (s0 := set_inventory _ s).
  assert (regular (inventory s0)) as Hreg0.
  { eapply (set_hostvars_regular h hv s); [done|exact Hset]. }
  assert (known_host h (inventory s0)) as Hk0.
  { unfold known_host, hostvars_of, s0. simpl. rewrite lookup_insert_eq.
    rewrite lookup_insert_eq. by eexists. }
  destruct (add_to_group_step "all" h s0 Hreg0) as (s1 & -> & Hreg1 & Ha1 & Hm1 & Hk1);
    [done|].
  destruct (add_to_group_step "web_servers" h s1 Hreg1)
    as (s2 & -> & Hreg2 & Ha2 & Hm2 & Hk2); [done|].
  destruct (decide (e = "_meta")) as [->|Hne].
  - pose proof Hreg2 as [[m2 Hmeta2] _].
    pose proof (add_to_group_cases "_meta" h s2) as Hc. rewrite Hmeta2 in Hc.
    destruct Hc as [x ->]. simpl. repeat split; auto; done.
  - destruct (add_to_group_step e h s2 Hreg2 Hne)
      as (s3 & -> & Hreg3 & Ha3 & Hm3 & Hk3).
    destruct (add_to_group_step (type_group i) h s3 Hreg3 (type_group_not_meta i))
      as (s4 & -> & Hreg4 & Ha4 & Hm4 & Hk4).
    simpl. repeat split; auto.
Qed.

Lemma for_each_process_inserts l s i e ip :
  regular (inventory s) → i ∈ l → accepted i = Some (e, ip) →
  let h := instance_hostname i e in
  let inv' := inventory (snd (for_each l _process_instance s)) in
  known_host h inv' ∧ member "all" h inv' ∧ member "web_servers" h inv' ∧
  (e ≠ "_meta" → member e h inv' ∧ member (type_group i) h inv').
Proof.
  intros Hreg Hin Hacc h. revert s Hreg.
  induction l as [|j l IH]; intros s Hreg; [by apply elem_of_nil in Hin|].
  simpl. unfold bind.
  pose proof (process_instance_returns j s) as Hret.
  destruct (_process_instance j s) as [r s1] eqn:Ej. simpl in Hret. subst r.
  assert (regular (inventory s1)) as Hreg1
    by (by eapply (process_instance_regular j s)).
  apply elem_of_cons in Hin as [->|Hl]; [|by apply IH].
  pose proof (process_instance_inserts j e ip s Hreg Hacc) as Hins.
  rewrite Ej in Hins. simpl in Hins. fold h in Hins.
  destruct (for_each l _process_instance s1) as [r s'] eqn:Erest. simpl.
  assert (∀ g, member g h (inventory s1) → member g h (inventory s')) as Hmono.
  { intros g Hg.
    exact (preserves_for_each (fun s => member g h (inventory s)) l _process_instance
             (fun x _ => process_instance_mono x g h) s1 r s' Hg Erest). }
  destruct Hins as (Hk & Ha & Hw & Hrest). repeat split; auto.
  - exact (preserves_for_each (fun s => known_host h (inventory s)) l _process_instance
             (fun x _ => process_instance_known x h) s1 r s' Hk Erest).
  - apply Hmono. by apply Hrest.
  - apply Hmono. by apply Hrest.
Qed.

End Inserts.

Section EC2Generate.
Import EC2Inventory.

(** [generate_inventory] never raises: it returns the document as it was
    when the API call raises, and the document after every instance has
    been processed otherwise. *)
Lemma ec2_generate_run W region s :
  let s0 := record (DescribeInstances region ["running"]) s in
  generate_inventory W region s =
  match describe_instances W region ["running"] with
  | None => (Ok (inventory s), s0)
  | Some rs =>
      let s' := snd (for_each (all_instances rs) _process_instance s0) in
      (Ok (inventory s'), s')
  end.
Proof.
  intros s0. unfold generate_inventory, try_except, bind, ec2_describe. fold s0.
  destruct (describe_instances W region ["running"]) as [rs|]; [|done].
  pose proof (for_each_returns (all_instances rs) _process_instance s0
                (fun x s => process_instance_returns x s)) as Hret.
  destruct (for_each (all_instances rs) _process_instance s0) as [r s'] eqn:E.
  simpl in Hret. by subst r.
Qed.

End EC2Generate.

(** * The API-backed generator: claims *)

Section EC2Claims.
Import EC2Inventory.

Lemma str_replace_get old new t n :
  String.get n (str_replace old new t) =
  (fun c => if Ascii.eqb c old then new else c) <$> String.get n t.
Proof.
  revert n. induction t as [|c t IH]; intros n; simpl; [done|].
  destruct n as [|n]; simpl; [done|]. apply IH.
Qed.

(** C7.  Group insertion is idempotent.  Adding a hostname that a group's
    host list already holds changes nothing; adding the same hostname a
    second time changes nothing; and processing an instance a second time
    leaves the whole state, so every group list, as the first time left
    it. *)
Theorem add_to_group_idempotent :
  (∀ g h s, member g h (inventory s) → _add_to_group g h s = (Ok tt, s)) ∧
  (∀ g h s, snd (_add_to_group g h (snd (_add_to_group g h s))) =
            snd (_add_to_group g h s)) ∧
  (∀ i s, _process_instance i (snd (_process_instance i s)) =
          _process_instance i s) ∧
  (∀ i s g,
     hosts_of (inventory (snd (_process_instance i (snd (_process_instance i s))))) g =
     hosts_of (inventory (snd (_process_instance i s))) g).
Proof.
  split; [exact add_to_group_noop|]. split; [|split].
  - intros g h s. destruct (_add_to_group g h s) as [[[]|e] s'] eqn:E; simpl.
    + apply add_to_group_result in E as (_ & _ & _ & Hm).
      by rewrite (add_to_group_noop _ _ _ Hm).
    + pose proof (add_to_group_result _ _ _ _ _ E) as (_ & _ & _ & -> & _).
      by rewrite E.
  - exact process_instance_again.
  - intros i s g. by rewrite process_instance_again.
Qed.

(** C9.  The instance-type group of an instance of type [t] is named
    [type_] followed by [t] with every [.] turned into [_] and every other
    character kept; [t3.micro] gives [type_t3_micro]; and an instance whose
    processing completes is a member of that group. *)
Theorem type_group_name (i : instance) (t : string) :
  InstanceType i = Some t →
  type_group i = "type_" +:+ str_replace "." "_" t ∧
  (∀ n, String.get n (str_replace "." "_" t) =
        (fun c => if Ascii.eqb c "." then "_"%char else c) <$> String.get n t) ∧
  (t = "t3.micro" → type_group i = "type_t3_micro") ∧
  (∀ e ip s, accepted i = Some (e, ip) →
     fst (_process_instance_body i s) = Ok tt →
     member (type_group i) (instance_hostname i e)
       (inventory (snd (_process_instance i s)))).
Proof.
  intros Ht. unfold type_group. rewrite Ht. simpl. split; [done|].
  split; [intros n; apply str_replace_get|]. split; [by intros ->|].
  intros e ip s Hacc Hok. unfold _process_instance, try_except.
  rewrite (process_instance_body_accepted _ _ _ s Hacc) in Hok |- *.
  unfold bind in Hok |- *.
  destruct (set_hostvars _ _ s) as [[[]|x] s0]; [|done].
  destruct (add_to_groups _ _ s0) as [r s'] eqn:Hadd. simpl in Hok. subst r.
  simpl. pose proof (add_to_groups_ok _ _ _ _ Hadd (type_group i)) as Hm.
  unfold type_group in Hm. rewrite Ht in Hm. apply Hm.
  unfold instance_groups. rewrite !elem_of_cons. unfold type_group.
  rewrite Ht. auto.
Qed.

Lemma type_group_name_witness :
  let i := Samples.web "dev" (Some "203.0.113.7") (Some "t3.micro") in
  type_group i = "type_t3_micro" ∧
  member "type_t3_micro" "dev-unknown"
    (inventory (snd (_process_instance i (init_state "/")))).
Proof.
  pose proof (type_group_name
    (Samples.web "dev" (Some "203.0.113.7") (Some "t3.micro")) "t3.micro" eq_refl)
    as (_ & _ & Hname & Hin).
  split; [by apply Hname|].
  exact (Hin "dev" "203.0.113.7" (init_state "/") eq_refl eq_refl).
Defined.

(** C6 as the code has it.  The generator never raises.  When the API call
    raises, it returns the document as it was.  Otherwise every instance of
    the reply is processed in turn, an exception of one being swallowed:
    on a document of the generator, each instance with an environment tag
    and a public address (one whose processing raises included) has its
    record in [hostvars] and its hostname in [all] and [web_servers], and
    also in its environment and type groups unless the environment is the
    reserved key [_meta], the one case that raises. *)
Theorem generate_inventory_failures (W : world) (region : string) (s : pstate) :
  let s0 := record (DescribeInstances region ["running"]) s in
  match describe_instances W region ["running"] with
  | None => generate_inventory W region s = (Ok (inventory s), s0)
  | Some rs =>
      let s' := snd (for_each (all_instances rs) _process_instance s0) in
      generate_inventory W region s = (Ok (inventory s'), s') ∧
      (regular (inventory s) →
       ∀ i e ip, i ∈ all_instances rs → accepted i = Some (e, ip) →
         let h := instance_hostname i e in
         known_host h (inventory s') ∧
         member "all" h (inventory s') ∧
         member "web_servers" h (inventory s') ∧
         (e ≠ "_meta" →
          member e h (inventory s') ∧ member (type_group i) h (inventory s')))
  end.
Proof.
  intros s0. pose proof (ec2_generate_run W region s) as Hrun. simpl in Hrun.
  fold s0 in Hrun.
  destruct (describe_instances W region ["running"]) as [rs|]; [|done].
  simpl. split; [done|].
  intros Hreg i e ip Hin Hacc.
  exact (for_each_process_inserts (all_instances rs) s0 i e ip Hreg Hin Hacc).
Qed.

(** C6, counterexample.  An instance tagged with the environment [_meta]
    raises while it is processed, and is not skipped: its record and its
    hostname are in the returned document. *)
Lemma failing_instance_not_skipped :
  let i := Samples.web "_meta" (Some "203.0.113.7") (Some "t3.micro") in
  let s := init_state "/" in
  fst (_process_instance_body i s) = Raise (KeyError "hosts") ∧
  inventory (snd (_process_instance i s)) ≠ inventory s ∧
  ∃ inv s',
    generate_inventory (Samples.api_only [i]) "ap-southeast-1" s = (Ok inv, s') ∧
    known_host "_meta-unknown" inv ∧
    hosts_of inv "all" = ["_meta-unknown"] ∧
    hosts_of inv "web_servers" = ["_meta-unknown"].
Proof.
  split; [by vm_compute|]. split.
  - intros H. apply (f_equal (fun inv => hosts_of inv "all")) in H.
    vm_compute in H. discriminate.
  - eexists _, _. split; [reflexivity|]. split; [|split; by vm_compute].
    vm_compute. by eexists.
Qed.

End EC2Claims.

(** * The state-backed generator *)

(** ** Invoking the tool *)

Section RunTerraform.
Import TerraformInventory.
Variable W : world.

Lemma api_calls_record_run t d c :
  api_calls (t ++ [SubprocessRun d c]) = api_calls t.
Proof. unfold api_calls. rewrite omap_app. simpl. by rewrite app_nil_r. Qed.

Lemma run_terraform_command_frame env command s :
  let rs := _run_terraform_command W env command s in
  (∃ v, fst rs = Ok v) ∧
  inventory (snd rs) = inventory s ∧
  api_calls (trace (snd rs)) = api_calls (trace s) ∧
  (cwd (snd rs) = cwd s ∨
   (chdir_ok W (cwd s) = false ∧ cwd (snd rs) = terraform_dir W env)).
Proof.
  unfold _run_terraform_command, terraform_dir.
  set (dir := os_path_join _ _).
  unfold os_getcwd, os_chdir, run, loads, try_except, bind, ret, raise.
  destruct (path_exists W dir); simpl; [|by eauto 10].
  destruct (getcwd_ok W (cwd s)); simpl; [|by eauto 10].
  destruct (chdir_ok W (cwd s)) eqn:Hback;
    destruct (chdir_ok W dir) eqn:Hdir; simpl; rewrite ?Hback; simpl;
    try (by eauto 10);
    (destruct (subprocess_run W dir command) as [|rc out]; simpl;
     rewrite ?Hback; simpl; rewrite ?api_calls_record_run;
     [by eauto 10|]);
    (destruct (rc =? 0)%Z; simpl; rewrite ?Hback; simpl;
     rewrite ?api_calls_record_run; [|by eauto 10]);
    try (by eauto 10);
    (destruct (String.eqb out ""); simpl; rewrite ?Hback; simpl;
     rewrite ?api_calls_record_run; [by eauto 10|]);
    destruct (json_loads W out); simpl; rewrite ?Hback; simpl;
    rewrite ?api_calls_record_run; by eauto 10.
Qed.

End RunTerraform.

(** ** How a host insertion changes the document *)

Section Steps.
Context (R : pstate → pstate → Prop) `{!Reflexive R} `{!Transitive R}.

Lemma steps_ret {A} (a : A) : steps R (ret a).
Proof. intros s r s' [= _ <-]. reflexivity. Qed.

Lemma steps_raise {A} e : steps R (raise (A:=A) e).
Proof. intros s r s' [= _ <-]. reflexivity. Qed.

Lemma steps_get : steps R get_inventory.
Proof. intros s r s' [= _ <-]. reflexivity. Qed.

Lemma steps_bind {A B} (m : M A) (k : A → M B) :
  steps R m → (∀ a, steps R (k a)) → steps R (bind m k).
Proof.
  intros Hm Hk s r s'. unfold bind.
  destruct (m s) as [[a|e] s1] eqn:E.
  - intros Hr. transitivity s1; [by eapply Hm|by eapply Hk].
  - intros [= _ <-]. by eapply Hm.
Qed.

Lemma steps_try {A} (m : M A) (h : exn → M A) :
  steps R m → (∀ e, steps R (h e)) → steps R (try_except m h).
Proof.
  intros Hm Hh s r s'. unfold try_except.
  destruct (m s) as [[a|e] s1] eqn:E.
  - intros [= _ <-]. by eapply Hm.
  - intros Hr. transitivity s1; [by eapply Hm|by eapply Hh].
Qed.

Lemma steps_if {A} (b : bool) (m1 m2 : M A) :
  steps R m1 → steps R m2 → steps R (if b then m1 else m2).
Proof. by destruct b. Qed.

Lemma steps_for_each {A} (l : list A) (body : A → M unit) :
  (∀ x, x ∈ l → steps R (body x)) → steps R (for_each l body).
Proof.
  induction l as [|x l IH]; intros Hb; simpl.
  - apply steps_ret.
  - apply steps_bind.
    + apply Hb. left.
    + intros _. apply IH. intros y Hy. apply Hb. by right.
Qed.

End Steps.

Section Grows.
Variables (h : string) (hi : gmap string pyval).

#[global] Instance grows_refl : Reflexive (grows h hi).
Proof. intros s. unfold grows. naive_solver. Qed.

#[global] Instance grows_trans : Transitive (grows h hi).
Proof.
  intros s1 s2 s3 (Hc1 & Ht1 & Hv1 & Hh1 & Hm1) (Hc2 & Ht2 & Hv2 & Hh2 & Hm2).
  split; [congruence|]. split; [congruence|]. split; [|split].
  - destruct Hv1 as [E1|E1], Hv2 as [E2|E2]; rewrite E2, E1; auto.
    right. by rewrite insert_insert_eq.
  - intros g x Hx. apply Hh2 in Hx as [Hx| ->]; [|by right]. by apply Hh1.
  - auto.
Qed.

Lemma hostvars_of_insert_group inv k ho v :
  (inv !! k = None ∨ ∃ ho' v', inv !! k = Some (Group ho' v')) →
  hostvars_of (<[k := Group ho v]> inv) = hostvars_of inv.
Proof.
  intros Hk. unfold hostvars_of. destruct (decide (k = "_meta")) as [->|Hne].
  - rewrite lookup_insert_eq. by destruct Hk as [->|(? & ? & ->)].
  - by rewrite lookup_insert_ne.
Qed.

Lemma hosts_of_insert inv k e g :
  hosts_of (<[k := e]> inv) g =
  if decide (k = g) then hosts_of {[k := e]} k else hosts_of inv g.
Proof.
  unfold hosts_of. case_decide as Hk.
  - subst. by rewrite lookup_insert_eq, lookup_singleton_eq.
  - by rewrite lookup_insert_ne.
Qed.

Lemma set_hostvars_grows : steps (grows h hi) (set_hostvars h hi).
Proof.
  intros s r s' Hrun.
  apply set_hostvars_result in Hrun as (Hc & Ht & Hframe & Hr).
  destruct r as [[]|e]; [|destruct Hr as [-> _]; reflexivity].
  destruct Hr as (m & Hm & Hm'). split; [done|]. split; [done|].
  split; [|split].
  - right. unfold hostvars_of. by rewrite Hm, Hm'.
  - intros g x. unfold hosts_of. destruct (decide (g = "_meta")) as [->|Hne].
    + rewrite Hm'. by intros ?%elem_of_nil.
    + rewrite Hframe by done. auto.
  - eauto.
Qed.

Lemma ensure_group_grows k ho v :
  default [] ho = [] → steps (grows h hi) (ensure_group k (Group ho v)).
Proof.
  intros Hho s r s'. unfold ensure_group. run_monad.
  destruct (inventory s !! k) as [e|] eqn:E; intros [= _ <-]; [reflexivity|].
  split; [done|]. split; [done|]. simpl. split; [|split].
  - left. apply hostvars_of_insert_group. by left.
  - intros g x. rewrite hosts_of_insert. case_decide; [|auto].
    unfold hosts_of. rewrite lookup_singleton_eq.
    destruct ho as [l|]; simpl in *; subst; by intros ?%elem_of_nil.
  - intros [m Hm]. exists m. rewrite lookup_insert_ne; [done|congruence].
Qed.

Lemma append_host_grows g : steps (grows h hi) (append_host g h).
Proof.
  intros s r s'. unfold append_host. run_monad.
  destruct (inventory s !! g) as [[m|[l|] v]|] eqn:E; intros [= _ <-];
    try reflexivity.
  split; [done|]. split; [done|]. simpl. split; [|split].
  - left. apply hostvars_of_insert_group. eauto.
  - intros g' x. rewrite hosts_of_insert. case_decide as Hg; [|auto]. subst g'.
    unfold hosts_of at 1 2. rewrite lookup_singleton_eq, E.
    rewrite elem_of_app, list_elem_of_singleton. auto.
  - intros [m Hm]. exists m. rewrite lookup_insert_ne; [done|congruence].
Qed.

Lemma lookup_hosts_grows g : steps (grows h hi) (lookup_hosts g).
Proof.
  intros s r s'. unfold lookup_hosts. run_monad.
  destruct (inventory s !! g) as [[m|[l|] v]|]; intros [= _ <-]; reflexivity.
Qed.

End Grows.

(** ** Extraction of host facts *)

Section Extract.
Import TerraformInventory.

Lemma truthy_Some o : truthy o = true → ∃ p, o = Some p ∧ p ≠ "".
Proof.
  destruct o as [p|]; simpl; [|done]. intros H. exists p. split; [done|].
  intros ->. done.
Qed.

Lemma extract_terraform_Some env outputs hi :
  _extract_host_info_from_terraform env outputs = Some hi →
  has_address hi ∧ hi !! "environment" = Some (PStr env) ∧ hi ≠ ∅ ∧
  ∃ p, output_value outputs "public_ip" = Ok (Some p) ∧ p ≠ "".
Proof.
  unfold _extract_host_info_from_terraform.
  destruct (output_value outputs "public_ip") as [public_ip|]; [|done].
  destruct (output_value outputs "private_ip") as [private_ip|]; [|done].
  destruct (output_value outputs "instance_id") as [instance_id|]; [|done].
  destruct (output_value outputs "key_name") as [key_name|]; [|done].
  destruct (truthy public_ip) eqn:Hp; simpl; [|done].
  apply truthy_Some in Hp as (p & -> & Hp). intros [= <-].
  split; [by exists p|]. split; [done|]. split; [|by exists p].
  intros H. apply (f_equal (fun m => m !! "ansible_user")) in H. done.
Qed.

Lemma extract_terraform_None env outputs :
  (∀ p, output_value outputs "public_ip" = Ok (Some p) → p = "") →
  _extract_host_info_from_terraform env outputs = None.
Proof.
  intros Hno. destruct (_extract_host_info_from_terraform env outputs) as [hi|] eqn:E;
    [|done].
  apply extract_terraform_Some in E as (_ & _ & _ & p & Hp & Hne).
  by apply Hno in Hp.
Qed.

Lemma extract_ec2_Some i hi :
  _extract_host_info_from_ec2 i = Some hi →
  has_address hi ∧ hi ≠ ∅ ∧
  (∃ e, env_tag i = Some e ∧ e ≠ "" ∧ hi !! "environment" = Some (PStr e)) ∧
  truthy (PublicIpAddress i) = true.
Proof.
  unfold _extract_host_info_from_ec2.
  destruct (truthy (env_tag i)) eqn:He; simpl; [|done].
  destruct (truthy (PublicIpAddress i)) eqn:Hp; simpl; [|done].
  apply truthy_Some in He as (e & -> & He).
  apply truthy_Some in Hp as (p & -> & Hp). intros [= <-].
  split; [by exists p|]. split; [|split; [by exists e|done]].
  intros H. apply (f_equal (fun m => m !! "ansible_user")) in H. done.
Qed.

Lemma extract_ec2_None i :
  truthy (PublicIpAddress i) = false → _extract_host_info_from_ec2 i = None.
Proof.
  intros Hp. unfold _extract_host_info_from_ec2. rewrite Hp.
  by destruct (truthy (env_tag i)).
Qed.

Lemma add_host_grows env hi :
  steps (grows (env +:+ "-web-server") hi) (_add_host_to_inventory env hi).
Proof.
  unfold _add_host_to_inventory.
  repeat first
    [ apply set_hostvars_grows | apply ensure_group_grows; done
    | apply append_host_grows
    | apply steps_bind; try apply _; [|intros _] ].
Qed.

Lemma grows_all_addressed h hi s s' :
  has_address hi → grows h hi s s' →
  all_addressed (inventory s) → all_addressed (inventory s').
Proof.
  intros Hhi (_ & _ & [E|E] & _) Hall h' hv; rewrite E; [by apply Hall|].
  rewrite lookup_insert. case_decide; [|by apply Hall].
  by intros [= <-].
Qed.

End Extract.

(** ** The loop over the environments *)

Section Loop.
Import TerraformInventory.
Variable W : world.

Lemma check_state_frame env s :
  let rs := _check_terraform_state W env s in
  (∃ b, fst rs = Ok b) ∧ inventory (snd rs) = inventory s ∧
  api_calls (trace (snd rs)) = api_calls (trace s).
Proof.
  unfold _check_terraform_state, bind, ret.
  pose proof (run_terraform_command_frame W env ["terraform"; "show"; "-json"] s)
    as ([v Hv] & Hi & Ht & _).
  destruct (_run_terraform_command W env _ s) as [r s']. simpl in *. subst r.
  eauto.
Qed.

Lemma env_step_spec env k s :
  let rs := env_step W env k s in
  api_calls (trace (snd rs)) = api_calls (trace s) ∧
  ((fst rs = Ok k ∧ inventory (snd rs) = inventory s) ∨
   ∃ outputs hi s2 r,
     inventory s2 = inventory s ∧
     fst (_get_terraform_outputs W env (snd (_check_terraform_state W env s))) =
       Ok (Some outputs) ∧
     _extract_host_info_from_terraform env outputs = Some hi ∧
     _add_host_to_inventory env hi s2 = (r, snd rs) ∧
     fst rs = match r with Ok _ => Ok (S k) | Raise e => Raise e end).
Proof.
  unfold env_step, bind, ret.
  pose proof (check_state_frame env s) as ([b Hb] & Hi1 & Ht1).
  destruct (_check_terraform_state W env s) as [r1 s1]. simpl in *. subst r1.
  destruct b; [|by auto].
  pose proof (run_terraform_command_frame W env ["terraform"; "output"; "-json"] s1)
    as ([v Hv] & Hi2 & Ht2 & _).
  unfold _get_terraform_outputs.
  destruct (_run_terraform_command W env _ s1) as [r2 s2] eqn:Hout.
  simpl in *. subst r2.
  destruct v as [outputs|]; simpl; [|split; [congruence|left; split; congruence]].
  case_bool_decide; simpl; [|split; [congruence|left; split; congruence]].
  destruct (_extract_host_info_from_terraform env outputs) as [hi|] eqn:Hx; simpl;
    [|split; [congruence|left; split; congruence]].
  pose proof (extract_terraform_Some _ _ _ Hx) as (_ & _ & Hne & _).
  rewrite bool_decide_true by done.
  destruct (_add_host_to_inventory env hi s2) as [r3 s3] eqn:Ha.
  pose proof (add_host_grows env hi s2 r3 s3 Ha) as (_ & Htr & _).
  destruct r3 as [[]|e]; simpl; (split; [congruence|]); right;
    exists outputs, hi, s2; eexists; (split; [congruence|]); eauto.
Qed.

Lemma env_loop_spec envs k s :
  let rs := env_loop W envs k s in
  api_calls (trace (snd rs)) = api_calls (trace s) ∧
  ∀ n, fst rs = Ok n → (k ≤ n)%nat ∧ (n = k → inventory (snd rs) = inventory s).
Proof.
  revert k s. induction envs as [|env envs IH]; intros k s; simpl.
  - split; [done|]. intros n [= <-]. auto.
  - unfold bind. pose proof (env_step_spec env k s) as (Ht & Hr).
    destruct (env_step W env k s) as [[k1|e] s1]; simpl in *; [|done].
    pose proof (IH k1 s1) as (Ht' & Hn).
    destruct (env_loop W envs k1 s1) as [r s']. simpl in *.
    split; [congruence|]. intros n ->. destruct (Hn n eq_refl) as [Hle Heq].
    destruct Hr as [[[= ->] Hi]|(outputs & hi & s2 & r & _ & _ & _ & _ & Hk1)].
    + split; [done|]. intros ->. rewrite Heq by done. done.
    + destruct r as [[]|e]; [|done]. injection Hk1 as ->. split; lia.
Qed.

(** An invariant of the document kept by every insertion of a record
    drawn from the tool's outputs is kept by the loop. *)
Lemma env_loop_preserves (I : gmap string entry → Prop) envs k :
  (∀ env outputs hi, env ∈ envs →
     _extract_host_info_from_terraform env outputs = Some hi →
     preserves (fun s => I (inventory s)) (_add_host_to_inventory env hi)) →
  preserves (fun s => I (inventory s)) (env_loop W envs k).
Proof.
  revert k. induction envs as [|env envs IH]; intros k Hadd; simpl.
  - apply preserves_ret.
  - apply preserves_bind.
    + intros s r s' HI Hrun.
      pose proof (env_step_spec env k s) as (_ & Hr). rewrite Hrun in Hr.
      simpl in Hr.
      destruct Hr as [[_ ->]|(outputs & hi & s2 & r2 & Hi2 & _ & Hx & Ha & _)]; [done|].
      eapply (Hadd env outputs hi); [left|done| |exact Ha]. simpl. by rewrite Hi2.
    + intros n. apply IH. intros env' outputs hi Hin. apply Hadd. by right.
Qed.

(** [generate_inventory], one case for each way the loop can end. *)
Lemma generate_inventory_unfold specific_env s :
  let rs1 := env_loop W (working_set specific_env) 0 s in
  generate_inventory W specific_env s =
  match fst rs1 with
  | Raise e => (Raise e, snd rs1)
  | Ok (S _) => (Ok (inventory (snd rs1)), snd rs1)
  | Ok 0 =>
      let s2 := record (DescribeInstances default_region ["running"; "pending"])
                  (snd rs1) in
      let rs3 := for_each (fallback_instances W) (fallback_step specific_env) s2 in
      (match fst rs3 with
       | Ok _ => Ok (inventory (snd rs3))
       | Raise e => Raise e
       end, snd rs3)
  end.
Proof.
  unfold generate_inventory, working_set, fallback_instances, bind.
  destruct (env_loop W _ 0 s) as [[[|n]|e] s1]; simpl; try done.
  unfold _get_ec2_instances_from_aws, try_except, bind, ec2_describe, ret,
    get_inventory.
  destruct (describe_instances W default_region _) as [rs|]; simpl; [|done].
  match goal with
  | |- context [for_each ?l ?f ?x] => by destruct (for_each l f x) as [[[]|e] s3]
  end.
Qed.

End Loop.

(** ** The fallback loop *)

Section Fallback.
Import TerraformInventory.

Lemma fallback_step_cases e i s :
  fallback_step e i s = (Ok tt, s) ∨
  ∃ env hi,
    _extract_host_info_from_ec2 i = Some hi ∧ env_tag i = Some env ∧ env ≠ "" ∧
    (truthy e = false ∨ e = Some env) ∧
    fallback_step e i s = _add_host_to_inventory env hi s.
Proof.
  unfold fallback_step.
  destruct (_extract_host_info_from_ec2 i) as [hi|] eqn:Hx; simpl; [|by left].
  pose proof (extract_ec2_Some _ _ Hx) as (_ & Hne & (env & Htag & Henv & Hlook) & _).
  rewrite bool_decide_true by done. rewrite Hlook.
  destruct (truthy e) eqn:He; simpl.
  - case_bool_decide as Heq; [|by left].
    right. exists env, hi. eauto 10.
  - right. exists env, hi. eauto 10.
Qed.

Lemma fallback_step_grows e i s r s' :
  fallback_step e i s = (r, s') →
  s' = s ∨
  ∃ env hi,
    _extract_host_info_from_ec2 i = Some hi ∧ env_tag i = Some env ∧
    (truthy e = false ∨ e = Some env) ∧
    grows (env +:+ "-web-server") hi s s'.
Proof.
  intros Hrun.
  destruct (fallback_step_cases e i s) as [Hs|(env & hi & Hx & Ht & _ & He & Hs)];
    rewrite Hs in Hrun.
  - left. congruence.
  - right. exists env, hi. split; [done|]. split; [done|]. split; [done|].
    by eapply add_host_grows.
Qed.

Lemma fallback_step_trace e i t :
  preserves (fun s => trace s = t) (fallback_step e i).
Proof.
  intros s r s' Ht Hrun.
  apply fallback_step_grows in Hrun as [->|(env & hi & _ & _ & _ & _ & Htr & _)];
    congruence.
Qed.

Lemma fallback_step_meta e i :
  preserves (fun s => meta_ok (inventory s)) (fallback_step e i).
Proof.
  intros s r s' Hm Hrun.
  apply fallback_step_grows in Hrun
    as [->|(env & hi & _ & _ & _ & _ & _ & _ & _ & Hmeta)]; [done|].
  by apply Hmeta.
Qed.

Lemma fallback_step_addressed e i :
  preserves (fun s => all_addressed (inventory s)) (fallback_step e i).
Proof.
  intros s r s' Hall Hrun.
  apply fallback_step_grows in Hrun as [->|(env & hi & Hx & _ & _ & Hg)]; [done|].
  apply extract_ec2_Some in Hx as (Hhi & _). by eapply grows_all_addressed.
Qed.

Lemma add_host_meta env hi :
  preserves (fun s => meta_ok (inventory s)) (_add_host_to_inventory env hi).
Proof.
  intros s r s' Hm Hrun.
  apply add_host_grows in Hrun as (_ & _ & _ & _ & Hmeta). by apply Hmeta.
Qed.

Lemma add_host_addressed env hi :
  has_address hi →
  preserves (fun s => all_addressed (inventory s)) (_add_host_to_inventory env hi).
Proof.
  intros Hhi s r s' Hall Hrun.
  apply add_host_grows in Hrun. by eapply grows_all_addressed.
Qed.

(** Invariants of the document through the whole of [generate_inventory]. *)
Lemma generate_inventory_preserves W (I : gmap string entry → Prop) e :
  (∀ env outputs hi,
     _extract_host_info_from_terraform env outputs = Some hi →
     preserves (fun s => I (inventory s)) (_add_host_to_inventory env hi)) →
  (∀ i, preserves (fun s => I (inventory s)) (fallback_step e i)) →
  preserves (fun s => I (inventory s)) (generate_inventory W e).
Proof.
  intros Hadd Hfb s r s' HI. rewrite generate_inventory_unfold.
  pose proof (env_loop_preserves W I (working_set e) 0
                (fun env outputs hi _ => Hadd env outputs hi) s) as Hloop.
  destruct (env_loop W (working_set e) 0 s) as [r1 s1] eqn:E1. simpl.
  specialize (Hloop r1 s1 HI eq_refl).
  destruct r1 as [[|n]|x]; try (by intros [= _ <-]).
  intros [= _ <-].
  set (s2 := record _ s1).
  destruct (for_each (fallback_instances W) (fallback_step e) s2) as [r3 s3] eqn:E3.
  simpl.
  exact (preserves_for_each (fun s => I (inventory s)) _ _ (fun i _ => Hfb i)
           s2 r3 s3 Hloop E3).
Qed.

Lemma generate_inventory_returns_document W e s inv s' :
  generate_inventory W e s = (Ok inv, s') → inv = inventory s'.
Proof.
  rewrite generate_inventory_unfold.
  destruct (env_loop W (working_set e) 0 s) as [[[|n]|x] s1]; simpl;
    try (by intros [= <- <-]).
  match goal with
  | |- context [for_each ?l ?f ?x] => destruct (for_each l f x) as [[[]|x'] s3]
  end; simpl; [|done].
  by intros [= <- <-].
Qed.

End Fallback.

(** ** The fallback under an environment filter *)

Section Filter.
Import TerraformInventory.



End Filter.

(** ** Addresses in the documents of the API-backed generator *)

Section EC2Addressed.
Import EC2Inventory.

Lemma hostvars_of_init : hostvars_of init_inventory = ∅.
Proof. reflexivity. Qed.

Lemma all_addressed_init d : all_addressed (inventory (init_state d)).
Proof. intros h hv. simpl. rewrite hostvars_of_init. by rewrite lookup_empty. Qed.

Lemma add_to_group_grows g h hi : steps (grows h hi) (_add_to_group g h).
Proof.
  unfold _add_to_group.
  apply steps_bind; try apply _; [by apply ensure_group_grows|intros _].
  apply steps_bind; try apply _; [apply lookup_hosts_grows|intros l].
  apply steps_if; [apply steps_ret; apply _|apply append_host_grows].
Qed.

Lemma accepted_nonempty i e ip : accepted i = Some (e, ip) → e ≠ "" ∧ ip ≠ "".
Proof.
  unfold accepted. destruct (tags_dict i !! "Environment") as [e'|]; [|done].
  destruct (PublicIpAddress i) as [ip'|]; [|done].
  destruct (String.eqb_spec e' ""); [done|].
  destruct (String.eqb_spec ip' ""); [done|]. simpl. by intros [= <- <-].
Qed.

Lemma process_instance_addressed i :
  preserves (fun s => all_addressed (inventory s)) (_process_instance i).
Proof.
  intros s r s' Hall. unfold _process_instance, try_except.
  destruct (accepted i) as [[e ip]|] eqn:Hacc.
  2: { rewrite process_instance_body_skip by done. by intros [= _ <-]. }
  rewrite (process_instance_body_accepted _ _ _ s Hacc).
  set (h := instance_hostname i e).
  set (hv := host_vars_of i e ip (tags_dict i)).
  assert (steps (grows h hv) (set_hostvars h hv >> add_to_groups (instance_groups i e) h))
    as Hsteps.
  { apply steps_bind; try apply _; [apply set_hostvars_grows|intros _].
    apply steps_for_each; try apply _. intros g _. apply add_to_group_grows. }
  destruct ((set_hostvars h hv >> add_to_groups (instance_groups i e) h) s)
    as [r0 s0] eqn:E.
  assert (all_addressed (inventory s0)) as H0.
  { eapply (grows_all_addressed h hv s s0); [|by eapply Hsteps|done].
    exists ip. split; [done|]. by apply accepted_nonempty in Hacc as [_ ?]. }
  destruct r0 as [[]|x]; by intros [= _ <-].
Qed.

Lemma EC2Inventory_addressed W region s :
  all_addressed (inventory s) →
  all_addressed (inventory (snd (generate_inventory W region s))).
Proof.
  intros Hall. pose proof (ec2_generate_run W region s) as H.
  simpl in H. destruct (describe_instances W region ["running"]) as [rs|].
  - rewrite H. simpl.
    set (s0 := record _ s).
    destruct (for_each (all_instances rs) _process_instance s0) as [r s'] eqn:E.
    exact (preserves_for_each (fun s => all_addressed (inventory s)) _ _
             (fun i _ => process_instance_addressed i) s0 r s' Hall E).
  - by rewrite H.
Qed.

End EC2Addressed.

(** ** Host lists of the API-backed generator hold no duplicate *)

Section EC2NoDup.
Import EC2Inventory.

Lemma nodup_groups_init : nodup_groups init_inventory.
Proof.
  intros g. unfold hosts_of, init_inventory.
  destruct (decide (g = "_meta")) as [->|Hne].
  - rewrite lookup_singleton_eq. constructor.
  - rewrite lookup_singleton_ne by done. constructor.
Qed.

Lemma set_hostvars_nodup h hv :
  preserves (fun s => nodup_groups (inventory s)) (set_hostvars h hv).
Proof.
  intros s r s' Hnd Hrun g.
  apply set_hostvars_result in Hrun as (_ & _ & Hframe & Hr).
  destruct r as [[]|x]; [|by destruct Hr as [-> _]].
  destruct Hr as (m & _ & Hm'). unfold hosts_of.
  destruct (decide (g = "_meta")) as [->|Hne].
  - rewrite Hm'. constructor.
  - rewrite Hframe by done. apply Hnd.
Qed.

Lemma add_to_group_nodup g h :
  preserves (fun s => nodup_groups (inventory s)) (_add_to_group g h).
Proof.
  intros s r s' Hnd Hrun g'.
  destruct (decide (g' = g)) as [->|Hne].
  - pose proof (add_to_group_cases g h s) as Hc. pose proof (Hnd g) as Hl.
    unfold hosts_of in Hl |- *.
    destruct (inventory s !! g) as [[m|[l|] v]|] eqn:E.
    + destruct Hc as [x Hc]. rewrite Hc in Hrun. injection Hrun as _ <-.
      rewrite E. constructor.
    + rewrite Hc in Hrun. injection Hrun as _ <-.
      case_bool_decide as Hin; [by rewrite E|]. simpl. rewrite lookup_insert_eq.
      apply NoDup_app. split; [done|]. split; [|apply NoDup_singleton].
      intros x Hx ->%list_elem_of_singleton. done.
    + destruct Hc as [x Hc]. rewrite Hc in Hrun. injection Hrun as _ <-.
      rewrite E. constructor.
    + rewrite Hc in Hrun. injection Hrun as _ <-. simpl. rewrite lookup_insert_eq.
      apply NoDup_singleton.
  - apply add_to_group_result in Hrun as (_ & _ & Hframe & _).
    unfold hosts_of. rewrite Hframe by done. apply Hnd.
Qed.

Lemma process_instance_nodup i :
  preserves (fun s => nodup_groups (inventory s)) (_process_instance i).
Proof.
  apply preserves_try; [|intros; apply preserves_ret].
  unfold _process_instance_body.
  repeat first
    [ apply set_hostvars_nodup | apply add_to_group_nodup
    | apply preserves_if | apply preserves_ret | apply preserves_bind; [|intros _] ].
Qed.

(** X22.  In a document of [EC2Inventory.generate_inventory] no host list
    holds a hostname twice, whatever the API returns. *)
Lemma ec2_generate_nodup W region d :
  nodup_groups (inventory (snd (generate_inventory W region (init_state d)))).
Proof.
  rewrite ec2_generate_run.
  destruct (describe_instances W region ["running"]) as [rs|]; simpl;
    [|apply nodup_groups_init].
  set (s0 := record _ (init_state d)).
  destruct (for_each (all_instances rs) _process_instance s0) as [r s'] eqn:E.
  exact (preserves_for_each (fun s => nodup_groups (inventory s)) _ _
           (fun i _ => process_instance_nodup i) s0 r s' nodup_groups_init E).
Qed.

End EC2NoDup.

(** ** The cloud API calls of the state-backed generator *)

Section ApiCalls.
Import TerraformInventory.

Lemma api_calls_record_describe t r st :
  api_calls (t ++ [DescribeInstances r st]) = api_calls t ++ [(r, st)].
Proof. unfold api_calls. by rewrite omap_app. Qed.

Lemma generate_inventory_api_calls W specific_env s :
  api_calls (trace (snd (generate_inventory W specific_env s))) =
    api_calls (trace s) ++
    match fst (env_loop W (working_set specific_env) 0 s) with
    | Ok 0 => [(default_region, ["running"; "pending"])]
    | _ => []
    end.
Proof.
  rewrite generate_inventory_unfold.
  pose proof (env_loop_spec W (working_set specific_env) 0 s) as [Htr _].
  destruct (env_loop W (working_set specific_env) 0 s) as [r1 s1]. simpl in *.
  destruct r1 as [[|n]|x]; simpl; rewrite ?app_nil_r; try done.
  set (s2 := record _ s1).
  set (l := fallback_instances W).
  destruct (for_each l (fallback_step specific_env) s2) as [r3 s3] eqn:E3.
  simpl.
  pose proof (preserves_for_each (fun s => trace s = trace s2) l _
                (fun i _ => fallback_step_trace specific_env i (trace s2))
                s2 r3 s3 eq_refl E3) as Ht3.
  rewrite Ht3. unfold s2. simpl. by rewrite api_calls_record_describe, Htr.
Qed.

Lemma generate_inventory_meta W e s :
  meta_ok (inventory s) → meta_ok (inventory (snd (generate_inventory W e s))).
Proof.
  intros Hm. destruct (generate_inventory W e s) as [r s'] eqn:E.
  eapply (generate_inventory_preserves W meta_ok e); [| |exact Hm|exact E].
  - intros env outputs hi _. apply add_host_meta.
  - intros i. apply fallback_step_meta.
Qed.

Lemma ec2_generate_meta W region s :
  regular (inventory s) →
  meta_ok (inventory (snd (EC2Inventory.generate_inventory W region s))).
Proof.
  intros Hreg. rewrite ec2_generate_run.
  destruct (describe_instances W region ["running"]) as [rs|]; simpl;
    [|by destruct Hreg].
  set (s0 := record _ s).
  destruct (for_each (all_instances rs) EC2Inventory._process_instance s0)
    as [r s'] eqn:E.
  by destruct (preserves_for_each (fun s => regular (inventory s)) _ _
                 (fun i _ => process_instance_regular i) s0 r s' Hreg E).
Qed.

Lemma ec2_generate_returns_document W region s inv s' :
  EC2Inventory.generate_inventory W region s = (Ok inv, s') → inv = inventory s'.
Proof.
  rewrite ec2_generate_run.
  destruct (describe_instances W region ["running"]); simpl; by intros [= <- <-].
Qed.

Lemma hostvars_get_unknown h s :
  meta_ok (inventory s) → hostvars_of (inventory s) !! h = None →
  hostvars_get h s = (Ok ∅, s).
Proof.
  intros [m Hm]. unfold hostvars_get, hostvars_of. run_monad. rewrite Hm.
  by intros ->.
Qed.

End ApiCalls.

(** * The state-backed generator: claims *)

Section TerraformClaims.
Import TerraformInventory.





(** C4.  A record is added only when a public address is present.
    Outputs or an instance without one give no host facts, and the round
    of either loop for them returns without touching the document; every
    record of a document built by either generator has a non-empty
    [ansible_host]. *)
Theorem no_address_no_record :
  (∀ env outputs,
     (∀ p, output_value outputs "public_ip" = Ok (Some p) → p = "") →
     _extract_host_info_from_terraform env outputs = None) ∧
  (∀ W env k s,
     (∀ outputs,
        fst (_get_terraform_outputs W env (snd (_check_terraform_state W env s))) =
          Ok (Some outputs) →
        ∀ p, output_value outputs "public_ip" = Ok (Some p) → p = "") →
     fst (env_step W env k s) = Ok k ∧
     inventory (snd (env_step W env k s)) = inventory s) ∧
  (∀ i, truthy (PublicIpAddress i) = false →
     _extract_host_info_from_ec2 i = None ∧
     (∀ e s, fallback_step e i s = (Ok tt, s)) ∧
     (∀ s, EC2Inventory._process_instance i s = (Ok tt, s))) ∧
  (∀ W e d,
     all_addressed
       (inventory (snd (generate_inventory W e (init_state d))))) ∧
  (∀ W region d,
     all_addressed
       (inventory (snd (EC2Inventory.generate_inventory W region (init_state d))))).
Proof.
  split; [exact extract_terraform_None|]. split; [|split; [|split]].
  - intros W env k s Hno. pose proof (env_step_spec W env k s) as (_ & Hr).
    destruct Hr as [?|(outputs & hi & s2 & r & _ & Hout & Hx & _)]; [done|].
    rewrite (extract_terraform_None env outputs (Hno outputs Hout)) in Hx. done.
  - intros i Hp. split; [by apply extract_ec2_None|]. split.
    + intros e s. unfold fallback_step. by rewrite extract_ec2_None.
    + intros s. unfold EC2Inventory._process_instance, try_except.
      rewrite process_instance_body_skip; [done|].
      unfold accepted. destruct (EC2Inventory.tags_dict i !! "Environment"); [|done].
      destruct (PublicIpAddress i) as [ip|]; [|done]. simpl in Hp.
      destruct (String.eqb ip ""); [|done]. by rewrite orb_true_r.
  - intros W e d.
    destruct (generate_inventory W e (init_state d)) as [r s'] eqn:E.
    eapply (generate_inventory_preserves W all_addressed e); [| | |exact E].
    + intros env outputs hi Hx. apply add_host_addressed.
      by apply extract_terraform_Some in Hx as (? & _).
    + intros i. apply fallback_step_addressed.
    + apply all_addressed_init.
  - intros W region d. apply EC2Inventory_addressed, all_addressed_init.
Qed.

(** C8.  In host mode, for a hostname without a record in the generated
    document, the lookup [get_host_vars] returns the empty record without
    raising.  When the hostname is not the empty string, [main] prints
    that empty record and ends with status 0.  When it is the empty
    string, the test [elif args.host] fails: [main] runs no generator,
    prints the help text and ends with status 1. *)
Theorem host_lookup_unknown (W : world) (a : CLI.args) (d h : string)
    (inv : gmap string entry) (s : pstate) :
  CLI.list_flag a = false → CLI.host a = Some h →
  match CLI.source a with
  | CLI.terraform => generate_inventory W None
  | CLI.ec2 => EC2Inventory.generate_inventory W (CLI.region a)
  end (init_state d) = (Ok inv, s) →
  hostvars_of inv !! h = None →
  get_host_vars h s = (Ok ∅, s) ∧
  (h ≠ "" →
   CLI.main W a d =
     ({| CLI.stdout := inl (CLI.PrintHostVars ∅); CLI.exit_code := 0 |}, s)) ∧
  (h = "" →
   CLI.main W a d =
     ({| CLI.stdout := inl CLI.PrintHelp; CLI.exit_code := 1 |}, init_state d)).
Proof.
  intros Hlist Hhost Hgen Hunknown.
  assert (get_host_vars h s = (Ok ∅, s)) as Hget.
  { unfold get_host_vars. destruct (CLI.source a).
    - pose proof (generate_inventory_returns_document _ _ _ _ _ Hgen) as ->.
      apply hostvars_get_unknown; [|done].
      pose proof (generate_inventory_meta W None (init_state d)) as Hm.
      rewrite Hgen in Hm. apply Hm. by eexists.
    - pose proof (ec2_generate_returns_document _ _ _ _ _ Hgen) as ->.
      apply hostvars_get_unknown; [|done].
      pose proof (ec2_generate_meta W (CLI.region a) (init_state d)) as Hm.
      rewrite Hgen in Hm. apply Hm, regular_init. }
  split; [done|]. unfold CLI.main. rewrite Hlist, Hhost. simpl. split.
  - intros Hne. destruct (String.eqb_spec h ""); [done|]. simpl.
    destruct (CLI.source a); unfold bind; rewrite Hgen;
      [by rewrite Hget|]. unfold get_host_vars in Hget. by rewrite Hget.
  - by intros ->.
Qed.

(** C8 for the hostname [ghost], API-backed source. *)
Lemma host_lookup_unknown_witness :
  let W := Samples.api_only [Samples.web "dev" (Some "203.0.113.7") None] in
  let a := {| CLI.list_flag := false; CLI.host := Some "ghost"; CLI.env := None;
              CLI.source := CLI.ec2; CLI.region := "eu-west-1";
              CLI.verbose := false |} in
  CLI.main W a "/" =
    ({| CLI.stdout := inl (CLI.PrintHostVars ∅); CLI.exit_code := 0 |},
     snd (EC2Inventory.generate_inventory W "eu-west-1" (init_state "/"))).
Proof.
  intros W a.
  refine (proj1 (proj2 (host_lookup_unknown W a "/" "ghost"
            (inventory (snd (EC2Inventory.generate_inventory W "eu-west-1" (init_state "/"))))
            (snd (EC2Inventory.generate_inventory W "eu-west-1" (init_state "/")))
            eq_refl eq_refl _ _)) _).
  - by vm_compute.
  - by vm_compute.
  - discriminate.
Defined.

(** C8, counterexample.  The empty string has no record in the document
    of either generator, yet with [--host ''] [main] does not print the
    empty record with status 0: it prints the help text and ends with
    status 1. *)
Lemma host_lookup_empty_hostname :
  let W := Samples.api_only [Samples.web "dev" (Some "203.0.113.7") None] in
  let a := fun src =>
    {| CLI.list_flag := false; CLI.host := Some ""; CLI.env := None;
       CLI.source := src; CLI.region := "eu-west-1"; CLI.verbose := false |} in
  match EC2Inventory.generate_inventory W "eu-west-1" (init_state "/") with
  | (Ok inv, _) => hostvars_of inv !! "" = None
  | (Raise _, _) => False
  end ∧
  match generate_inventory W None (init_state "/") with
  | (Ok inv, _) => hostvars_of inv !! "" = None
  | (Raise _, _) => False
  end ∧
  fst (CLI.main W (a CLI.ec2) "/") =
    {| CLI.stdout := inl CLI.PrintHelp; CLI.exit_code := 1 |} ∧
  fst (CLI.main W (a CLI.terraform) "/") =
    {| CLI.stdout := inl CLI.PrintHelp; CLI.exit_code := 1 |} ∧
  fst (CLI.main W (a CLI.terraform) "/") ≠
    {| CLI.stdout := inl (CLI.PrintHostVars ∅); CLI.exit_code := 0 |}.
Proof.
  cbv zeta. split; [|split; [|split; [|split]]].
  - vm_compute. reflexivity.
  - vm_compute. reflexivity.
  - reflexivity.
  - reflexivity.
  - discriminate.
Qed.

(** C10.  With the state-backed source, [main] does the same whatever
    the value of [--region], and every cloud API call it makes is for the
    region [ap-southeast-1]; the API-backed generator queries the region
    it is given. *)
Theorem region_unused_by_state_backed (W : world) (a : CLI.args)
    (r1 r2 d : string) :
  CLI.source a = CLI.terraform →
  CLI.main W (CLI.with_region r1 a) d = CLI.main W (CLI.with_region r2 a) d ∧
  (∀ r st, (r, st) ∈ api_calls (trace (snd (CLI.main W (CLI.with_region r1 a) d))) →
           r = "ap-southeast-1") ∧
  (∀ s, api_calls (trace (snd (EC2Inventory.generate_inventory W r1 s))) =
        api_calls (trace s) ++ [(r1, ["running"])]).
Proof.
  intros Hsrc. split; [|split].
  - unfold CLI.main, CLI.with_region. simpl. by rewrite Hsrc.
  - intros r st. unfold CLI.main, CLI.with_region. simpl. rewrite Hsrc.
    assert (∀ e, (r, st) ∈ api_calls (trace (snd (generate_inventory W e (init_state d)))) →
                 r = "ap-southeast-1") as Hgen.
    { intros e. rewrite generate_inventory_api_calls. simpl.
      destruct (fst (env_loop W (working_set e) 0 (init_state d))) as [[|n]|x];
        simpl; rewrite ?elem_of_nil, ?list_elem_of_singleton; try done.
      by intros [= -> _]. }
    destruct (CLI.list_flag a).
    + unfold CLI.finish. specialize (Hgen (CLI.env a)).
      by destruct (generate_inventory W (CLI.env a) (init_state d)) as [[inv|x] s].
    + destruct (truthy (CLI.host a)); [|by intros ?%elem_of_nil].
      unfold CLI.finish, bind. specialize (Hgen None).
      destruct (generate_inventory W None (init_state d)) as [[inv|x] s]; [|done].
      unfold get_host_vars, hostvars_get. run_monad.
      by destruct (inventory s !! "_meta") as [[m|? ?]|].
  - intros s. rewrite ec2_generate_run.
    destruct (describe_instances W r1 ["running"]) as [rs|]; simpl;
      [|by rewrite api_calls_record_describe].
    set (s0 := record _ s).
    destruct (for_each (all_instances rs) EC2Inventory._process_instance s0)
      as [r s'] eqn:E.
    simpl. assert (trace s' = trace s0) as ->.
    { refine (preserves_for_each (fun s => trace s = trace s0) _ _ _ s0 r s' eq_refl E).
      intros i _ s1 r1' s1' Ht Hrun. rewrite <- Ht.
      unfold EC2Inventory._process_instance, try_except in Hrun.
      destruct (accepted i) as [[e ip]|] eqn:Hacc.
      2: { rewrite process_instance_body_skip in Hrun by done. by injection Hrun as _ <-. }
      rewrite (process_instance_body_accepted _ _ _ s1 Hacc) in Hrun.
      set (h := instance_hostname i e) in *.
      set (hv := EC2Inventory.host_vars_of i e ip (EC2Inventory.tags_dict i)) in *.
      assert (steps (grows h hv)
                (set_hostvars h hv >> add_to_groups (instance_groups i e) h)) as Hsteps.
      { apply steps_bind; try apply _; [apply set_hostvars_grows|intros _].
        apply steps_for_each; try apply _. intros g _. apply add_to_group_grows. }
      destruct ((set_hostvars h hv >> add_to_groups (instance_groups i e) h) s1)
        as [r0 s2] eqn:E0.
      apply Hsteps in E0 as (_ & Htr & _).
      destruct r0 as [[]|x]; injection Hrun as _ <-; done. }
    unfold s0. simpl. by rewrite api_calls_record_describe.
Qed.

Lemma region_unused_by_state_backed_witness :
  let W := Samples.api_only [Samples.web "dev" (Some "203.0.113.7") None] in
  let a := {| CLI.list_flag := true; CLI.host := None; CLI.env := None;
              CLI.source := CLI.terraform; CLI.region := "ap-southeast-1";
              CLI.verbose := false |} in
  CLI.main W (CLI.with_region "eu-west-1" a) "/" =
  CLI.main W (CLI.with_region "us-east-1" a) "/".
Proof.
  intros W a.
  exact (proj1 (region_unused_by_state_backed W a "eu-west-1" "us-east-1" "/" eq_refl)).
Defined.

(** C1, the failing input.  With valid state and a public address for
    [dev], the document has the record of [dev-web-server] and lists the
    host once in [web_servers] and once in [dev]; the group [all] is created
    with variables only, so it has no host list for the host to be in. *)
Theorem state_host_missing_from_all :
  let rs := generate_inventory Samples.dev_state None (init_state "/") in
  let inv := inventory (snd rs) in
  fst rs = Ok inv ∧
  known_host "dev-web-server" inv ∧
  hosts_of inv "web_servers" = ["dev-web-server"] ∧
  hosts_of inv "dev" = ["dev-web-server"] ∧
  inv !! "all" = Some (Group None (Some all_vars)) ∧
  "dev-web-server" ∉ hosts_of inv "all".
Proof.
  split; [by vm_compute|]. split; [vm_compute; by eexists|].
  split; [by vm_compute|]. split; [by vm_compute|]. split; [by vm_compute|].
  vm_compute. by intros ?%elem_of_nil.
Qed.

(** C2, the failing input.  When the fallback finds two instances of
    the same environment, the hostname of that environment is appended
    twice to [web_servers] and to the environment's group. *)
Theorem fallback_duplicates_hostname :
  let W := Samples.api_only [Samples.web "dev" (Some "203.0.113.7") None;
                             Samples.web "dev" (Some "203.0.113.8") None] in
  let rs := generate_inventory W None (init_state "/") in
  let inv := inventory (snd rs) in
  fst rs = Ok inv ∧
  hosts_of inv "web_servers" = ["dev-web-server"; "dev-web-server"] ∧
  hosts_of inv "dev" = ["dev-web-server"; "dev-web-server"] ∧
  ¬ NoDup (hosts_of inv "web_servers").
Proof.
  split; [by vm_compute|]. split; [by vm_compute|]. split; [by vm_compute|].
  intros H. vm_compute in H. apply NoDup_cons in H as [Hin _].
  apply Hin. left.
Qed.

End TerraformClaims.

(** * Further properties of the code *)

(** ** The search for the project root *)

Section ProjectRoot.
Import TerraformInventory.

(** [os.path.dirname] on sample paths. *)
Lemma os_path_dirname_samples :
  os_path_dirname "/srv/iac/ansible/inventory/dynamic_inventory.py"
    = "/srv/iac/ansible/inventory" ∧
  os_path_dirname "/srv" = "/" ∧ os_path_dirname "/" = "/" ∧
  os_path_dirname "//srv" = "//" ∧ os_path_dirname "//" = "//" ∧
  os_path_dirname "srv" = "" ∧ os_path_dirname "a/b" = "a" ∧
  os_path_dirname "/a//b/" = "/a//b" ∧ os_path_dirname "/a/b//" = "/a/b".
Proof. repeat split. Qed.

Lemma up_to_last_sep_length p :
  (String.length (up_to_last_sep p) ≤ String.length p)%nat.
Proof.
  induction p as [|c r IH]; simpl; [done|].
  destruct (Ascii.eqb c "/" || negb (String.eqb (up_to_last_sep r) "")); simpl; lia.
Qed.

Lemma rstrip_sep_length p :
  (String.length (rstrip_sep p) ≤ String.length p)%nat.
Proof.
  induction p as [|c r IH]; simpl; [done|].
  destruct (Ascii.eqb c "/" && String.eqb (rstrip_sep r) ""); simpl; lia.
Qed.

(** The head is empty, or starts as the path does. *)
Lemma up_to_last_sep_start c r :
  up_to_last_sep (String c r) = "" ∨
  ∃ h, up_to_last_sep (String c r) = String c h.
Proof.
  simpl. destruct (Ascii.eqb c "/" || negb (String.eqb (up_to_last_sep r) ""));
    eauto.
Qed.

Lemma rstrip_sep_start c r :
  rstrip_sep (String c r) = "" ∨ ∃ t, rstrip_sep (String c r) = String c t.
Proof.
  simpl. destruct (Ascii.eqb c "/" && String.eqb (rstrip_sep r) ""); eauto.
Qed.

Lemma rstrip_sep_empty p : rstrip_sep p = "" → all_sep p = true.
Proof.
  induction p as [|c r IH]; simpl; [done|].
  destruct (Ascii.eqb c "/"); simpl; [|done].
  destruct (String.eqb_spec (rstrip_sep r) ""); [|done]. intros _. by apply IH.
Qed.

(** The head is the whole path only when the path ends with a slash, and
    then stripping shortens it, unless it is all slashes. *)
Lemma up_to_last_sep_whole p :
  up_to_last_sep p = p → all_sep p = false →
  (String.length (rstrip_sep p) < String.length p)%nat.
Proof.
  induction p as [|c r IH]; simpl; [done|].
  destruct (Ascii.eqb c "/" || negb (String.eqb (up_to_last_sep r) "")) eqn:E;
    [|done].
  intros [= Hr] Hall.
  destruct (Ascii.eqb c "/" && String.eqb (rstrip_sep r) "") eqn:E2; simpl; [lia|].
  destruct (all_sep r) eqn:Hr_all.
  - destruct (Ascii.eqb c "/"); simpl in *; [done|].
    (* c is not a slash, r is all slashes and its own head *)
    destruct r as [|c' r']; [by simpl in E|].
    assert (rstrip_sep (String c' r') = "") as ->; [|simpl; lia].
    clear -Hr_all. revert c' Hr_all. induction r' as [|c'' r'' IH']; intros c' H;
      simpl in *.
    + by destruct (Ascii.eqb c' "/").
    + destruct (Ascii.eqb c' "/"); simpl in *; [|done].
      specialize (IH' c'' H). simpl in IH'. by rewrite IH'.
  - specialize (IH Hr eq_refl). lia.
Qed.

Lemma dirname_rooted p :
  rooted p → rooted (os_path_dirname p) ∧
  (p ≠ "/" → (String.length (os_path_dirname p) < String.length p)%nat).
Proof.
  intros (q & -> & Hq). unfold os_path_dirname.
  change (up_to_last_sep (String "/" q)) with (String "/" (up_to_last_sep q)).
  set (h := up_to_last_sep q).
  change (negb (String.eqb (String "/" h) "") && negb (all_sep (String "/" h)))
    with (negb (all_sep h)).
  assert (h = "" ∨ ∃ c t, h = String c t ∧ Ascii.eqb c "/" = false) as Hh.
  { destruct q as [|c r]; [by left|]. simpl in Hq.
    destruct (up_to_last_sep_start c r) as [E|[t E]]; unfold h; rewrite E; eauto. }
  destruct (all_sep h) eqn:Hall; simpl.
  - assert (h = "") as ->.
    { destruct Hh as [->|(c & t & -> & Hc)]; [done|]. simpl in Hall. by rewrite Hc in Hall. }
    split; [by exists ""|]. intros Hne. destruct q; [done|]. simpl. lia.
  - destruct Hh as [E|(c & t & E & Hc)]; [by rewrite E in Hall|].
    change (rstrip_sep (String "/" h)) with
      (if Ascii.eqb "/" "/" && String.eqb (rstrip_sep h) "" then ""
       else String "/" (rstrip_sep h)).
    destruct (String.eqb_spec (rstrip_sep h) "") as [E0|Hne0].
    { apply rstrip_sep_empty in E0. congruence. }
    simpl. split.
    + exists (rstrip_sep h). split; [done|]. rewrite E.
      destruct (rstrip_sep_start c t) as [E1|[t' E1]]; [by rewrite E, E1 in Hne0|].
      rewrite E1. simpl. done.
    + intros _. simpl.
      destruct (String.eqb_spec h q) as [Hwhole|Hpart].
      * pose proof (up_to_last_sep_whole q) as Hlt. fold h in Hlt.
        rewrite <- Hwhole in Hlt |- *. specialize (Hlt eq_refl Hall). lia.
      * pose proof (up_to_last_sep_length q) as Hle. fold h in Hle.
        pose proof (rstrip_sep_length h) as Hle2.
        assert (String.length h ≠ String.length q).
        { intros Hlen. apply Hpart. clear -Hlen. unfold h in *.
          induction q as [|c r IH]; simpl in *; [done|].
          destruct (Ascii.eqb c "/" || negb (String.eqb (up_to_last_sep r) ""));
            simpl in *; [|done]. f_equal. apply IH. lia. }
        lia.
Qed.

Lemma find_root_loop_S W fallback fuel cur :
  find_root_loop W fallback (S fuel) cur =
  if String.eqb cur "/" then Some fallback
  else if path_exists W (os_path_join cur ["terraform"]) then Some cur
  else find_root_loop W fallback fuel (os_path_dirname cur).
Proof. reflexivity. Qed.

Lemma rooted_length p : rooted p → (1 ≤ String.length p)%nat.
Proof. intros (q & -> & _). simpl. lia. Qed.

Lemma find_root_loop_rooted W fallback fuel cur :
  rooted cur → (String.length cur ≤ fuel)%nat →
  ∃ r, find_root_loop W fallback fuel cur = Some r ∧
       (r = fallback ∨
        (path_exists W (os_path_join r ["terraform"]) = true ∧ rooted r ∧ r ≠ "/")).
Proof.
  revert cur. induction fuel as [|fuel IH]; intros cur Hcur Hlen.
  { apply rooted_length in Hcur. lia. }
  rewrite find_root_loop_S. destruct (String.eqb_spec cur "/") as [->|Hne].
  { eexists. split; [done|by left]. }
  destruct (path_exists W (os_path_join cur ["terraform"])) eqn:Hex.
  { eexists. split; [done|by right]. }
  destruct (dirname_rooted cur Hcur) as [Hd Hlt]. specialize (Hlt Hne).
  apply IH; [done|lia].
Qed.

Lemma find_root_loop_more W fallback fuel fuel' cur r :
  find_root_loop W fallback fuel cur = Some r → (fuel ≤ fuel')%nat →
  find_root_loop W fallback fuel' cur = Some r.
Proof.
  revert fuel' cur. induction fuel as [|fuel IH]; intros fuel' cur; [done|].
  intros H Hle. destruct fuel' as [|fuel']; [lia|].
  rewrite find_root_loop_S in *.
  destruct (String.eqb cur "/"); [done|].
  destruct (path_exists W (os_path_join cur ["terraform"])); [done|].
  apply IH; [done|lia].
Qed.

(** X20.  For a script path with one leading slash the search of
    [_find_project_root] ends, within as many rounds as the path has
    characters.  It gives an absolute directory that has a [terraform]
    child and is not [/] itself, or else the fallback, the path two levels
    above [__file__]: the loop never gives [/], even when [/terraform]
    exists. *)
Theorem find_project_root_returns W file abs_file :
  rooted abs_file →
  ∃ r, (∀ fuel, (String.length abs_file ≤ fuel)%nat →
          _find_project_root W file abs_file fuel = Some r) ∧
       (r = os_path_join (os_path_dirname file) [".."; ".."] ∨
        (path_exists W (os_path_join r ["terraform"]) = true ∧
         rooted r ∧ r ≠ "/")).
Proof.
  intros Habs. destruct (dirname_rooted abs_file Habs) as [Hd Hlt].
  assert (String.length (os_path_dirname abs_file) ≤ String.length abs_file)%nat
    as Hle.
  { destruct (String.eqb_spec abs_file "/") as [->|Hne]; [done|].
    specialize (Hlt Hne). lia. }
  destruct (find_root_loop_rooted W
              (os_path_join (os_path_dirname file) [".."; ".."])
              (String.length abs_file) _ Hd Hle) as (r & Hr & Hprop).
  exists r. split; [|done]. intros fuel Hfuel.
  by apply (find_root_loop_more _ _ (String.length abs_file)).
Qed.

(** X20 for the script at its place in the project tree. *)
Lemma find_project_root_returns_witness :
  let abs_file := "/srv/iac/ansible/inventory/dynamic_inventory.py" in
  rooted abs_file ∧
  ∃ r, (∀ fuel, (String.length abs_file ≤ fuel)%nat →
          _find_project_root project_tree "dynamic_inventory.py" abs_file fuel
          = Some r) ∧
       (r = os_path_join (os_path_dirname "dynamic_inventory.py") [".."; ".."] ∨
        (path_exists project_tree (os_path_join r ["terraform"]) = true ∧
         rooted r ∧ r ≠ "/")).
Proof.
  cbv zeta. split; [by eexists|].
  apply find_project_root_returns. by eexists.
Defined.

Lemma dirname_double_rooted p :
  double_rooted p → double_rooted (os_path_dirname p).
Proof.
  intros (q & -> & Hq). unfold os_path_dirname.
  change (up_to_last_sep (String "/" (String "/" q)))
    with (String "/" (String "/" (up_to_last_sep q))).
  set (h := up_to_last_sep q).
  change (negb (String.eqb (String "/" (String "/" h)) "")
          && negb (all_sep (String "/" (String "/" h))))
    with (negb (all_sep h)).
  assert (h = "" ∨ ∃ c t, h = String c t ∧ Ascii.eqb c "/" = false) as Hh.
  { destruct q as [|c r]; [by left|]. simpl in Hq.
    destruct (up_to_last_sep_start c r) as [E|[t E]]; unfold h; rewrite E; eauto. }
  destruct (all_sep h) eqn:Hall; simpl.
  - assert (h = "") as ->.
    { destruct Hh as [->|(c & t & -> & Hc)]; [done|]. simpl in Hall.
      by rewrite Hc in Hall. }
    by exists "".
  - destruct Hh as [E|(c & t & E & Hc)]; [by rewrite E in Hall|].
    destruct (String.eqb_spec (rstrip_sep h) "") as [E0|Hne0].
    { apply rstrip_sep_empty in E0. congruence. }
    simpl. exists (rstrip_sep h). split; [done|]. rewrite E.
    destruct (rstrip_sep_start c t) as [E1|[t' E1]]; [by rewrite E, E1 in Hne0|].
    rewrite E1. simpl. done.
Qed.

(** X21.  For a script path with two leading slashes (which
    [os.path.abspath] keeps), when no directory with two leading slashes
    has a [terraform] child, the loop of [_find_project_root] never ends:
    no number of rounds suffices, since [os.path.dirname] stops at [//],
    which is not [/]. *)
Theorem find_project_root_diverges W file abs_file :
  double_rooted abs_file →
  (∀ p, double_rooted p → path_exists W (os_path_join p ["terraform"]) = false) →
  ∀ fuel, _find_project_root W file abs_file fuel = None.
Proof.
  intros Habs Hno fuel. unfold _find_project_root.
  apply dirname_double_rooted in Habs. revert Habs.
  generalize (os_path_dirname abs_file).
  induction fuel as [|fuel IH]; intros cur Hcur; [done|].
  rewrite find_root_loop_S.
  destruct (String.eqb_spec cur "/") as [->|_].
  { by destruct Hcur as (q & [=] & _). }
  rewrite (Hno _ Hcur). apply IH. by apply dirname_double_rooted.
Qed.

(** X21 where no directory exists at all. *)
Lemma find_project_root_diverges_witness :
  let W := Samples.api_only [] in
  double_rooted "//srv/dynamic_inventory.py" ∧
  _find_project_root W "dynamic_inventory.py" "//srv/dynamic_inventory.py" 1000
  = None.
Proof.
  cbv zeta. split; [by eexists|].
  apply find_project_root_diverges; [by eexists|].
  intros p _. reflexivity.
Defined.

End ProjectRoot.

(** ** What an invocation of the tool returns and does *)

Section ToolInvocation.
Import TerraformInventory.

Lemma run_terraform_command_local W env command s :
  _run_terraform_command W env command s =
  let '(v, d', evs) := tool_outcome W env command (cwd s) in
  (Ok v, {| inventory := inventory s; cwd := d'; trace := trace s ++ evs |}).
Proof.
  destruct s as [inv d t]. unfold tool_outcome, _run_terraform_command.
  cbv zeta. generalize (os_path_join (project_root W) ["terraform"; "environments"; env]).
  intros dir. simpl.
  unfold os_getcwd, os_chdir, run, loads, try_except, bind, ret, raise. simpl.
  destruct (path_exists W dir); simpl; [|by rewrite app_nil_r].
  destruct (getcwd_ok W d); simpl; [|by rewrite app_nil_r].
  destruct (chdir_ok W d) eqn:Hback;
    destruct (chdir_ok W dir) eqn:Hdir; simpl; rewrite ?Hback; simpl;
    rewrite ?app_nil_r; try done;
    (destruct (subprocess_run W dir command) as [|rc out]; simpl;
     rewrite ?Hback; simpl; [done|]);
    (destruct (rc =? 0)%Z; simpl; rewrite ?Hback; simpl; [|done]);
    try done;
    (destruct (String.eqb out ""); simpl; rewrite ?Hback; simpl; [done|]);
    destruct (json_loads W out); simpl; rewrite ?Hback; simpl; done.
Qed.

(** X1.  [_run_terraform_command] returns a document exactly when the
    state directory of the environment exists, [os.getcwd()] succeeds, the
    process can change into the state directory and back into the directory
    it came from, and the tool exits with status 0; the document is then
    [{}] for empty output and the parsed output otherwise.  Output of the
    tool is dropped when the process cannot change back. *)
Theorem run_terraform_command_result (W : world) (env : string)
    (command : list string) (s : pstate) (doc : json_doc) :
  let dir := terraform_dir W env in
  fst (_run_terraform_command W env command s) = Ok (Some doc) ↔
  path_exists W dir = true ∧ getcwd_ok W (cwd s) = true ∧
  chdir_ok W dir = true ∧ chdir_ok W (cwd s) = true ∧
  ∃ out, subprocess_run W dir command = Completed 0 out ∧
         if String.eqb out "" then doc = ∅ else json_loads W out = Some doc.
Proof.
  unfold terraform_dir, _run_terraform_command.
  cbv zeta. generalize (os_path_join (project_root W) ["terraform"; "environments"; env]).
  intros dir. simpl.
  unfold os_getcwd, os_chdir, run, loads, try_except, bind, ret, raise.
  destruct (path_exists W dir); simpl; [|naive_solver].
  destruct (getcwd_ok W (cwd s)); simpl; [|naive_solver].
  destruct (chdir_ok W dir) eqn:Hdir; simpl; [|naive_solver].
  destruct (subprocess_run W dir command) as [|rc out] eqn:Hrun; simpl;
    [naive_solver|].
  destruct (Z.eqb_spec rc 0) as [->|Hrc]; simpl; [|naive_solver].
  destruct (chdir_ok W (cwd s)) eqn:Hback; simpl; [|naive_solver].
  destruct (String.eqb out "") eqn:Hout; simpl.
  - split.
    + intros [= <-]. repeat split; try done. exists out. by rewrite Hout.
    + intros (_ & _ & _ & _ & out' & [= <-] & Hd). rewrite Hout in Hd. by subst.
  - destruct (json_loads W out) as [d'|] eqn:Hj; simpl.
    + split.
      * intros [= <-]. repeat split; try done. exists out. by rewrite Hout.
      * intros (_ & _ & _ & _ & out' & [= <-] & Hd). rewrite Hout in Hd. congruence.
    + split; [done|].
      intros (_ & _ & _ & _ & out' & [= <-] & Hd). rewrite Hout in Hd. congruence.
Qed.

(** X2.  [_run_terraform_command] never touches the document.  It runs at
    most one subprocess, the given command in the state directory of the
    environment, and only when that directory exists and could be
    entered. *)
Theorem run_terraform_command_effects (W : world) (env : string)
    (command : list string) (s : pstate) :
  let s' := snd (_run_terraform_command W env command s) in
  inventory s' = inventory s ∧
  (trace s' = trace s ∨
   trace s' = trace s ++ [SubprocessRun (terraform_dir W env) command]) ∧
  (trace s' ≠ trace s →
   path_exists W (terraform_dir W env) = true ∧
   chdir_ok W (terraform_dir W env) = true).
Proof.
  unfold terraform_dir, _run_terraform_command.
  cbv zeta. generalize (os_path_join (project_root W) ["terraform"; "environments"; env]).
  intros dir. simpl.
  unfold os_getcwd, os_chdir, run, loads, try_except, bind, ret, raise.
  destruct (path_exists W dir); simpl; [|naive_solver].
  destruct (getcwd_ok W (cwd s)); simpl; [|naive_solver].
  destruct (chdir_ok W (cwd s)) eqn:Hback;
    destruct (chdir_ok W dir) eqn:Hdir; simpl; rewrite ?Hback; simpl;
    try naive_solver;
    (destruct (subprocess_run W dir command) as [|rc out]; simpl;
     rewrite ?Hback; simpl; [naive_solver|]);
    (destruct (rc =? 0)%Z; simpl; rewrite ?Hback; simpl; [|naive_solver]);
    try naive_solver;
    (destruct (String.eqb out ""); simpl; rewrite ?Hback; simpl; [naive_solver|]);
    destruct (json_loads W out); simpl; rewrite ?Hback; simpl; naive_solver.
Qed.

End ToolInvocation.

(** ** The state directory *)

Section StateDirectory.
Import TerraformInventory.

Lemma append_cons x a b : String x a +:+ b = String x (a +:+ b).
Proof. reflexivity. Qed.

Lemma append_nil b : "" +:+ b = b.
Proof. reflexivity. Qed.

Lemma ends_with_sep_app a b : b ≠ "" → ends_with_sep (a +:+ b) = ends_with_sep b.
Proof.
  intros Hb. induction a as [|c a IH]; [done|].
  rewrite append_cons. simpl. rewrite IH.
  destruct (a +:+ b) eqn:E; [|done].
  destruct a; [by rewrite append_nil in E|by rewrite append_cons in E].
Qed.

Lemma join_step_relative path b :
  path ≠ "" → ends_with_sep path = false → starts_with_sep b = false →
  join_step path b = path +:+ "/" +:+ b.
Proof.
  intros Hp He Hb. unfold join_step. rewrite Hb, He.
  destruct (String.eqb_spec path ""); [done|done].
Qed.

Lemma append_nonempty a b : b ≠ "" → a +:+ b ≠ "".
Proof. destruct a; [done|]. by rewrite append_cons. Qed.

Lemma append_assoc (a b c : string) : (a +:+ b) +:+ c = a +:+ (b +:+ c).
Proof. induction a as [|x a IH]; [done|]. rewrite !append_cons. by rewrite IH. Qed.

(** X3.  The state directory [_run_terraform_command] uses.  An
    environment name that starts with a slash is the directory itself: the
    project root is dropped by [os.path.join].  For any other name, and a
    non-empty project root without a trailing slash, it is
    [<root>/terraform/environments/<env>]. *)
Theorem terraform_dir_shape (W : world) (env : string) :
  (starts_with_sep env = true → terraform_dir W env = env) ∧
  (starts_with_sep env = false → project_root W ≠ "" →
   ends_with_sep (project_root W) = false →
   terraform_dir W env = project_root W +:+ "/terraform/environments/" +:+ env).
Proof.
  unfold terraform_dir, os_path_join. simpl. split.
  - intros He. unfold join_step at 1. by rewrite He.
  - intros He Hne Hend.
    rewrite (join_step_relative (project_root W) "terraform") by done.
    rewrite (join_step_relative _ "environments"); [| |by rewrite ends_with_sep_app|done].
    2: { by apply append_nonempty. }
    rewrite (join_step_relative _ env); [| |by rewrite ends_with_sep_app|done].
    2: { by apply append_nonempty. }
    by rewrite !append_assoc.
Qed.

End StateDirectory.

(** ** Records extracted from the outputs of the tool *)

Section ExtractRecord.
Import TerraformInventory.

(** X4.  When the four outputs can be read and [public_ip] is not empty,
    [_extract_host_info_from_terraform] gives a record of exactly eight
    fields: the address, user [ubuntu], the environment, the three other
    outputs ([None] when absent), the SSH arguments, and the key file
    [~/.ssh/<key_name>.pem], which is [~/.ssh/None.pem] when there is no
    [key_name] output.  The record has no [source] field. *)
Theorem extract_terraform_record (env : string) (outputs : json_doc)
    (ip : string) (private_ip instance_id key_name : option string) :
  output_value outputs "public_ip" = Ok (Some ip) → ip ≠ "" →
  output_value outputs "private_ip" = Ok private_ip →
  output_value outputs "instance_id" = Ok instance_id →
  output_value outputs "key_name" = Ok key_name →
  ∃ hi, _extract_host_info_from_terraform env outputs = Some hi ∧
    hi !! "ansible_host" = Some (PStr ip) ∧
    hi !! "ansible_user" = Some (PStr "ubuntu") ∧
    hi !! "ansible_ssh_private_key_file" =
      Some (PStr ("~/.ssh/" +:+ default "None" key_name +:+ ".pem")) ∧
    hi !! "environment" = Some (PStr env) ∧
    hi !! "private_ip" = Some (of_opt private_ip) ∧
    hi !! "instance_id" = Some (of_opt instance_id) ∧
    hi !! "key_name" = Some (of_opt key_name) ∧
    hi !! "ansible_ssh_common_args" = Some (PStr ssh_args) ∧
    hi !! "source" = None ∧
    size hi = 8.
Proof.
  intros Hip Hne Hpriv Hid Hkey. unfold _extract_host_info_from_terraform.
  rewrite Hip, Hpriv, Hid, Hkey. simpl.
  destruct (String.eqb_spec ip ""); [done|]. simpl.
  eexists. split; [done|]. by destruct key_name.
Qed.

(** X4 on outputs that give a public address and nothing else. *)
Lemma extract_terraform_record_witness :
  let outputs : json_doc := {[ "public_ip" := Some {[ "value" := Some "1.2.3.4" ]} ]} in
  ∃ hi, _extract_host_info_from_terraform "dev" outputs = Some hi ∧
        hi !! "ansible_ssh_private_key_file" = Some (PStr "~/.ssh/None.pem") ∧
        hi !! "key_name" = Some PNone.
Proof.
  intros outputs.
  destruct (extract_terraform_record "dev" outputs "1.2.3.4" None None None)
    as (hi & Hx & _ & _ & Hfile & _ & _ & _ & Hkey & _);
    [by vm_compute|done|by vm_compute..|].
  by exists hi.
Defined.

(** X5.  When one of the four outputs read by
    [_extract_host_info_from_terraform] is present but [null], the
    extraction gives [None] (the [AttributeError] of [.get] on [None] is
    caught), whatever the other outputs are. *)
Theorem extract_terraform_null_member (env : string) (outputs : json_doc) (k : string) :
  k ∈ ["public_ip"; "private_ip"; "instance_id"; "key_name"] →
  outputs !! k = Some None →
  _extract_host_info_from_terraform env outputs = None.
Proof.
  intros Hk Hnull.
  assert (output_value outputs k = Raise AttributeError) as Hr.
  { unfold output_value. by rewrite Hnull. }
  unfold _extract_host_info_from_terraform.
  rewrite !elem_of_cons in Hk.
  destruct Hk as [->|[->|[->|[->|Hk]]]]; [..|by apply elem_of_nil in Hk];
    rewrite Hr;
    repeat match goal with
           | |- context [match output_value ?o ?x with _ => _ end] =>
               destruct (output_value o x)
           end; done.
Qed.

(** X5 on outputs whose [key_name] member is [null]. *)
Lemma extract_terraform_null_member_witness :
  let outputs : json_doc :=
    {[ "public_ip" := Some {[ "value" := Some "1.2.3.4" ]}; "key_name" := None ]} in
  _extract_host_info_from_terraform "dev" outputs = None.
Proof.
  intros outputs.
  apply (extract_terraform_null_member "dev" outputs "key_name").
  - do 3 right. left.
  - by vm_compute.
Defined.

End ExtractRecord.

(** ** Tags *)

Section Tags.
Import TerraformInventory.

Lemma tags_map_absent l m k :
  (∀ t, t ∈ l → Key t ≠ k) → tags_map l m !! k = m !! k.
Proof.
  unfold tags_map. revert m. induction l as [|t l IH]; intros m Hl; [done|].
  simpl. rewrite IH.
  - rewrite lookup_insert_ne; [done|]. apply Hl. left.
  - intros t' Ht'. apply Hl. by right.
Qed.

Lemma tags_map_last l1 t l2 m :
  (∀ t', t' ∈ l2 → Key t' ≠ Key t) →
  tags_map (l1 ++ t :: l2) m !! Key t = Some (Value t).
Proof.
  intros Hl2. unfold tags_map. rewrite foldl_app. simpl.
  fold (tags_map l2 (<[Key t:=Value t]> (foldl (λ m t, <[Key t:=Value t]> m) m l1))).
  rewrite tags_map_absent by done. apply lookup_insert_eq.
Qed.

Lemma find_first (l1 : list tag) t l2 k :
  (∀ t', t' ∈ l1 → Key t' ≠ k) → Key t = k →
  List.find (fun t => String.eqb (Key t) k) (l1 ++ t :: l2) = Some t.
Proof.
  intros Hl1 Hk. induction l1 as [|t' l1 IH]; simpl.
  - by rewrite Hk, String.eqb_refl.
  - destruct (String.eqb_spec (Key t') k) as [E|_].
    + exfalso. eapply Hl1; [left|done].
    + apply IH. intros x Hx. apply Hl1. by right.
Qed.

Lemma find_none (l : list tag) k :
  (∀ t, t ∈ l → Key t ≠ k) →
  List.find (fun t => String.eqb (Key t) k) l = None.
Proof.
  induction l as [|t l IH]; intros Hl; simpl; [done|].
  destruct (String.eqb_spec (Key t) k) as [E|_].
  - exfalso. eapply Hl; [left|done].
  - apply IH. intros x Hx. apply Hl. by right.
Qed.

(** X6.  Which tag decides when a key occurs more than once: for
    [EC2Inventory] the last tag with the key (the dict comprehension of
    [_process_instance]), for the fallback of [TerraformInventory] the
    first [Environment] tag (the loop of [_extract_host_info_from_ec2]
    breaks there). *)
Theorem tag_resolution (i : instance) (l1 l2 : list tag) (t : tag) :
  Tags i = l1 ++ t :: l2 →
  ((∀ t', t' ∈ l2 → Key t' ≠ Key t) →
   EC2Inventory.tags_dict i !! Key t = Some (Value t)) ∧
  (Key t = "Environment" → (∀ t', t' ∈ l1 → Key t' ≠ "Environment") →
   env_tag i = Some (Value t)).
Proof.
  intros Htags. split.
  - intros Hl2. unfold EC2Inventory.tags_dict. rewrite Htags.
    by apply (tags_map_last l1 t l2 ∅).
  - intros Hk Hl1. unfold env_tag. rewrite Htags.
    by rewrite (find_first l1 t l2 "Environment").
Qed.

(** X6 on an instance with two [Environment] tags, [dev] then [prod]. *)
Lemma tag_resolution_witness :
  let i := {| Tags := [ {| Key := "Environment"; Value := "dev" |};
                        {| Key := "Environment"; Value := "prod" |} ];
              KeyName := None; PublicIpAddress := Some "203.0.113.7";
              PrivateIpAddress := None; InstanceId := None;
              InstanceType := None; Placement := None |} in
  EC2Inventory.tags_dict i !! "Environment" = Some "prod" ∧
  env_tag i = Some "dev".
Proof.
  intros i. split.
  - refine (proj1 (tag_resolution i [ {| Key := "Environment"; Value := "dev" |} ] []
                     {| Key := "Environment"; Value := "prod" |} eq_refl) _).
    by intros t' ?%elem_of_nil.
  - refine (proj2 (tag_resolution i [] [ {| Key := "Environment"; Value := "prod" |} ]
                     {| Key := "Environment"; Value := "dev" |} eq_refl) eq_refl _).
    by intros t' ?%elem_of_nil.
Defined.

Lemma unique_key_lookup (l : list tag) k :
  NoDup (Key <$> l) →
  tags_map l ∅ !! k = Value <$> List.find (fun t => String.eqb (Key t) k) l.
Proof.
  intros Hnd.
  destruct (decide (k ∈ Key <$> l)) as [Hin|Hout].
  - apply list_elem_of_fmap in Hin as (t & -> & Ht).
    apply list_elem_of_split in Ht as (l1 & l2 & ->).
    rewrite fmap_app, fmap_cons in Hnd.
    apply NoDup_app in Hnd as (_ & Hdisj & Hnd2).
    apply NoDup_cons in Hnd2 as [Hnot _].
    rewrite tags_map_last.
    + rewrite (find_first l1 t l2 (Key t)); [done| |done].
      intros t' Ht' E. apply (Hdisj (Key t')).
      * apply list_elem_of_fmap. eauto.
      * rewrite E. left.
    + intros t' Ht' E. apply Hnot. apply list_elem_of_fmap. eauto.
  - rewrite tags_map_absent, find_none; [done| |].
    + intros t Ht E. apply Hout. apply list_elem_of_fmap. eauto.
    + intros t Ht E. apply Hout. apply list_elem_of_fmap. eauto.
Qed.

(** X7.  With tag keys that are unique, the two generators read the same
    environment from an instance, and [_process_instance] takes the
    instance exactly when [_extract_host_info_from_ec2] gives a record. *)
Theorem generators_agree_on_unique_tags (i : instance) :
  NoDup (Key <$> Tags i) →
  EC2Inventory.tags_dict i !! "Environment" = env_tag i ∧
  (is_Some (accepted i) ↔ is_Some (_extract_host_info_from_ec2 i)).
Proof.
  intros Hnd.
  assert (EC2Inventory.tags_dict i !! "Environment" = env_tag i) as Henv.
  { unfold EC2Inventory.tags_dict, env_tag. by apply unique_key_lookup. }
  split; [done|]. unfold accepted, _extract_host_info_from_ec2. rewrite Henv.
  unfold truthy.
  destruct (env_tag i) as [e|]; simpl.
  2: { split; intros [? ?]; done. }
  destruct (PublicIpAddress i) as [ip|]; simpl.
  2: { destruct (String.eqb e ""); simpl; split; intros [? ?]; done. }
  destruct (String.eqb e ""), (String.eqb ip ""); simpl;
    split; intros [? ?]; first [done|by eexists].
Qed.

(** X7 on the sample instance of [dev]. *)
Lemma generators_agree_on_unique_tags_witness :
  let i := Samples.web "dev" (Some "203.0.113.7") None in
  EC2Inventory.tags_dict i !! "Environment" = env_tag i.
Proof.
  intros i. refine (proj1 (generators_agree_on_unique_tags i _)).
  apply NoDup_singleton.
Defined.

(** X8.  An instance whose [Environment] tag is missing or empty is passed
    over: [_process_instance] leaves the state as it is, and so does the
    round of the fallback loop, [_extract_host_info_from_ec2] giving
    [None]. *)
Theorem no_environment_no_record (i : instance) :
  (truthy (EC2Inventory.tags_dict i !! "Environment") = false →
   ∀ s, EC2Inventory._process_instance i s = (Ok tt, s)) ∧
  (truthy (env_tag i) = false →
   _extract_host_info_from_ec2 i = None ∧
   ∀ e s, fallback_step e i s = (Ok tt, s)).
Proof.
  split.
  - intros He s. unfold EC2Inventory._process_instance, try_except.
    rewrite process_instance_body_skip; [done|]. unfold accepted.
    destruct (EC2Inventory.tags_dict i !! "Environment") as [e|]; [|done].
    simpl in He. destruct (PublicIpAddress i); [|done].
    by destruct (String.eqb e "").
  - intros He.
    assert (_extract_host_info_from_ec2 i = None) as Hx.
    { unfold _extract_host_info_from_ec2. by rewrite He. }
    split; [done|]. intros e s. unfold fallback_step. by rewrite Hx.
Qed.

(** X8 on an instance that has a [Name] tag only. *)
Lemma no_environment_no_record_witness :
  let i := {| Tags := [ {| Key := "Name"; Value := "web" |} ];
              KeyName := None; PublicIpAddress := Some "203.0.113.7";
              PrivateIpAddress := None; InstanceId := None;
              InstanceType := None; Placement := None |} in
  EC2Inventory._process_instance i (init_state "/") = (Ok tt, init_state "/") ∧
  fallback_step None i (init_state "/") = (Ok tt, init_state "/").
Proof.
  intros i. split.
  - exact (proj1 (no_environment_no_record i) eq_refl (init_state "/")).
  - exact (proj2 (proj2 (no_environment_no_record i) eq_refl) None (init_state "/")).
Defined.

Lemma get_append_cons c a n :
  String.get (S n) (String c a) = String.get n a.
Proof. reflexivity. Qed.

(** X9.  The name of the instance-type group built by [_process_instance]
    has no [.] at any position. *)
Theorem type_group_has_no_dot (i : instance) (n : nat) :
  String.get n (EC2Inventory.type_group i) ≠ Some "."%char.
Proof.
  unfold EC2Inventory.type_group.
  set (t := default "unknown" (InstanceType i)).
  do 5 (destruct n as [|n]; [done|]).
  change (String.get n (str_replace "." "_" t) ≠ Some "."%char).
  rewrite str_replace_get.
  destruct (String.get n t) as [c|]; simpl; [|done].
  destruct (Ascii.eqb_spec c "."); [done|]. by intros [= ->].
Qed.

End Tags.

(** ** Documents of the API-backed generator *)

Section EC2Documents.
Import EC2Inventory.

Lemma member_hosts_of g h inv : member g h inv ↔ h ∈ hosts_of inv g.
Proof.
  unfold member, hosts_of. split.
  - by intros (l & v & -> & Hin).
  - destruct (inv !! g) as [[m|[l|] v]|]; try (by intros ?%elem_of_nil).
    intros Hin. by exists l, v.
Qed.

Lemma process_instance_hostvars i s :
  meta_ok (inventory s) →
  meta_ok (inventory (snd (_process_instance i s))) ∧
  hostvars_of (inventory (snd (_process_instance i s))) =
    match record_of i with
    | Some (h, hv) => <[h := hv]> (hostvars_of (inventory s))
    | None => hostvars_of (inventory s)
    end.
Proof.
  intros [m Hm]. unfold _process_instance, try_except, record_of.
  destruct (accepted i) as [[e ip]|] eqn:Hacc.
  2: { rewrite process_instance_body_skip by done. simpl. split; [by exists m|done]. }
  rewrite (process_instance_body_accepted _ _ _ s Hacc).
  set (h := instance_hostname i e).
  set (hv := host_vars_of i e ip (tags_dict i)).
  unfold bind. pose proof (set_hostvars_cases h hv s) as Hset. rewrite Hm in Hset.
  rewrite Hset. set (s0 := set_inventory _ s).
  destruct (add_to_groups (instance_groups i e) h s0) as [r s'] eqn:Hadd.
  assert (inventory s' !! "_meta" = Some (Meta (<[h := hv]> m))) as Hmeta.
  { eapply (add_to_groups_meta _ _ _ s0); [|exact Hadd].
    subst s0. simpl. by rewrite lookup_insert_eq. }
  assert (hostvars_of (inventory s') = <[h := hv]> (hostvars_of (inventory s))) as Hv.
  { unfold hostvars_of. by rewrite Hmeta, Hm. }
  destruct r as [[]|x]; simpl; (split; [by eexists|done]).
Qed.

Lemma for_each_hostvars l s :
  meta_ok (inventory s) →
  hostvars_of (inventory (snd (for_each l _process_instance s))) =
    store_records l (hostvars_of (inventory s)).
Proof.
  revert s. induction l as [|i l IH]; intros s Hm; [done|]. simpl. unfold bind.
  pose proof (process_instance_returns i s) as Hret.
  pose proof (process_instance_hostvars i s Hm) as [Hm1 Hv1].
  destruct (_process_instance i s) as [r s1]. simpl in *. subst r.
  rewrite IH by done. by rewrite Hv1.
Qed.

Lemma store_records_last l1 i l2 m h hv :
  record_of i = Some (h, hv) →
  (∀ j hj, j ∈ l2 → record_of j = Some hj → hj.1 ≠ h) →
  store_records (l1 ++ i :: l2) m !! h = Some hv.
Proof.
  intros Hi Hl2. unfold store_records. rewrite foldl_app. simpl. rewrite Hi.
  set (m1 := foldl _ m l1). clearbody m1.
  assert (<[h := hv]> m1 !! h = Some hv) as H0 by apply lookup_insert_eq.
  revert H0. generalize (<[h := hv]> m1). clear m1.
  induction l2 as [|j l2 IH]; intros m' Hm'; [done|]. simpl.
  apply IH.
  - intros k hk Hk. apply Hl2. by right.
  - destruct (record_of j) as [[hj hvj]|] eqn:Hj; [|done].
    rewrite lookup_insert_ne; [done|]. apply (Hl2 j (hj, hvj)); [left|done].
Qed.

Lemma store_records_from l m h hv :
  store_records l m !! h = Some hv →
  m !! h = Some hv ∨ ∃ i, i ∈ l ∧ record_of i = Some (h, hv).
Proof.
  revert m. induction l as [|i l IH]; intros m; [by left|]. simpl.
  intros H. apply IH in H as [H|(j & Hj & Hr)].
  - destruct (record_of i) as [[hi hvi]|] eqn:Hi; [|by left].
    rewrite lookup_insert in H. case_decide as E; [|by left].
    subst. injection H as <-. right. exists i. split; [left|done].
  - right. exists j. split; [by right|done].
Qed.

(** Where a listed hostname comes from. *)
Lemma add_to_group_hosts g h s x g' :
  x ∈ hosts_of (inventory (snd (_add_to_group g h s))) g' →
  x ∈ hosts_of (inventory s) g' ∨ (x = h ∧ g' = g).
Proof.
  pose proof (add_to_group_cases g h s) as Hc.
  destruct (decide (g' = g)) as [->|Hne].
  - unfold hosts_of.
    destruct (inventory s !! g) as [[m|[l|] v]|] eqn:E.
    + destruct Hc as [e ->]. simpl. rewrite E. auto.
    + rewrite Hc. case_bool_decide; simpl; [rewrite E; auto|].
      rewrite lookup_insert_eq. rewrite elem_of_app, list_elem_of_singleton.
      intros [?| ->]; auto.
    + destruct Hc as [e ->]. simpl. rewrite E. auto.
    + rewrite Hc. simpl. rewrite lookup_insert_eq, list_elem_of_singleton.
      intros ->; auto.
  - destruct (_add_to_group g h s) as [r s'] eqn:E.
    apply add_to_group_result in E as (_ & _ & Hframe & _). simpl.
    unfold hosts_of. rewrite Hframe by done. auto.
Qed.

Lemma add_to_groups_hosts gs h s x g' :
  x ∈ hosts_of (inventory (snd (add_to_groups gs h s))) g' →
  x ∈ hosts_of (inventory s) g' ∨ (x = h ∧ g' ∈ gs).
Proof.
  revert s. induction gs as [|g gs IH]; intros s; [by left|].
  unfold add_to_groups. simpl. unfold bind.
  pose proof (add_to_group_hosts g h s x g') as H1.
  destruct (_add_to_group g h s) as [[[]|e] s1]; simpl in *.
  - intros H. apply IH in H as [H|[-> Hin]].
    + apply H1 in H as [H|[-> ->]]; [by left|]. right. split; [done|left].
    + right. split; [done|by right].
  - intros H. apply H1 in H as [H|[-> ->]]; [by left|]. right. split; [done|left].
Qed.

Lemma process_instance_hosts i s x g :
  x ∈ hosts_of (inventory (snd (_process_instance i s))) g →
  x ∈ hosts_of (inventory s) g ∨
  ∃ e ip, accepted i = Some (e, ip) ∧ x = instance_hostname i e ∧
          g ∈ instance_groups i e.
Proof.
  unfold _process_instance, try_except.
  destruct (accepted i) as [[e ip]|] eqn:Hacc.
  2: { rewrite process_instance_body_skip by done. by left. }
  rewrite (process_instance_body_accepted _ _ _ s Hacc).
  set (h := instance_hostname i e).
  set (hv := host_vars_of i e ip (tags_dict i)).
  unfold bind.
  destruct (set_hostvars h hv s) as [r0 s0] eqn:Hset.
  assert (∀ y, y ∈ hosts_of (inventory s0) g → y ∈ hosts_of (inventory s) g) as H0.
  { intros y. apply set_hostvars_result in Hset as (_ & _ & Hframe & Hr).
    unfold hosts_of. destruct (decide (g = "_meta")) as [->|Hne].
    - destruct r0 as [[]|e0]; [|by destruct Hr as [-> _]].
      destruct Hr as (m & _ & ->). by intros ?%elem_of_nil.
    - by rewrite Hframe. }
  destruct r0 as [[]|e0]; [|simpl; auto].
  pose proof (add_to_groups_hosts (instance_groups i e) h s0 x g) as H1.
  destruct (add_to_groups (instance_groups i e) h s0) as [[[]|e1] s1]; simpl in *;
    intros H; apply H1 in H as [H|[-> Hin]]; eauto 10.
Qed.

Lemma for_each_process_hosts l s x g :
  x ∈ hosts_of (inventory (snd (for_each l _process_instance s))) g →
  x ∈ hosts_of (inventory s) g ∨
  ∃ i e ip, i ∈ l ∧ accepted i = Some (e, ip) ∧ x = instance_hostname i e ∧
            g ∈ instance_groups i e.
Proof.
  revert s. induction l as [|i l IH]; intros s; [by left|]. simpl. unfold bind.
  pose proof (process_instance_returns i s) as Hret.
  pose proof (process_instance_hosts i s x g) as H1.
  destruct (_process_instance i s) as [r s1]. simpl in *. subst r.
  intros H. apply IH in H as [H|(j & e & ip & Hj & Hacc & -> & Hg)].
  - apply H1 in H as [H|(e & ip & Hacc & -> & Hg)]; [by left|].
    right. exists i, e, ip. split; [left|done].
  - right. exists j, e, ip. split; [by right|done].
Qed.

Lemma hosts_of_init g : hosts_of init_inventory g = [].
Proof.
  unfold hosts_of, init_inventory. destruct (decide (g = "_meta")) as [->|Hne].
  - by rewrite lookup_singleton_eq.
  - by rewrite lookup_singleton_ne.
Qed.

Lemma ec2_generate_state W region s :
  snd (generate_inventory W region s) =
  snd (for_each (listed_instances W region) _process_instance
         (record (DescribeInstances region ["running"]) s)).
Proof.
  rewrite ec2_generate_run. unfold listed_instances.
  by destruct (describe_instances W region ["running"]).
Qed.

(** X10.  The [hostvars] of a document of [EC2Inventory.generate_inventory]
    are the records of the instances taken, stored in the order of the
    reply: when two instances have the same hostname, the record of the
    later one replaces that of the earlier one. *)
Theorem ec2_hostvars_last_wins (W : world) (region d : string) :
  let inv := inventory (snd (generate_inventory W region (init_state d))) in
  hostvars_of inv = store_records (listed_instances W region) ∅ ∧
  ∀ l1 i l2 h hv,
    listed_instances W region = l1 ++ i :: l2 →
    record_of i = Some (h, hv) →
    (∀ j hj, j ∈ l2 → record_of j = Some hj → hj.1 ≠ h) →
    hostvars_of inv !! h = Some hv.
Proof.
  intros inv.
  assert (hostvars_of inv = store_records (listed_instances W region) ∅) as Hv.
  { unfold inv. rewrite ec2_generate_state. rewrite for_each_hostvars; [done|].
    by eexists. }
  split; [done|]. intros l1 i l2 h hv Hl Hi Hl2. rewrite Hv, Hl.
  by apply store_records_last.
Qed.

(** X11.  Every hostname in a host list of a document of
    [EC2Inventory.generate_inventory] is the hostname of an instance of the
    reply that was taken, and the group is one of the four groups of that
    instance. *)
Theorem ec2_groups_sound (W : world) (region d g h : string) :
  h ∈ hosts_of (inventory (snd (generate_inventory W region (init_state d)))) g →
  ∃ i e ip, i ∈ listed_instances W region ∧ accepted i = Some (e, ip) ∧
            h = instance_hostname i e ∧ g ∈ instance_groups i e.
Proof.
  rewrite ec2_generate_state. intros H.
  apply for_each_process_hosts in H as [H|H]; [|done].
  simpl in H. rewrite hosts_of_init in H. by apply elem_of_nil in H.
Qed.

(** X11 on the one sample instance of [dev], type [t3.micro]. *)
Lemma ec2_groups_sound_witness :
  let W := Samples.api_only [Samples.web "dev" (Some "203.0.113.7") (Some "t3.micro")] in
  ∃ i e ip, i ∈ listed_instances W "eu-west-1" ∧ accepted i = Some (e, ip) ∧
            "dev-unknown" = instance_hostname i e ∧
            "type_t3_micro" ∈ instance_groups i e.
Proof.
  intros W. apply (ec2_groups_sound W "eu-west-1" "/" "type_t3_micro" "dev-unknown").
  vm_compute. left.
Defined.

(** X12.  In a document of [EC2Inventory.generate_inventory] the hosts
    with a record, the hosts of [all] and the hosts of [web_servers] are
    the same, and every host of any list has a record. *)
Theorem ec2_document_consistent (W : world) (region d h : string) :
  let inv := inventory (snd (generate_inventory W region (init_state d))) in
  (known_host h inv ↔ h ∈ hosts_of inv "all") ∧
  (known_host h inv ↔ h ∈ hosts_of inv "web_servers") ∧
  (∀ g, h ∈ hosts_of inv g → known_host h inv).
Proof.
  intros inv.
  assert (∀ i e ip, i ∈ listed_instances W region → accepted i = Some (e, ip) →
            known_host (instance_hostname i e) inv ∧
            instance_hostname i e ∈ hosts_of inv "all" ∧
            instance_hostname i e ∈ hosts_of inv "web_servers") as Hin.
  { intros i e ip Hi Hacc. unfold inv. rewrite ec2_generate_state.
    pose proof (for_each_process_inserts (listed_instances W region)
                  (record (DescribeInstances region ["running"]) (init_state d))
                  i e ip regular_init Hi Hacc) as (Hk & Ha & Hw & _).
    by rewrite <- !member_hosts_of. }
  assert (∀ g, h ∈ hosts_of inv g → known_host h inv) as Hsound.
  { intros g Hg. unfold inv in Hg. rewrite ec2_generate_state in Hg.
    apply for_each_process_hosts in Hg as [Hg|(i & e & ip & Hi & Hacc & -> & _)].
    - simpl in Hg. rewrite hosts_of_init in Hg. by apply elem_of_nil in Hg.
    - by apply (Hin i e ip). }
  assert (known_host h inv →
          h ∈ hosts_of inv "all" ∧ h ∈ hosts_of inv "web_servers") as Hcomplete.
  { intros [hv Hhv]. unfold inv in Hhv. rewrite ec2_generate_state in Hhv.
    rewrite for_each_hostvars in Hhv by (by eexists).
    apply store_records_from in Hhv as [Hhv|(i & Hi & Hr)].
    - change ((∅ : gmap string (gmap string pyval)) !! h = Some hv) in Hhv.
      by rewrite lookup_empty in Hhv.
    - unfold record_of in Hr. destruct (accepted i) as [[e ip]|] eqn:Hacc; [|done].
      injection Hr as <- _. by apply (Hin i e ip). }
  split; [|split; [|done]]; split; try (by apply Hsound); intros Hk;
    by apply Hcomplete in Hk as [? ?].
Qed.

(** X13.  With [--source ec2] and [--list] or a non-empty [--host], [main]
    ends with status 0, whatever the surroundings do; in list mode it
    prints a document, which is the initial one ([_meta] with empty
    [hostvars]) when the API call fails. *)
Theorem ec2_run_never_fails (W : world) (a : CLI.args) (d : string) :
  CLI.source a = CLI.ec2 →
  CLI.list_flag a = true ∨ truthy (CLI.host a) = true →
  CLI.exit_code (fst (CLI.main W a d)) = 0%Z ∧
  (CLI.list_flag a = true →
   ∃ inv, CLI.stdout (fst (CLI.main W a d)) = inl (CLI.PrintInventory inv) ∧
          (describe_instances W (CLI.region a) ["running"] = None →
           inv = init_inventory)).
Proof.
  intros Hsrc Hmode. unfold CLI.main. rewrite Hsrc.
  pose proof (ec2_generate_run W (CLI.region a) (init_state d)) as Hrun.
  simpl in Hrun.
  destruct (CLI.list_flag a) eqn:Hlist.
  - rewrite Hrun. destruct (describe_instances W (CLI.region a) ["running"]); simpl.
    + split; [done|]. intros _. eexists. split; [done|]. done.
    + split; [done|]. intros _. eexists. split; [done|]. done.
  - destruct Hmode as [?|Hhost]; [done|]. rewrite Hhost. split; [|done].
    unfold bind. rewrite Hrun.
    pose proof (ec2_generate_meta W (CLI.region a) (init_state d) regular_init) as Hm.
    rewrite Hrun in Hm.
    destruct (describe_instances W (CLI.region a) ["running"]); simpl in *;
      destruct Hm as [m Hm]; unfold hostvars_get; run_monad; by rewrite Hm.
Qed.

(** X13 where the API call fails. *)
Lemma ec2_run_never_fails_witness :
  let a := {| CLI.list_flag := true; CLI.host := None; CLI.env := None;
              CLI.source := CLI.ec2; CLI.region := "eu-west-1";
              CLI.verbose := false |} in
  CLI.exit_code (fst (CLI.main Samples.failing_tool a "/")) = 0%Z.
Proof.
  intros a.
  exact (proj1 (ec2_run_never_fails Samples.failing_tool a "/" eq_refl (or_introl eq_refl))).
Defined.

End EC2Documents.

(** ** Documents of the state-backed generator *)

Section StateDocuments.
Import TerraformInventory.

Lemma run_terraform_command_missing W env command s :
  path_exists W (terraform_dir W env) = false →
  _run_terraform_command W env command s = (Ok None, s).
Proof.
  unfold terraform_dir, _run_terraform_command. cbv zeta. by intros ->.
Qed.

Lemma env_step_missing W env k s :
  path_exists W (terraform_dir W env) = false → env_step W env k s = (Ok k, s).
Proof.
  intros Hp. unfold env_step, _check_terraform_state, bind.
  by rewrite run_terraform_command_missing.
Qed.

Lemma env_loop_missing W envs k s :
  (∀ env, env ∈ envs → path_exists W (terraform_dir W env) = false) →
  env_loop W envs k s = (Ok k, s).
Proof.
  revert k s. induction envs as [|env envs IH]; intros k s Hp; [done|].
  simpl. unfold bind. rewrite env_step_missing by (apply Hp; left).
  apply IH. intros env' Hin. apply Hp. by right.
Qed.

(** X15.  When no environment of the working set has a state directory
    and the fallback finds no instance, [TerraformInventory.generate_inventory]
    returns the initial document, leaves the working directory alone and
    has made the one fallback query and run no subprocess; [main] in list
    mode prints that document with status 0. *)
Theorem nothing_found_empty_document (W : world) (e : option string) (d : string) :
  (∀ env, env ∈ working_set e → path_exists W (terraform_dir W env) = false) →
  fallback_instances W = [] →
  generate_inventory W e (init_state d) =
    (Ok init_inventory,
     {| inventory := init_inventory; cwd := d;
        trace := [DescribeInstances default_region ["running"; "pending"]] |}) ∧
  ∀ a, CLI.source a = CLI.terraform → CLI.list_flag a = true → CLI.env a = e →
       fst (CLI.main W a d) =
         {| CLI.stdout := inl (CLI.PrintInventory init_inventory);
            CLI.exit_code := 0 |}.
Proof.
  intros Hp Hnone.
  assert (generate_inventory W e (init_state d) =
    (Ok init_inventory,
     {| inventory := init_inventory; cwd := d;
        trace := [DescribeInstances default_region ["running"; "pending"]] |})) as Hgen.
  { rewrite generate_inventory_unfold. rewrite env_loop_missing by done.
    simpl. by rewrite Hnone. }
  split; [done|]. intros a Hsrc Hlist <-. unfold CLI.main.
  by rewrite Hlist, Hsrc, Hgen.
Qed.

(** X15 where no directory exists and the API lists nothing. *)
Lemma nothing_found_empty_document_witness :
  fst (generate_inventory (Samples.api_only []) None (init_state "/")) =
    Ok init_inventory.
Proof.
  refine (f_equal fst (proj1 (nothing_found_empty_document (Samples.api_only []) None "/" _ _))).
  - by intros env _.
  - reflexivity.
Defined.

Lemma listable_init : listable init_inventory.
Proof.
  split; [by eexists|]. intros g Hg _. unfold no_hosts, init_inventory.
  rewrite lookup_singleton_ne by done. tauto.
Qed.

Lemma set_hostvars_listable h hv s :
  listable (inventory s) →
  ∃ s', set_hostvars h hv s = (Ok tt, s') ∧ listable (inventory s').
Proof.
  intros [[m Hm] Hl]. pose proof (set_hostvars_cases h hv s) as Hc.
  rewrite Hm in Hc. eexists. split; [done|]. simpl. split.
  - eexists. by rewrite lookup_insert_eq.
  - intros g Hg Ha. unfold no_hosts. rewrite lookup_insert_ne by done. by apply Hl.
Qed.

Lemma ensure_append_listable g h v s :
  listable (inventory s) → g ≠ "_meta" → g ≠ "all" →
  ∃ s', (ensure_group g (Group (Some []) v) >> append_host g h) s = (Ok tt, s') ∧
        listable (inventory s').
Proof.
  intros [[m Hm] Hl] Hg Ha. unfold ensure_group, append_host. run_monad.
  pose proof (Hl g Hg Ha) as Hno. unfold no_hosts in Hno.
  destruct (inventory s !! g) as [[m'|[l|] v']|] eqn:E; simpl; try tauto.
  - rewrite E. eexists. split; [done|]. simpl. split.
    + exists m. rewrite lookup_insert_ne; [done|congruence].
    + intros g' Hg' Ha'. unfold no_hosts. rewrite lookup_insert.
      case_decide; [tauto|]. by apply Hl.
  - rewrite lookup_insert_eq. eexists. split; [done|]. simpl. split.
    + exists m. rewrite !lookup_insert_ne; [done|congruence|congruence].
    + intros g' Hg' Ha'. unfold no_hosts. rewrite insert_insert_eq, lookup_insert.
      case_decide; [tauto|]. by apply Hl.
Qed.

Lemma ensure_all_listable s :
  listable (inventory s) →
  ∃ s', ensure_group "all" (Group None (Some all_vars)) s = (Ok tt, s') ∧
        listable (inventory s').
Proof.
  intros Hall. pose proof Hall as [[m Hm] Hl]. unfold ensure_group. run_monad.
  destruct (inventory s !! "all") eqn:E; simpl; eexists; (split; [done|]);
    [done|]. simpl. split.
  - exists m. by rewrite lookup_insert_ne.
  - intros g Hg Ha. unfold no_hosts. rewrite lookup_insert_ne by done. by apply Hl.
Qed.

Lemma add_host_listable env hi s :
  listable (inventory s) → env ≠ "_meta" → env ≠ "all" →
  ∃ s', _add_host_to_inventory env hi s = (Ok tt, s') ∧ listable (inventory s').
Proof.
  intros Hl Hm Ha. unfold _add_host_to_inventory.
  destruct (set_hostvars_listable (env +:+ "-web-server") hi s Hl) as (s1 & E1 & Hl1).
  destruct (ensure_append_listable "web_servers" (env +:+ "-web-server") (Some ∅) s1 Hl1)
    as (s2 & E2 & Hl2); [done|done|].
  destruct (ensure_append_listable env (env +:+ "-web-server")
              (Some {["environment" := PStr env]}) s2 Hl2 Hm Ha) as (s3 & E3 & Hl3).
  destruct (ensure_all_listable s3 Hl3) as (s4 & E4 & Hl4).
  exists s4. split; [|done]. unfold bind in *. rewrite E1.
  destruct (ensure_group "web_servers" _ s1) as [[[]|x] s1'] eqn:F1; [|done].
  rewrite E2.
  destruct (ensure_group env _ s2) as [[[]|x] s2'] eqn:F2; [|done].
  by rewrite E3.
Qed.

Lemma env_loop_listable W envs k s :
  listable (inventory s) →
  (∀ env, env ∈ envs → env ≠ "_meta" ∧ env ≠ "all") →
  ∃ n s', env_loop W envs k s = (Ok n, s') ∧ listable (inventory s').
Proof.
  revert k s. induction envs as [|env envs IH]; intros k s Hl Henvs; simpl.
  { by eexists _, _. }
  unfold bind. pose proof (env_step_spec W env k s) as (_ & Hr).
  destruct (env_step W env k s) as [r s1]. simpl in Hr.
  assert (∃ k1, r = Ok k1 ∧ listable (inventory s1)) as (k1 & -> & Hl1).
  { destruct Hr as [[-> Hi]|(outputs & hi & s2 & r2 & Hi2 & _ & _ & Ha & Hres)].
    - exists k. by rewrite Hi.
    - destruct (Henvs env) as [Hm Hall]; [left|].
      destruct (add_host_listable env hi s2) as (s3 & E & Hl3); [by rewrite Hi2|done..|].
      rewrite E in Ha. injection Ha as <- <-. by exists (S k). }
  apply IH; [done|]. intros env' Hin. apply Henvs. by right.
Qed.

Lemma fallback_listable e l s :
  listable (inventory s) →
  (∀ i env, i ∈ l → env_tag i = Some env → env ≠ "_meta" ∧ env ≠ "all") →
  ∃ s', for_each l (fallback_step e) s = (Ok tt, s') ∧ listable (inventory s').
Proof.
  revert s. induction l as [|i l IH]; intros s Hl Htags; simpl.
  { by eexists. }
  unfold bind.
  assert (∃ s1, fallback_step e i s = (Ok tt, s1) ∧ listable (inventory s1))
    as (s1 & -> & Hl1).
  { destruct (fallback_step_cases e i s) as [->|(env & hi & _ & Ht & _ & _ & ->)];
      [by eexists|].
    destruct (Htags i env) as [Hm Ha]; [left|done|]. by apply add_host_listable. }
  apply IH; [done|]. intros j env Hj. apply Htags. by right.
Qed.

(** X16.  [TerraformInventory.generate_inventory] returns (it raises no
    exception) and returns its own document, provided neither the
    environment filter nor the [Environment] tag of an instance of the
    fallback is one of the reserved keys [_meta] and [all]. *)
Theorem generate_inventory_returns (W : world) (e : option string) (d : string) :
  (∀ env, e = Some env → env ≠ "_meta" ∧ env ≠ "all") →
  (∀ i env, i ∈ fallback_instances W → env_tag i = Some env →
            env ≠ "_meta" ∧ env ≠ "all") →
  ∃ s', generate_inventory W e (init_state d) = (Ok (inventory s'), s').
Proof.
  intros He Htags. rewrite generate_inventory_unfold.
  destruct (env_loop_listable W (working_set e) 0 (init_state d) listable_init)
    as (n & s1 & E & Hl1).
  { intros env. unfold working_set, terraform_environments.
    destruct e as [env'|]; simpl.
    - destruct (String.eqb env' ""); simpl.
      + rewrite !elem_of_cons, elem_of_nil. by intros [->|[->|[->|[]]]].
      + rewrite list_elem_of_singleton. intros ->. by apply He.
    - rewrite !elem_of_cons, elem_of_nil. by intros [->|[->|[->|[]]]]. }
  rewrite E. simpl. destruct n as [|n]; [|by eexists].
  set (s2 := record _ s1).
  destruct (fallback_listable e (fallback_instances W) s2 Hl1 Htags) as (s3 & -> & _).
  by eexists.
Qed.

(** X16 where the fallback finds one instance of [dev]. *)
Lemma generate_inventory_returns_witness :
  ∃ s', generate_inventory
          (Samples.api_only [Samples.web "dev" (Some "203.0.113.7") None])
          None (init_state "/") = (Ok (inventory s'), s').
Proof.
  apply generate_inventory_returns.
  - by intros env.
  - intros i env Hi. apply list_elem_of_singleton in Hi as ->.
    by intros [= <-].
Defined.

Lemma grows_all_records P h hi s s' :
  P hi → grows h hi s s' →
  all_records P (inventory s) → all_records P (inventory s').
Proof.
  intros Hhi (_ & _ & [E|E] & _) Hall h' hv; rewrite E; [by apply Hall|].
  rewrite lookup_insert. case_decide; [|by apply Hall].
  by intros [= <-].
Qed.

Lemma extract_terraform_source env outputs hi :
  _extract_host_info_from_terraform env outputs = Some hi → hi !! "source" = None.
Proof.
  unfold _extract_host_info_from_terraform.
  destruct (output_value outputs "public_ip") as [public_ip|]; [|done].
  destruct (output_value outputs "private_ip") as [private_ip|]; [|done].
  destruct (output_value outputs "instance_id") as [instance_id|]; [|done].
  destruct (output_value outputs "key_name") as [key_name|]; [|done].
  destruct (truthy public_ip); simpl; [|done]. by intros [= <-].
Qed.

Lemma extract_ec2_source i hi :
  _extract_host_info_from_ec2 i = Some hi → hi !! "source" = Some (PStr "aws-api").
Proof.
  unfold _extract_host_info_from_ec2.
  destruct (truthy (env_tag i)); simpl; [|done].
  destruct (truthy (PublicIpAddress i)); simpl; [|done]. by intros [= <-].
Qed.

(** X17.  A document of [TerraformInventory.generate_inventory] never mixes
    sources: when the loop over the environments found no host, every
    record is marked [source = aws-api]; otherwise no record has a [source]
    field. *)
Theorem records_of_one_source (W : world) (e : option string) (d : string) :
  let inv := inventory (snd (generate_inventory W e (init_state d))) in
  match fst (env_loop W (working_set e) 0 (init_state d)) with
  | Ok 0 => all_records (fun hv => hv !! "source" = Some (PStr "aws-api")) inv
  | _ => all_records (fun hv => hv !! "source" = None) inv
  end.
Proof.
  intros inv. subst inv. rewrite generate_inventory_unfold.
  pose proof (env_loop_spec W (working_set e) 0 (init_state d)) as [_ Hcount].
  pose proof (env_loop_preserves W
                (all_records (fun hv => hv !! "source" = None)) (working_set e) 0) as Hpres.
  destruct (env_loop W (working_set e) 0 (init_state d)) as [r1 s1] eqn:E1.
  simpl in *.
  assert (all_records (λ hv, hv !! "source" = None) (inventory s1)) as Hstate.
  { eapply Hpres; [| |exact E1].
    - intros env outputs hi _ Hx s r s' Hall Hrun.
      eapply grows_all_records; [|by eapply add_host_grows|done].
      by eapply extract_terraform_source.
    - intros h hv. simpl. rewrite hostvars_of_init. by rewrite lookup_empty. }
  destruct r1 as [[|n]|x]; simpl; [|done..].
  set (s2 := record _ s1).
  destruct (for_each (fallback_instances W) (fallback_step e) s2) as [r3 s3] eqn:E3.
  simpl.
  refine (preserves_for_each
            (fun s => all_records (λ hv, hv !! "source" = Some (PStr "aws-api")) (inventory s))
            _ _ _ s2 r3 s3 _ E3).
  - intros i _ s r s' Hall Hrun.
    apply fallback_step_grows in Hrun as [->|(env & hi & Hx & _ & _ & Hg)]; [done|].
    eapply grows_all_records; [|exact Hg|done]. by eapply extract_ec2_source.
  - intros h hv. simpl. rewrite (proj2 (Hcount 0 eq_refl) eq_refl). simpl.
    rewrite hostvars_of_init. by rewrite lookup_empty.
Qed.

Lemma hostvars_get_known h hv s :
  meta_ok (inventory s) → hostvars_of (inventory s) !! h = Some hv →
  hostvars_get h s = (Ok hv, s).
Proof.
  intros [m Hm]. unfold hostvars_get, hostvars_of. run_monad. rewrite Hm.
  by intros ->.
Qed.

(** X14.  In host mode (no [--list], a non-empty [--host]), when the
    generator returns a document that holds a record for the hostname,
    [main] prints that record and ends with status 0; the state-backed
    generator is run without environment filter, whatever [--env] says. *)
Theorem host_lookup_known (W : world) (a : CLI.args) (d h : string)
    (inv : gmap string entry) (s : pstate) (hv : gmap string pyval) :
  CLI.list_flag a = false → CLI.host a = Some h → h ≠ "" →
  match CLI.source a with
  | CLI.terraform => generate_inventory W None
  | CLI.ec2 => EC2Inventory.generate_inventory W (CLI.region a)
  end (init_state d) = (Ok inv, s) →
  hostvars_of inv !! h = Some hv →
  CLI.main W a d =
    ({| CLI.stdout := inl (CLI.PrintHostVars hv); CLI.exit_code := 0 |}, s).
Proof.
  intros Hlist Hhost Hne Hgen Hknown.
  assert (hostvars_get h s = (Ok hv, s)) as Hget.
  { destruct (CLI.source a).
    - pose proof (generate_inventory_returns_document _ _ _ _ _ Hgen) as ->.
      apply hostvars_get_known; [|done].
      pose proof (generate_inventory_meta W None (init_state d)) as Hm.
      rewrite Hgen in Hm. apply Hm. by eexists.
    - pose proof (ec2_generate_returns_document _ _ _ _ _ Hgen) as ->.
      apply hostvars_get_known; [|done].
      pose proof (ec2_generate_meta W (CLI.region a) (init_state d)) as Hm.
      rewrite Hgen in Hm. apply Hm, regular_init. }
  unfold CLI.main. rewrite Hlist, Hhost. simpl.
  destruct (String.eqb_spec h ""); [done|]. simpl.
  destruct (CLI.source a); unfold bind; rewrite Hgen; unfold get_host_vars;
    by rewrite Hget.
Qed.

(** X14 for the host of the one sample instance, API-backed source. *)
Lemma host_lookup_known_witness :
  let W := Samples.api_only [Samples.web "dev" (Some "203.0.113.7") None] in
  let a := {| CLI.list_flag := false; CLI.host := Some "dev-unknown";
              CLI.env := None; CLI.source := CLI.ec2;
              CLI.region := "eu-west-1"; CLI.verbose := false |} in
  ∃ hv, fst (CLI.main W a "/") =
          {| CLI.stdout := inl (CLI.PrintHostVars hv); CLI.exit_code := 0 |} ∧
        hv !! "ansible_host" = Some (PStr "203.0.113.7").
Proof.
  intros W a.
  set (rs := EC2Inventory.generate_inventory W "eu-west-1" (init_state "/")).
  set (hv := default ∅ (hostvars_of (inventory (snd rs)) !! "dev-unknown")).
  exists hv. split.
  - refine (f_equal fst (host_lookup_known W a "/" "dev-unknown"
                           (inventory (snd rs)) (snd rs) hv eq_refl eq_refl _ _ _)).
    + done.
    + vm_compute. reflexivity.
    + vm_compute. reflexivity.
  - vm_compute. reflexivity.
Defined.

#[global] Instance keeps_web_servers_refl : Reflexive keeps_web_servers.
Proof. by intros s x. Qed.

#[global] Instance keeps_web_servers_trans : Transitive keeps_web_servers.
Proof. intros s1 s2 s3 H1 H2 x Hx. by apply H2, H1. Qed.

Lemma ensure_group_keeps k e : steps keeps_web_servers (ensure_group k e).
Proof.
  intros s r s'. unfold ensure_group. run_monad.
  destruct (inventory s !! k) eqn:E; intros [= _ <-]; [done|].
  intros x. simpl. rewrite hosts_of_insert. case_decide as Hk; [|done].
  subst k. unfold hosts_of at 1. rewrite E. by intros ?%elem_of_nil.
Qed.

Lemma append_host_keeps g h : steps keeps_web_servers (append_host g h).
Proof.
  intros s r s'. unfold append_host. run_monad.
  destruct (inventory s !! g) as [[m|[l|] v]|] eqn:E; intros [= _ <-]; try done.
  intros x. simpl. rewrite hosts_of_insert. case_decide as Hg; [|done]. subst g.
  unfold hosts_of. rewrite E, lookup_singleton_eq. rewrite elem_of_app. auto.
Qed.

Lemma ensure_group_listable k l v :
  preserves (fun s => listable (inventory s)) (ensure_group k (Group (Some l) v)).
Proof.
  intros s r s' Hall. pose proof Hall as [[m Hm] Hl]. unfold ensure_group. run_monad.
  destruct (inventory s !! k) eqn:E; intros [= _ <-]; [done|]. simpl. split.
  - exists m. rewrite lookup_insert_ne; [done|congruence].
  - intros g Hg Ha. unfold no_hosts. rewrite lookup_insert.
    case_decide; [tauto|]. by apply Hl.
Qed.

Lemma append_host_listable g h :
  preserves (fun s => listable (inventory s)) (append_host g h).
Proof.
  intros s r s' Hall. pose proof Hall as [[m Hm] Hl]. unfold append_host. run_monad.
  destruct (inventory s !! g) as [[m'|[l|] v]|] eqn:E; intros [= _ <-]; try done.
  simpl. split.
  - exists m. rewrite lookup_insert_ne; [done|congruence].
  - intros g' Hg Ha. unfold no_hosts. rewrite lookup_insert.
    case_decide; [tauto|]. by apply Hl.
Qed.

Lemma ensure_all_preserves_listable :
  preserves (fun s => listable (inventory s))
    (ensure_group "all" (Group None (Some all_vars))).
Proof.
  intros s r s' Hall Hrun.
  destruct (ensure_all_listable s Hall) as (s1 & E & Hl1). congruence.
Qed.

(** The first three statements of [_add_host_to_inventory] on a listable
    document: the record is stored and the host appended to
    [web_servers]. *)
Lemma add_host_head h hi s :
  listable (inventory s) →
  ∃ s', (set_hostvars h hi >>
         ensure_group "web_servers" (Group (Some []) (Some ∅)) >>
         append_host "web_servers" h) s = (Ok tt, s') ∧
        listable (inventory s') ∧
        cwd s' = cwd s ∧ trace s' = trace s ∧
        hostvars_of (inventory s') = <[h := hi]> (hostvars_of (inventory s)) ∧
        hosts_of (inventory s') "web_servers" =
          hosts_of (inventory s) "web_servers" ++ [h] ∧
        (∀ g, g ≠ "web_servers" → hosts_of (inventory s') g = hosts_of (inventory s) g) ∧
        (∀ g, g ≠ "web_servers" → g ≠ "_meta" →
              inventory s' !! g = inventory s !! g).
Proof.
  intros Hall. pose proof Hall as [[m Hm] Hl].
  pose proof (Hl "web_servers") as Hws. unfold no_hosts in Hws.
  unfold set_hostvars, ensure_group, append_host. run_monad. rewrite Hm. simpl.
  rewrite lookup_insert_ne by done.
  assert (∀ g, g ≠ "web_servers" →
            hosts_of (<["_meta" := Meta (<[h := hi]> m)]> (inventory s)) g =
            hosts_of (inventory s) g) as Hframe.
  { intros g Hg. rewrite hosts_of_insert. case_decide as E; [|done]. subst g.
    unfold hosts_of. by rewrite lookup_singleton_eq, Hm. }
  destruct (inventory s !! "web_servers") as [[m'|[l|] v]|] eqn:E; simpl;
    try (exfalso; by apply Hws).
  - rewrite lookup_insert_ne by done. rewrite E. simpl.
    eexists. split; [done|]. simpl.
    split; [|split; [done|split; [done|split; [|split; [|split]]]]].
    + split.
      * eexists. rewrite lookup_insert_ne by done. by rewrite lookup_insert_eq.
      * intros g Hg Ha. unfold no_hosts. rewrite lookup_insert.
        case_decide; [tauto|]. rewrite lookup_insert_ne by done. by apply Hl.
    + unfold hostvars_of. rewrite lookup_insert_ne by done.
      by rewrite lookup_insert_eq, Hm.
    + unfold hosts_of. by rewrite lookup_insert_eq, E.
    + intros g Hg. rewrite hosts_of_insert. case_decide; [done|]. by apply Hframe.
    + intros g Hg Hg'. by rewrite !lookup_insert_ne.
  - rewrite lookup_insert_eq. simpl.
    eexists. split; [done|]. simpl.
    split; [|split; [done|split; [done|split; [|split; [|split]]]]].
    + split.
      * eexists. rewrite !lookup_insert_ne by done. by rewrite lookup_insert_eq.
      * intros g Hg Ha. unfold no_hosts. rewrite insert_insert_eq, lookup_insert.
        case_decide; [tauto|]. rewrite lookup_insert_ne by done. by apply Hl.
    + unfold hostvars_of. rewrite !lookup_insert_ne by done.
      by rewrite lookup_insert_eq, Hm.
    + unfold hosts_of. by rewrite lookup_insert_eq, E.
    + intros g Hg. rewrite insert_insert_eq, hosts_of_insert.
      case_decide; [done|]. by apply Hframe.
    + intros g Hg Hg'. by rewrite !lookup_insert_ne.
Qed.

Lemma add_host_split env hi s :
  _add_host_to_inventory env hi s =
  ((set_hostvars (env +:+ "-web-server") hi >>
    ensure_group "web_servers" (Group (Some []) (Some ∅)) >>
    append_host "web_servers" (env +:+ "-web-server")) >>
   (ensure_group env (Group (Some []) (Some {["environment" := PStr env]})) >>
    append_host env (env +:+ "-web-server") >>
    ensure_group "all" (Group None (Some all_vars)))) s.
Proof.
  unfold _add_host_to_inventory, bind.
  destruct (set_hostvars _ hi s) as [[[]|x] s1]; [|done].
  destruct (ensure_group "web_servers" _ s1) as [[[]|x] s2]; [|done].
  by destruct (append_host "web_servers" _ s2) as [[[]|x] s3].
Qed.

Lemma add_host_consistent env hi :
  preserves (fun s => consistent (inventory s)) (_add_host_to_inventory env hi).
Proof.
  intros s r s' (Hl & Hws & Hlisted). rewrite add_host_split. unfold bind at 1.
  set (h := env +:+ "-web-server").
  destruct (add_host_head h hi s Hl)
    as (s3 & -> & Hl3 & _ & _ & Hv3 & Hws3 & Hoth3 & _).
  set (rest := (ensure_group env _ >> append_host env h >> ensure_group "all" _)).
  intros Hrest.
  assert (steps (grows h hi) rest) as Hgrows.
  { unfold rest. repeat first
      [ apply ensure_group_grows; done | apply append_host_grows
      | apply steps_bind; try apply _; [|intros _] ]. }
  assert (steps keeps_web_servers rest) as Hkeeps.
  { unfold rest. repeat first
      [ apply ensure_group_keeps | apply append_host_keeps
      | apply steps_bind; try apply _; [|intros _] ]. }
  assert (preserves (fun s => listable (inventory s)) rest) as Hlist.
  { unfold rest. repeat first
      [ apply ensure_all_preserves_listable | apply ensure_group_listable
      | apply append_host_listable | apply preserves_bind; [|intros _] ]. }
  pose proof (Hgrows _ _ _ Hrest) as (_ & _ & Hv & Hh & _).
  pose proof (Hkeeps _ _ _ Hrest) as Hk.
  assert (hostvars_of (inventory s') = <[h := hi]> (hostvars_of (inventory s))) as Hv'.
  { destruct Hv as [E|E]; rewrite E, Hv3; [done|]. by rewrite insert_insert_eq. }
  assert (∀ x, known_host x (inventory s') ↔ x = h ∨ known_host x (inventory s))
    as Hknown.
  { intros x. unfold known_host. rewrite Hv', lookup_insert.
    case_decide as E; [|naive_solver]. subst. split; [by left|by eexists]. }
  split; [by eapply Hlist|]. split.
  - intros x. rewrite Hknown. split.
    + intros Hx. apply Hk. rewrite Hws3, elem_of_app, list_elem_of_singleton.
      destruct Hx as [->|Hx]; [by right|]. left. by apply Hws.
    + intros Hx. apply Hh in Hx as [Hx| ->]; [|by left].
      rewrite Hws3, elem_of_app, list_elem_of_singleton in Hx.
      destruct Hx as [Hx| ->]; [|by left]. right. by apply Hws.
  - intros g x Hx. rewrite Hknown. apply Hh in Hx as [Hx| ->]; [|by left].
    destruct (decide (g = "web_servers")) as [->|Hg].
    + rewrite Hws3, elem_of_app, list_elem_of_singleton in Hx.
      destruct Hx as [Hx| ->]; [|by left]. right. by apply Hws.
    + rewrite Hoth3 in Hx by done. right. by eapply Hlisted.
Qed.

Lemma consistent_init : consistent init_inventory.
Proof.
  split; [apply listable_init|]. split.
  - intros h. unfold known_host. rewrite hostvars_of_init, lookup_empty.
    split; [by intros [? ?]|]. by intros ?%elem_of_nil.
  - intros g h. unfold hosts_of, init_inventory.
    destruct (decide (g = "_meta")) as [->|Hne].
    + rewrite lookup_singleton_eq. by intros ?%elem_of_nil.
    + rewrite lookup_singleton_ne by done. by intros ?%elem_of_nil.
Qed.

(** X18.  In a document of [TerraformInventory.generate_inventory], whether
    it was returned or an exception cut the generation short, the hosts
    with a record are the hosts of [web_servers], and every host of any
    list has a record. *)
Theorem terraform_document_consistent (W : world) (e : option string) (d h : string) :
  let inv := inventory (snd (generate_inventory W e (init_state d))) in
  (known_host h inv ↔ h ∈ hosts_of inv "web_servers") ∧
  (∀ g, h ∈ hosts_of inv g → known_host h inv).
Proof.
  intros inv.
  assert (consistent inv) as (_ & Hws & Hlisted).
  { unfold inv.
    destruct (generate_inventory W e (init_state d)) as [r s'] eqn:E.
    eapply (generate_inventory_preserves W consistent e); [| | |exact E].
    - intros env outputs hi _. apply add_host_consistent.
    - intros i s r0 s0 Hc Hrun.
      destruct (fallback_step_cases e i s) as [Hs|(env & hi & _ & _ & _ & _ & Hs)];
        rewrite Hs in Hrun.
      + by injection Hrun as _ <-.
      + by eapply add_host_consistent.
    - apply consistent_init. }
  split; [apply Hws|]. intros g. apply Hlisted.
Qed.

End StateDocuments.

(** ** The document built from state *)

Section StatePath.
Import TerraformInventory.

Lemma tool_outcome_restores W env command d :
  chdir_ok W d = true →
  ∃ v evs, tool_outcome W env command d = (v, d, evs) ∧ api_calls evs = [].
Proof.
  intros Hd. unfold tool_outcome.
  pose proof (run_terraform_command_frame W env command (init_state d))
    as (_ & _ & Ht & Hc).
  simpl in *. destruct Hc as [Hc|[Hc _]]; [|congruence].
  rewrite Hc. by eexists _, _.
Qed.

Lemma api_calls_app t1 t2 : api_calls (t1 ++ t2) = api_calls t1 ++ api_calls t2.
Proof. unfold api_calls. apply omap_app. Qed.

#[local] Arguments tool_outcome : simpl never.

Lemma env_step_by_record W env k s :
  chdir_ok W (cwd s) = true →
  ∃ evs, api_calls evs = [] ∧
    env_step W env k s =
    let s2 := {| inventory := inventory s; cwd := cwd s; trace := trace s ++ evs |} in
    match state_record W (cwd s) env with
    | Some hi =>
        let rs := _add_host_to_inventory env hi s2 in
        (match fst rs with Ok _ => Ok (S k) | Raise x => Raise x end, snd rs)
    | None => (Ok k, s2)
    end.
Proof.
  intros Hd. unfold env_step, state_record, _check_terraform_state,
    _get_terraform_outputs, bind, ret.
  rewrite !(run_terraform_command_local W env ["terraform"; "show"; "-json"]).
  simpl (cwd _).
  destruct (tool_outcome_restores W env ["terraform"; "show"; "-json"] (cwd s) Hd)
    as (v1 & evs1 & E1 & Ha1).
  rewrite !E1.
  destruct v1 as [doc|].
  2: { exists evs1. by split. }
  destruct (doc !! "values") as [[vals|]|];
    try (exists evs1; by split).
  rewrite !(run_terraform_command_local W env ["terraform"; "output"; "-json"]).
  simpl (cwd _).
  destruct (tool_outcome_restores W env ["terraform"; "output"; "-json"] (cwd s) Hd)
    as (v2 & evs2 & E2 & Ha2).
  rewrite !E2. exists (evs1 ++ evs2).
  split; [by rewrite api_calls_app, Ha1, Ha2|].
  simpl (inventory _). simpl (trace _). rewrite <- app_assoc.
  destruct (truthy_dict v2); [|done].
  destruct (_extract_host_info_from_terraform env (default ∅ v2)) as [hi|];
    [|done].
  destruct (truthy_dict (Some hi)); [|done]. simpl.
  by destruct (_add_host_to_inventory env hi _) as [[[]|x] s3].
Qed.

Lemma add_host_fresh env hi s :
  listable (inventory s) →
  env ≠ "_meta" → env ≠ "all" → env ≠ "web_servers" →
  inventory s !! env = None →
  ∃ s', _add_host_to_inventory env hi s = (Ok tt, s') ∧
    listable (inventory s') ∧ cwd s' = cwd s ∧ trace s' = trace s ∧
    hostvars_of (inventory s') = <[web_server env := hi]> (hostvars_of (inventory s)) ∧
    hosts_of (inventory s') "web_servers" =
      hosts_of (inventory s) "web_servers" ++ [web_server env] ∧
    hosts_of (inventory s') env = [web_server env] ∧
    (∀ g, g ≠ "web_servers" → g ≠ env → g ≠ "all" → g ≠ "_meta" →
          inventory s' !! g = inventory s !! g) ∧
    inventory s' !! "all" =
      Some (default (Group None (Some all_vars)) (inventory s !! "all")).
Proof.
  intros Hl Hm Ha Hw Hfresh. rewrite add_host_split. unfold bind at 1.
  fold (web_server env).
  destruct (add_host_head (web_server env) hi s Hl)
    as (s3 & -> & Hl3 & Hc3 & Ht3 & Hv3 & Hws3 & _ & Hent3).
  pose proof Hl3 as [[m3 Hm3] Hno3].
  unfold ensure_group, append_host. run_monad.
  rewrite (Hent3 env) by done. rewrite Hfresh. simpl.
  rewrite lookup_insert_eq. simpl. rewrite insert_insert_eq.
  rewrite lookup_insert_ne by done. rewrite (Hent3 "all") by done.
  set (inv4 := <[env := Group (Some [web_server env])
                          (Some {["environment" := PStr env]})]> (inventory s3)).
  assert (hostvars_of inv4 = hostvars_of (inventory s3)) as Hv4.
  { unfold inv4. apply hostvars_of_insert_group. left. by rewrite Hent3. }
  assert (listable inv4) as Hl4.
  { split.
    - exists m3. unfold inv4. by rewrite lookup_insert_ne.
    - intros g Hg Hg'. unfold no_hosts, inv4. rewrite lookup_insert.
      case_decide; [tauto|]. by apply Hno3. }
  assert (hosts_of inv4 "web_servers" = hosts_of (inventory s3) "web_servers") as Hw4.
  { unfold inv4. rewrite hosts_of_insert. by case_decide. }
  assert (hosts_of inv4 env = [web_server env]) as He4.
  { unfold inv4, hosts_of. by rewrite lookup_insert_eq. }
  destruct (inventory s !! "all") as [a|] eqn:Eall; simpl.
  - eexists. split; [done|]. simpl. fold inv4.
    split; [done|]. split; [done|]. split; [done|].
    split; [by rewrite Hv4|]. split; [by rewrite Hw4|]. split; [done|]. split.
    + intros g ? ? ? ?. unfold inv4. rewrite lookup_insert_ne by done. by apply Hent3.
    + unfold inv4. rewrite lookup_insert_ne by done. by rewrite Hent3.
  - eexists. split; [done|]. simpl. fold inv4.
    split.
    { destruct Hl4 as [[m4 Hm4] Hno4]. split.
      - exists m4. by rewrite lookup_insert_ne.
      - intros g Hg Hg'. unfold no_hosts. rewrite lookup_insert_ne by done.
        by apply Hno4. }
    split; [done|]. split; [done|]. split.
    { rewrite hostvars_of_insert_group; [by rewrite Hv4|]. left.
      unfold inv4. rewrite lookup_insert_ne by done. by rewrite Hent3. }
    split.
    { rewrite hosts_of_insert. case_decide; [done|]. by rewrite Hw4. }
    split.
    { rewrite hosts_of_insert. case_decide; [done|]. done. }
    split.
    + intros g ? ? ? ?. rewrite lookup_insert_ne by done. unfold inv4.
      rewrite lookup_insert_ne by done. by apply Hent3.
    + by rewrite lookup_insert_eq.
Qed.

Lemma list_of_append a b :
  list_ascii_of_string (a +:+ b) = list_ascii_of_string a ++ list_ascii_of_string b.
Proof. induction a as [|c a IH]; [done|]. rewrite append_cons. simpl. by rewrite IH. Qed.

Lemma web_server_inj env1 env2 : web_server env1 = web_server env2 → env1 = env2.
Proof.
  unfold web_server. intros H. apply (f_equal list_ascii_of_string) in H.
  rewrite !list_of_append in H. apply app_inv_tail in H.
  apply (f_equal string_of_list_ascii) in H.
  by rewrite !string_of_list_ascii_of_string in H.
Qed.

Lemma hosts_of_entry inv inv' g : inv' !! g = inv !! g → hosts_of inv' g = hosts_of inv g.
Proof. unfold hosts_of. by intros ->. Qed.

Lemma env_loop_states W d envs k s :
  chdir_ok W d = true → cwd s = d →
  listable (inventory s) → all_vars_only (inventory s) →
  NoDup envs →
  (∀ env, env ∈ envs →
     env ≠ "_meta" ∧ env ≠ "all" ∧ env ≠ "web_servers" ∧ inventory s !! env = None) →
  ∃ s', env_loop W envs k s = (Ok (k + length (state_hosts W d envs)), s') ∧
    cwd s' = d ∧
    hosts_of (inventory s') "web_servers" =
      hosts_of (inventory s) "web_servers" ++ state_hosts W d envs ∧
    (∀ env, env ∈ envs →
       hostvars_of (inventory s') !! web_server env =
         match state_record W d env with
         | Some hi => Some hi
         | None => hostvars_of (inventory s) !! web_server env
         end ∧
       hosts_of (inventory s') env =
         match state_record W d env with
         | Some _ => [web_server env]
         | None => []
         end) ∧
    (∀ h, h ∉ web_server <$> envs →
          hostvars_of (inventory s') !! h = hostvars_of (inventory s) !! h) ∧
    (∀ g, g ∉ envs → g ≠ "web_servers" → g ≠ "all" → g ≠ "_meta" →
          inventory s' !! g = inventory s !! g) ∧
    (∀ a, inventory s !! "all" = Some a → inventory s' !! "all" = Some a) ∧
    (state_hosts W d envs ≠ [] →
     inventory s' !! "all" = Some (Group None (Some all_vars))).
Proof.
  intros Hd. revert k s.
  induction envs as [|env envs IH]; intros k s Hcwd Hl Hall Hnd Henvs.
  { exists s. simpl. rewrite Nat.add_0_r, app_nil_r.
    split; [done|]. split; [done|]. split; [done|].
    split; [by intros ? ?%elem_of_nil|]. done. }
  apply NoDup_cons in Hnd as [Hnotin Hnd].
  destruct (Henvs env) as (Hm & Ha & Hw & Hfresh); [left|].
  simpl. unfold bind.
  destruct (env_step_by_record W env k s) as (evs & _ & ->); [by rewrite Hcwd|].
  rewrite Hcwd. set (s2 := {| inventory := inventory s; cwd := d; trace := _ |}).
  assert (∀ env', env' ∈ envs → web_server env ≠ web_server env') as Hinj.
  { intros env' Hin E. apply web_server_inj in E. by subst. }
  unfold state_hosts. simpl. fold (state_hosts W d envs).
  destruct (state_record W d env) as [hi|] eqn:Hrec; simpl.
  - destruct (add_host_fresh env hi s2 Hl Hm Ha Hw Hfresh)
      as (s3 & -> & Hl3 & Hc3 & _ & Hv3 & Hws3 & He3 & Hent3 & Hall3).
    simpl.
    destruct (IH (S k) s3) as (s' & -> & Hc & Hws & Henv & Hvf & Hef & Hstab & _);
      [done|done| |done| |].
    { right. rewrite Hall3. simpl. by destruct Hall as [-> | ->]. }
    { intros env' Hin. destruct (Henvs env') as (? & ? & ? & ?); [by right|].
      repeat split; try done. rewrite Hent3; try done. intros ->. done. }
    exists s'. split; [f_equal; f_equal; lia|]. split; [done|]. split.
    { rewrite Hws, Hws3. simpl. by rewrite <- app_assoc. }
    split; [|split; [|split; [|split]]].
    + intros env' [->|Hin]%elem_of_cons.
      * rewrite Hrec. split.
        -- rewrite Hvf, Hv3; [apply lookup_insert_eq|].
           intros (env' & E & Hin)%list_elem_of_fmap. by eapply Hinj.
        -- rewrite (hosts_of_entry (inventory s3)); [done|]. by apply Hef.
      * destruct (Henv env' Hin) as [Hv He]. split; [|done]. rewrite Hv.
        destruct (state_record W d env'); [done|]. rewrite Hv3.
        simpl. rewrite lookup_insert_ne; [done|]. by apply Hinj.
    + intros h Hh. rewrite Hvf.
      * rewrite Hv3. simpl. rewrite lookup_insert_ne; [done|].
        intros <-. apply Hh. simpl. left.
      * intros Hin. apply Hh. simpl. by right.
    + intros g Hg ? ? ?. rewrite Hef; try done.
      * apply Hent3; try done. intros ->. apply Hg. left.
      * intros Hin. apply Hg. by right.
    + intros a Ha'. apply Hstab. rewrite Hall3. simpl in *. by rewrite Ha'.
    + intros _. apply Hstab. rewrite Hall3. simpl.
      by destruct Hall as [-> | ->].
  - destruct (IH k s2) as (s' & -> & Hc & Hws & Henv & Hvf & Hef & Hstab & Hsome);
      [done|done|done|done| |].
    { intros env' Hin. apply Henvs. by right. }
    exists s'. split; [done|]. split; [done|]. split; [done|].
    split; [|split; [|split; [|split]]].
    + intros env' [->|Hin]%elem_of_cons.
      * rewrite Hrec. split.
        -- rewrite Hvf; [done|].
           intros (env' & E & Hin)%list_elem_of_fmap. by eapply Hinj.
        -- rewrite (hosts_of_entry (inventory s2)); [|by apply Hef].
           unfold hosts_of. simpl. by rewrite Hfresh.
      * by apply Henv.
    + intros h Hh. rewrite Hvf; [done|].
      intros Hin. apply Hh. simpl. by right.
    + intros g Hg ? ? ?. rewrite Hef; try done.
      intros Hin. apply Hg. by right.
    + done.
    + done.
Qed.

Lemma working_set_nodup e : NoDup (working_set e).
Proof.
  unfold working_set, terraform_environments.
  destruct (truthy e); [apply NoDup_singleton|].
  repeat (apply NoDup_cons; split;
          [rewrite ?elem_of_cons, elem_of_nil; naive_solver|]).
  apply NoDup_nil_2.
Qed.

(** X19.  The document built from state.  If the process can change back
    into its working directory [d], the filter is no reserved name and at
    least one environment of the working set yields a record, then
    [TerraformInventory.generate_inventory] returns, the process is in [d],
    no API call was made, [web_servers] lists [<env>-web-server] for the
    environments that yield a record, in the order of the working set,
    each such environment has its record in [hostvars] and is a group of
    that one host, the other environments of the working set have no
    record, nothing else has a record, and [all] holds the global variables
    and no host list. *)
Theorem state_path_document (W : world) (e : option string) (d : string) :
  chdir_ok W d = true →
  (∀ env, e = Some env → env ≠ "_meta" ∧ env ≠ "all" ∧ env ≠ "web_servers") →
  state_hosts W d (working_set e) ≠ [] →
  ∃ s', generate_inventory W e (init_state d) = (Ok (inventory s'), s') ∧
    cwd s' = d ∧ api_calls (trace s') = [] ∧
    hosts_of (inventory s') "web_servers" = state_hosts W d (working_set e) ∧
    (∀ env, env ∈ working_set e →
       hostvars_of (inventory s') !! web_server env = state_record W d env ∧
       hosts_of (inventory s') env =
         match state_record W d env with
         | Some _ => [web_server env]
         | None => []
         end) ∧
    (∀ h, known_host h (inventory s') →
          ∃ env, env ∈ working_set e ∧ h = web_server env) ∧
    inventory s' !! "all" = Some (Group None (Some all_vars)).
Proof.
  intros Hd He Hfound.
  destruct (env_loop_states W d (working_set e) 0 (init_state d) Hd eq_refl
              listable_init (or_introl eq_refl) (working_set_nodup e))
    as (s' & Hloop & Hc & Hws & Henv & Hvf & _ & _ & Hall).
  { intros env. unfold working_set, terraform_environments.
    assert (env ≠ "_meta" → init_inventory !! env = None) as Hnone.
    { intros Hne. unfold init_inventory. by rewrite lookup_singleton_ne. }
    destruct e as [env'|]; simpl.
    - destruct (String.eqb env' ""); simpl.
      + rewrite !elem_of_cons, elem_of_nil.
        intros [->|[->|[->|[]]]]; repeat split; by try apply Hnone.
      + rewrite list_elem_of_singleton. intros ->.
        destruct (He env' eq_refl) as (? & ? & ?). repeat split; try done.
        by apply Hnone.
    - rewrite !elem_of_cons, elem_of_nil.
      intros [->|[->|[->|[]]]]; repeat split; by try apply Hnone. }
  exists s'.
  pose proof (env_loop_spec W (working_set e) 0 (init_state d)) as [Htr _].
  rewrite generate_inventory_unfold. rewrite Hloop in Htr |- *. simpl in Htr |- *.
  destruct (state_hosts W d (working_set e)) as [|h0 hs] eqn:Ehosts; [done|].
  simpl. split; [done|]. split; [done|]. split; [done|]. split; [done|].
  split; [|split; [|by apply Hall]].
  - intros env Hin. destruct (Henv env Hin) as [Hv Hh]. split; [|done].
    rewrite Hv. destruct (state_record W d env); [done|].
    simpl. by rewrite hostvars_of_init, lookup_empty.
  - intros h [hv Hhv].
    destruct (decide (h ∈ web_server <$> working_set e)) as [Hin|Hout].
    + apply list_elem_of_fmap in Hin as (env & -> & Hin). by exists env.
    + rewrite Hvf in Hhv by done. simpl in Hhv.
      by rewrite hostvars_of_init, lookup_empty in Hhv.
Qed.

(** X19 where only [dev] has state. *)
Lemma state_path_document_witness :
  ∃ s', generate_inventory Samples.dev_state None (init_state "/") =
          (Ok (inventory s'), s') ∧
        hosts_of (inventory s') "web_servers" = ["dev-web-server"] ∧
        hosts_of (inventory s') "dev" = ["dev-web-server"] ∧
        hosts_of (inventory s') "staging" = [].
Proof.
  destruct (state_path_document Samples.dev_state None "/" eq_refl)
    as (s' & Hgen & _ & _ & Hws & Henv & _).
  - by intros env.
  - by vm_compute.
  - exists s'. split; [done|]. split; [|split].
    + rewrite Hws. by vm_compute.
    + destruct (Henv "dev") as [_ ->]; [left|]. by vm_compute.
    + destruct (Henv "staging") as [_ ->]; [right; left|]. by vm_compute.
Defined.

End StatePath.

(** ** An exception of the state-backed generator *)

Section ReservedTag.
Import TerraformInventory.

(** The last three statements of [_add_host_to_inventory] on a listable
    document: the only exception is the [KeyError] of [['hosts']], and it
    is raised when the environment is named [_meta]. *)
Lemma add_host_tail env h s :
  listable (inventory s) →
  let r := fst ((ensure_group env (Group (Some []) (Some {["environment" := PStr env]})) >>
                 append_host env h >>
                 ensure_group "all" (Group None (Some all_vars))) s) in
  (r = Ok tt ∨ r = Raise (KeyError "hosts")) ∧
  (env = "_meta" → r = Raise (KeyError "hosts")).
Proof.
  intros [[m Hm] _]. unfold ensure_group, append_host. run_monad.
  destruct (inventory s !! env) as [[m'|[l|] v]|] eqn:E; simpl; rewrite ?E; simpl.
  - split; [by right|done].
  - split; [|intros ->; congruence]. left.
    by destruct (_ !! "all").
  - split; [by right|]. intros ->. congruence.
  - rewrite lookup_insert_eq. simpl. split; [|intros ->; congruence]. left.
    by destruct (_ !! "all").
Qed.

Lemma add_host_listable_result env hi s :
  listable (inventory s) →
  let r := fst (_add_host_to_inventory env hi s) in
  (r = Ok tt ∨ r = Raise (KeyError "hosts")) ∧
  (env = "_meta" → r = Raise (KeyError "hosts")).
Proof.
  intros Hl. rewrite add_host_split. unfold bind at 1.
  destruct (add_host_head (env +:+ "-web-server") hi s Hl) as (s3 & -> & Hl3 & _).
  by apply add_host_tail.
Qed.

Lemma add_host_preserves_listable env hi :
  preserves (fun s => listable (inventory s)) (_add_host_to_inventory env hi).
Proof.
  intros s r s' Hl. rewrite add_host_split. unfold bind at 1.
  destruct (add_host_head (env +:+ "-web-server") hi s Hl) as (s3 & -> & Hl3 & _).
  revert Hl3. revert s3 r s'.
  change (preserves (fun s => listable (inventory s))
            (ensure_group env (Group (Some []) (Some {["environment" := PStr env]})) >>
             append_host env (env +:+ "-web-server") >>
             ensure_group "all" (Group None (Some all_vars)))).
  repeat first
    [ apply ensure_all_preserves_listable | apply ensure_group_listable
    | apply append_host_listable | apply preserves_bind; [|intros _] ].
Qed.

(** An instance with an environment tag and an address, which the filter
    lets through, is inserted. *)
Lemma fallback_step_taken e i env s :
  env_tag i = Some env → env ≠ "" → truthy (PublicIpAddress i) = true →
  truthy e = false ∨ e = Some env →
  ∃ hi, fallback_step e i s = _add_host_to_inventory env hi s.
Proof.
  intros Htag Hne Hip He.
  assert (truthy (env_tag i) = true) as Ht.
  { rewrite Htag. simpl. by destruct (String.eqb_spec env ""). }
  destruct (_extract_host_info_from_ec2 i) as [hi|] eqn:Hx.
  2: { unfold _extract_host_info_from_ec2 in Hx. by rewrite Ht, Hip in Hx. }
  pose proof (extract_ec2_Some _ _ Hx) as (_ & Hne' & (env' & Htag' & _ & Hlook) & _).
  assert (env' = env) as -> by congruence.
  exists hi. unfold fallback_step. rewrite Hx. simpl.
  rewrite bool_decide_true by done. rewrite Hlook.
  destruct He as [-> | ->]; [done|].
  rewrite bool_decide_true by done. by rewrite orb_true_r.
Qed.

Lemma fallback_reserved_raises e l i s :
  listable (inventory s) → i ∈ l →
  env_tag i = Some "_meta" → truthy (PublicIpAddress i) = true →
  truthy e = false ∨ e = Some "_meta" →
  fst (for_each l (fallback_step e) s) = Raise (KeyError "hosts").
Proof.
  intros Hl Hin Htag Hip He. revert s Hl.
  induction l as [|j l IH]; intros s Hl; [by apply elem_of_nil in Hin|].
  simpl. unfold bind.
  apply elem_of_cons in Hin as [<-|Hin].
  - destruct (fallback_step_taken e i "_meta" s Htag) as (hi & ->); [done..|].
    pose proof (add_host_listable_result "_meta" hi s Hl) as [_ Hr].
    specialize (Hr eq_refl).
    destruct (_add_host_to_inventory "_meta" hi s) as [r s1]. simpl in Hr.
    by subst r.
  - destruct (fallback_step_cases e j s) as [->|(env & hi & _ & _ & _ & _ & ->)].
    + by apply IH.
    + pose proof (add_host_listable_result env hi s Hl) as [Hr _].
      pose proof (add_host_preserves_listable env hi s) as Hp.
      destruct (_add_host_to_inventory env hi s) as [r s1]. simpl in Hr.
      destruct Hr as [-> | ->]; [|done].
      apply IH; [done|]. by eapply Hp.
Qed.

(** X23.  The state-backed generator can raise.  When the loop over the
    environments found no host and the fallback meets an instance with a
    public address whose [Environment] tag is [_meta], which the filter
    lets through, [TerraformInventory.generate_inventory] raises the
    [KeyError] of [['hosts']] on the reserved record (the fallback loop has
    no [try]), and [main] in list mode ends with status 1. *)
Theorem fallback_reserved_tag_raises (W : world) (e : option string) (d : string)
    (i : instance) :
  fst (env_loop W (working_set e) 0 (init_state d)) = Ok 0 →
  i ∈ fallback_instances W →
  env_tag i = Some "_meta" → truthy (PublicIpAddress i) = true →
  truthy e = false ∨ e = Some "_meta" →
  fst (generate_inventory W e (init_state d)) = Raise (KeyError "hosts") ∧
  ∀ a, CLI.source a = CLI.terraform → CLI.list_flag a = true → CLI.env a = e →
       CLI.exit_code (fst (CLI.main W a d)) = 1%Z.
Proof.
  intros Hloop Hin Htag Hip He.
  assert (fst (generate_inventory W e (init_state d)) = Raise (KeyError "hosts"))
    as Hgen.
  { rewrite generate_inventory_unfold.
    pose proof (env_loop_spec W (working_set e) 0 (init_state d)) as [_ Hn].
    specialize (Hn 0 Hloop) as [_ Hinv]. specialize (Hinv eq_refl).
    rewrite Hloop. simpl.
    rewrite (fallback_reserved_raises e (fallback_instances W) i); try done.
    simpl. rewrite Hinv. apply listable_init. }
  split; [done|]. intros a Hsrc Hlist <-. unfold CLI.main.
  rewrite Hlist, Hsrc.
  destruct (generate_inventory W (CLI.env a) (init_state d)) as [r s'].
  simpl in Hgen. by subst r.
Qed.

(** X23 where the API lists one such instance. *)
Lemma fallback_reserved_tag_raises_witness :
  let W := Samples.api_only [Samples.web "_meta" (Some "203.0.113.7") None] in
  fst (generate_inventory W None (init_state "/")) = Raise (KeyError "hosts").
Proof.
  intros W.
  refine (proj1 (fallback_reserved_tag_raises W None "/"
                   (Samples.web "_meta" (Some "203.0.113.7") None) _ _ _ _ _)).
  - rewrite env_loop_missing; [done|]. by intros env _.
  - apply list_elem_of_singleton. reflexivity.
  - reflexivity.
  - reflexivity.
  - by left.
Defined.

End ReservedTag.
